(** * IEOtools: the Landsat catalogue scripts, embedded and verified

    Two command-line scripts are modelled here:
    - [convertlibrarytotiles.py]: walks six product directories and hands
      every scene file to [ieo.converttotiles];
    - [updatelandsat.py]: validates the catalogue layer, searches the USGS
      inventory, requests metadata and writes features.

    The external world (file system, network, the [ieo] library, OGR) enters
    the model through oracles that are arguments of the embedded functions.
    Python exceptions are values of [exn]; a computation that can raise
    returns a [result]. *)

From Stdlib Require Import ZArith List String Ascii Bool Lia Arith
  DecimalString.
From Equations Require Import Equations.
Import ListNotations.
Open Scope string_scope.
Open Scope Z_scope.

(** ** Python primitives *)

Module Py.

(** The exception classes the scripts can meet.  [SystemExit] and
    [KeyboardInterrupt] derive from [BaseException] only, so a clause
    [except Exception] lets them through. *)
Inductive exn : Type :=
| NameError (name : string)
| UnboundLocalError (name : string)
| TypeError (msg : string)
| ValueError (msg : string)
| IndexError
| KeyError (key : string)
| OverflowError
| URLError (reason : string)
| OSError (msg : string)
| SystemExit
| KeyboardInterrupt.

Definition is_Exception (e : exn) : bool :=
  match e with
  | SystemExit | KeyboardInterrupt => false
  | _ => true
  end.

Inductive result (A : Type) : Type :=
| Ok (a : A)
| Raise (e : exn).
Arguments Ok {A} a.
Arguments Raise {A} e.

Definition bind {A B} (m : result A) (k : A -> result B) : result B :=
  match m with
  | Ok a => k a
  | Raise e => Raise e
  end.

(** [x in l] for a list of strings. *)
Definition str_in (x : string) (l : list string) : bool :=
  existsb (String.eqb x) l.

(** [l.index(x)]: position of the first element equal to [x]. *)
Fixpoint index (x : string) (l : list string) : result nat :=
  match l with
  | [] => Raise (ValueError "is not in list")
  | y :: l' =>
      if String.eqb y x then Ok 0%nat
      else bind (index x l') (fun i => Ok (S i))
  end.

(** [range(n)]. *)
Definition range (n : nat) : list nat := seq 0 n.

(** A slice bound as Python normalises it against a length. *)
Definition clamp (len i : Z) : Z :=
  if i <? 0 then Z.max (i + len) 0 else Z.min i len.

(** [l[start:stop]] with step one. *)
Definition slice {A} (l : list A) (start stop : Z) : list A :=
  let len := Z.of_nat (List.length l) in
  let lo := clamp len start in
  let hi := clamp len stop in
  firstn (Z.to_nat (hi - lo)) (skipn (Z.to_nat lo) l).

(** [s[a:b]] on a string, for non-negative literal bounds. *)
Definition str_slice (s : string) (a b : nat) : string :=
  substring a (b - a) s.

(** [s[a:]]. *)
Definition str_from (s : string) (a : nat) : string :=
  substring a (String.length s - a) s.

Definition startswith (s p : string) : bool := prefix p s.

Definition endswith (s suf : string) : bool :=
  (String.length suf <=? String.length s)%nat
  && String.eqb (str_from s (String.length s - String.length suf)) suf.

(** [sep.join(l)]. *)
Fixpoint join (sep : string) (l : list string) : string :=
  match l with
  | [] => ""
  | [x] => x
  | x :: l' => x ++ sep ++ join sep l'
  end.

(** [s.replace(a, b)] for a single character [a]. *)
Fixpoint replace_char (a b : ascii) (s : string) : string :=
  match s with
  | EmptyString => EmptyString
  | String c s' =>
      String (if Ascii.eqb c a then b else c) (replace_char a b s')
  end.

Fixpoint contains_char (a : ascii) (s : string) : bool :=
  match s with
  | EmptyString => false
  | String c s' => Ascii.eqb c a || contains_char a s'
  end.

(** [sub in s] for strings. *)
Fixpoint contains (sub s : string) : bool :=
  prefix sub s
  || match s with
     | EmptyString => false
     | String _ s' => contains sub s'
     end.

(** [s.replace(old, new)] for a non-empty [old]; [skip] counts the
    characters of a replaced occurrence still to pass over. *)
Fixpoint replace_aux (old new s : string) (skip : nat) : string :=
  match s with
  | EmptyString => EmptyString
  | String c s' =>
      match skip with
      | S k => replace_aux old new s' k
      | O =>
          if prefix old s
          then new ++ replace_aux old new s' (String.length old - 1)
          else String c (replace_aux old new s' 0)
      end
  end.
Definition replace (old new s : string) : string := replace_aux old new s 0.

Definition lower_char (c : ascii) : ascii :=
  let n := nat_of_ascii c in
  if ((65 <=? n) && (n <=? 90))%nat then ascii_of_nat (n + 32) else c.

Fixpoint lower (s : string) : string :=
  match s with
  | EmptyString => EmptyString
  | String c s' => String (lower_char c) (lower s')
  end.

(** [s[s.rfind(c) + 1:]]: what follows the last [c], all of [s] when
    there is none. *)
Fixpoint after_last_aux (c : ascii) (s acc : string) : string :=
  match s with
  | EmptyString => acc
  | String x s' =>
      if Ascii.eqb x c then after_last_aux c s' ""
      else after_last_aux c s' (acc ++ String x "")
  end.
Definition after_last (c : ascii) (s : string) : string :=
  after_last_aux c s "".

(** [posixpath.basename]: what follows the last slash. *)
Definition basename (p : string) : string := after_last "/"%char p.

(** [posixpath.dirname]. *)
Fixpoint drop_to_slash (cs : list ascii) : list ascii :=
  match cs with
  | [] => []
  | c :: cs' => if Ascii.eqb c "/"%char then cs else drop_to_slash cs'
  end.

Fixpoint drop_slashes (cs : list ascii) : list ascii :=
  match cs with
  | [] => []
  | c :: cs' => if Ascii.eqb c "/"%char then drop_slashes cs' else cs
  end.

Definition dirname (p : string) : string :=
  let head := drop_to_slash (rev (list_ascii_of_string p)) in
  match drop_slashes head with
  | [] => string_of_list_ascii (rev head)
  | stripped => string_of_list_ascii (rev stripped)
  end.

(** [s.find(sub)]: the first position of [sub] in [s], or -1. *)
Fixpoint find_from (sub s : string) (pos : Z) : Z :=
  if prefix sub s then pos
  else match s with
       | EmptyString => -1
       | String _ s' => find_from sub s' (pos + 1)
       end.
Definition str_find (sub s : string) : Z := find_from sub s 0.

(** [s[a:b]] for bounds of either sign. *)
Definition str_sliceZ (s : string) (a b : Z) : string :=
  string_of_list_ascii (slice (list_ascii_of_string s) a b).

(** [s[:-1]]. *)
Fixpoint drop_last (s : string) : string :=
  match s with
  | EmptyString => EmptyString
  | String c EmptyString => EmptyString
  | String c s' => String c (drop_last s')
  end.

(** [posixpath.join] of two components. *)
Definition path_join (a b : string) : string :=
  if startswith b "/" then b
  else if String.eqb a "" || endswith a "/" then a ++ b
  else a ++ "/" ++ b.

(** Decimal digits. *)
Definition digit_val (c : ascii) : option Z :=
  let n := Z.of_nat (nat_of_ascii c) in
  if (48 <=? n) && (n <=? 57) then Some (n - 48) else None.

Definition is_space (c : ascii) : bool :=
  let n := nat_of_ascii c in
  ((9 <=? n) && (n <=? 13))%nat || (n =? 32)%nat
  || ((28 <=? n) && (n <=? 31))%nat.

Fixpoint lstrip (s : string) : string :=
  match s with
  | String c s' => if is_space c then lstrip s' else s
  | EmptyString => EmptyString
  end.

Fixpoint rev_string (s acc : string) : string :=
  match s with
  | EmptyString => acc
  | String c s' => rev_string s' (String c acc)
  end.

Definition rstrip (s : string) : string :=
  rev_string (lstrip (rev_string s "")) "".

Definition strip (s : string) : string := lstrip (rstrip s).

(** Digits of an integer literal, single underscores allowed between
    digits; [prev_digit] says whether the previous character was a digit. *)
Fixpoint int_digits (s : string) (acc : Z) (prev_digit : bool) : option Z :=
  match s with
  | EmptyString => if prev_digit then Some acc else None
  | String c s' =>
      match digit_val c with
      | Some d => int_digits s' (10 * acc + d) true
      | None =>
          if Ascii.eqb c "_"%char && prev_digit then
            match s' with
            | EmptyString => None
            | _ => int_digits s' acc false
            end
          else None
      end
  end.

(** [int(s)] for a string of ASCII characters, base ten: surrounding
    white space, an optional sign, digits.  Python also takes the decimal
    digits and the white space of other scripts: a statement that rests
    on [int] rejecting a value asks for the value to be ASCII. *)
Definition int (s : string) : result Z :=
  let body := strip s in
  let parsed :=
    match body with
    | String "-"%char r => option_map Z.opp (int_digits r 0 false)
    | String "+"%char r => int_digits r 0 false
    | _ => int_digits body 0 false
    end in
  match parsed with
  | Some z => Ok z
  | None => Raise (ValueError "invalid literal for int() with base 10")
  end.

End Py.

Import Py.

(** ** convertlibrarytotiles.py *)

Module Tiles.

(** The parsed command line, as far as the main loop reads it. *)
Record Args : Type := {
  pixelqadir : string;
  fmaskdir : string;
  srdir : string;
  btdir : string;
  ndvidir : string;
  evidir : string;
  outdir : option string;
  vrt : bool;
  skipqa : bool;
  overwrite : bool;
  noupdate : bool
}.

Definition dirs (a : Args) : list string :=
  [pixelqadir a; fmaskdir a; srdir a; btdir a; ndvidir a; evidir a].

Definition rastertypes : list string :=
  ["pixel_qa"; "Fmask"; "ref"; "BT"; "NDVI"; "EVI"].

(** One call [ieo.converttotiles(f, outdir, rastertype, pixelqa = ..,
    overwrite = .., noupdate = ..)]. *)
Record call : Type := {
  c_file : string;
  c_outdir : string;
  c_rastertype : string;
  c_pixelqa : bool;
  c_overwrite : bool;
  c_noupdate : bool
}.

Inductive outcome : Type :=
| Returns
| Raises (e : exn).

(** What the run has done so far: the conversions attempted, in order,
    the entries handed to [ieo.logerror], and the directories handed to
    [os.mkdir]. *)
Record state : Type := {
  calls : list call;
  errorlog : list (string * exn);
  made : list string
}.

Definition start : state := {| calls := []; errorlog := []; made := [] |}.

(** [if args.outdir:] is false for [None] and for the empty string. *)
Definition outdir_given (a : Args) : option string :=
  match outdir a with
  | Some "" => None
  | o => o
  end.

Definition qa_dirs (a : Args) : list string := [pixelqadir a; fmaskdir a].

Section Run.
(** The file system and the library, which the script only calls:
    [glob.glob], [ieo.converttotiles], [os.path.isdir], [os.mkdir] and
    [ieo.logerror].  A directory is listed once, when the loop reaches
    it.  What [os.path.isdir] answers and whether [os.mkdir] and
    [ieo.logerror] return or raise may depend on all that the run has
    done before.  What the script prints is left out. *)
Variable glob : string -> list string.
Variable converttotiles : call -> outcome.
Variable isdir : state -> string -> bool.
Variable mkdir : state -> string -> option exn.
Variable logerror : state -> string -> exn -> option exn.

(** [if not os.path.isdir(p): os.mkdir(p)]: nothing catches what
    [os.mkdir] raises. *)
Definition ensure_dir (p : string) (st : state) : state * option exn :=
  if isdir st p then (st, None)
  else ({| calls := calls st; errorlog := errorlog st;
           made := made st ++ [p] |}, mkdir st p).

(** [if args.outdir: if not os.path.isdir(p): os.mkdir(p)]. *)
Definition ensure_outdir (a : Args) (p : string) (st : state)
    : state * option exn :=
  match outdir_given a with
  | Some _ => ensure_dir p st
  | None => (st, None)
  end.

(** Directory that receives the tiles of input directory [d]. *)
Definition outdir_of (a : Args) (d : string) : string :=
  match outdir_given a with
  | Some o => path_join o (basename d)
  | None => d
  end.

(** The files listed for input directory [d]. *)
Definition flist_of (a : Args) (d : string) : list string :=
  if vrt a then
    let d' := if negb (endswith d "vrt") && negb (str_in d (qa_dirs a))
              then path_join d "vrt" else d in
    glob (path_join d' "L*.vrt")
  else glob (path_join d "L*.dat").

(** [for f in flist: ...].  In the handler, [ieo.logerror(f, e)] is
    called outside any [try]: what it raises ends the script. *)
Fixpoint convert_files (a : Args) (dn : nat) (out : string)
    (flist : list string) (st : state) : state * option exn :=
  match flist with
  | [] => (st, None)
  | f :: rest =>
      match nth_error rastertypes dn with
      | None => (st, Some IndexError)
      | Some rastertype =>
          let pixelqa := negb (dn <? 2)%nat in
          let c := {| c_file := f; c_outdir := out;
                      c_rastertype := rastertype; c_pixelqa := pixelqa;
                      c_overwrite := overwrite a;
                      c_noupdate := noupdate a |} in
          let st1 := {| calls := calls st ++ [c];
                        errorlog := errorlog st; made := made st |} in
          match converttotiles c with
          | Returns => convert_files a dn out rest st1
          | Raises e =>
              if is_Exception e then
                let st2 := {| calls := calls st1;
                              errorlog := errorlog st1 ++ [(f, e)];
                              made := made st1 |} in
                match logerror st1 f e with
                | None => convert_files a dn out rest st2
                | Some e' => (st2, Some e')
                end
              else (st1, Some e)
          end
      end
  end.

(** [for d in dirs: ...] over the directories still to visit. *)
Fixpoint visit (a : Args) (todo : list string) (st : state)
    : state * option exn :=
  match todo with
  | [] => (st, None)
  | d :: rest =>
      match index d (dirs a) with
      | Raise e => (st, Some e)
      | Ok dn =>
          if skipqa a && str_in d (qa_dirs a) then visit a rest st
          else
            match ensure_outdir a (outdir_of a d) st with
            | (st0, Some e) => (st0, Some e)
            | (st0, None) =>
                match convert_files a dn (outdir_of a d) (flist_of a d)
                        st0 with
                | (st', None) => visit a rest st'
                | (st', Some e) => (st', Some e)
                end
            end
      end
  end.

(** The script from [dirs = ...] on: the output directory is made
    first, when one is given and it is not there. *)
Definition main (a : Args) : state * option exn :=
  match outdir_given a with
  | Some o =>
      match ensure_dir o start with
      | (st, Some e) => (st, Some e)
      | (st, None) => visit a (dirs a) st
      end
  | None => visit a (dirs a) start
  end.
End Run.

End Tiles.

(** ** datetime, as far as the scripts use it

    Every [datetime] in the scripts comes from [strptime] with a date-only
    format or from adding whole days, so its time of day is midnight and the
    proleptic Gregorian ordinal of its date (1 for 0001-01-01) determines
    it.  Comparison of two such values is comparison of ordinals. *)

Module Datetime.

Definition is_leap (y : Z) : bool :=
  (y mod 4 =? 0) && (negb (y mod 100 =? 0) || (y mod 400 =? 0)).

Definition days_before_year (y : Z) : Z :=
  let y1 := y - 1 in
  y1 * 365 + y1 / 4 - y1 / 100 + y1 / 400.

Definition days_in_month (y m : Z) : Z :=
  if m =? 2 then (if is_leap y then 29 else 28)
  else if (m =? 4) || (m =? 6) || (m =? 9) || (m =? 11) then 30
  else 31.

Definition days_before_month (y m : Z) : Z :=
  nth (Z.to_nat m) [0; 0; 31; 59; 90; 120; 151; 181; 212; 243; 273; 304; 334] 0
  + (if (2 <? m) && is_leap y then 1 else 0).

Definition ymd2ord (y m d : Z) : Z :=
  days_before_year y + days_before_month y m + d.

(** [date(9999, 12, 31).toordinal()]. *)
Definition MAXORDINAL : Z := 3652059.

(** [datetime(y, m, d)], which checks its arguments. *)
Definition make (y m d : Z) : result Z :=
  if (1 <=? y) && (y <=? 9999) && (1 <=? m) && (m <=? 12)
     && (1 <=? d) && (d <=? days_in_month y m)
  then Ok (ymd2ord y m d)
  else Raise (ValueError "date value out of range").

(** [t + datetime.timedelta(days = n)]. *)
Definition add_days (t n : Z) : result Z :=
  let r := t + n in
  if (1 <=? r) && (r <=? MAXORDINAL) then Ok r else Raise OverflowError.

Definition digits2 (c1 c2 : ascii) : option Z :=
  match digit_val c1, digit_val c2 with
  | Some a, Some b => Some (10 * a + b)
  | _, _ => None
  end.

(** The directive [%Y]: exactly four digits. *)
Definition parse_Y (cs : list ascii) : option (Z * list ascii) :=
  match cs with
  | c1 :: c2 :: c3 :: c4 :: rest =>
      match digits2 c1 c2, digits2 c3 c4 with
      | Some hi, Some lo => Some (100 * hi + lo, rest)
      | _, _ => None
      end
  | _ => None
  end.

(** The directive [%m] followed by the literal [sep]:
    [1[0-2]|0[1-9]|[1-9]]. *)
Definition parse_m (sep : ascii) (cs : list ascii) : option (Z * list ascii) :=
  match cs with
  | c1 :: c2 :: rest =>
      if Ascii.eqb c2 sep then
        match digit_val c1 with
        | Some m => if 1 <=? m then Some (m, rest) else None
        | None => None
        end
      else
        match digits2 c1 c2, rest with
        | Some m, c3 :: rest' =>
            if Ascii.eqb c3 sep && (1 <=? m) && (m <=? 12)
            then Some (m, rest') else None
        | _, _ => None
        end
  | _ => None
  end.

(** The directive [%d] at the end of the input:
    [3[0-1]|[1-2]\d|0[1-9]|[1-9]| [1-9]]. *)
Definition parse_d (cs : list ascii) : option Z :=
  match cs with
  | [c] =>
      match digit_val c with
      | Some d => if 1 <=? d then Some d else None
      | None => None
      end
  | [c1; c2] =>
      if Ascii.eqb c1 " "%char then
        match digit_val c2 with
        | Some d => if 1 <=? d then Some d else None
        | None => None
        end
      else
        match digits2 c1 c2 with
        | Some d => if (1 <=? d) && (d <=? 31) then Some d else None
        | None => None
        end
  | _ => None
  end.

(** The directive [%j] at the end of the input: one to three digits
    naming a day of the year between 1 and 366. *)
Definition parse_j (cs : list ascii) : option Z :=
  let v :=
    match cs with
    | [c] => digit_val c
    | [c1; c2] => digits2 c1 c2
    | [c1; c2; c3] =>
        match digit_val c1, digits2 c2 c3 with
        | Some a, Some b => Some (100 * a + b)
        | _, _ => None
        end
    | _ => None
    end in
  match v with
  | Some j => if (1 <=? j) && (j <=? 366) then Some j else None
  | None => None
  end.

Definition bad_format : exn :=
  ValueError "time data does not match format".

(** [datetime.strptime(s, '%Y<sep>%m<sep>%d')] on ASCII input. *)
Definition strptime_ymd (sep : ascii) (s : string) : result Z :=
  match parse_Y (list_ascii_of_string s) with
  | Some (y, String_rest) =>
      match String_rest with
      | c :: rest =>
          if Ascii.eqb c sep then
            match parse_m sep rest with
            | Some (m, rest') =>
                match parse_d rest' with
                | Some d => make y m d
                | None => Raise bad_format
                end
            | None => Raise bad_format
            end
          else Raise bad_format
      | [] => Raise bad_format
      end
  | None => Raise bad_format
  end.

(** [datetime.strptime(s, '%Y%j')] on ASCII input: day [j] of year [y],
    counted on from the first of January. *)
Definition strptime_Yj (s : string) : result Z :=
  match parse_Y (list_ascii_of_string s) with
  | Some (y, rest) =>
      match parse_j rest with
      | Some j =>
          bind (make y 1 1) (fun jan1 =>
            if jan1 + (j - 1) <=? MAXORDINAL then Ok (jan1 + (j - 1))
            else Raise (ValueError "ordinal out of range"))
      | None => Raise bad_format
      end
  | None => Raise bad_format
  end.

End Datetime.

Import Datetime.

(** ** updatelandsat.py: data *)

Module Landsat.

(** An insertion-ordered dictionary with string keys, as Python's [dict]:
    assigning to a present key keeps its place, a new key goes last. *)
Definition dict (V : Type) : Type := list (string * V).

Fixpoint dict_get {V} (k : string) (d : dict V) : option V :=
  match d with
  | [] => None
  | (k', v) :: d' => if String.eqb k' k then Some v else dict_get k d'
  end.

Definition dict_has {V} (k : string) (d : dict V) : bool :=
  match dict_get k d with
  | Some _ => true
  | None => false
  end.

Fixpoint dict_set {V} (k : string) (v : V) (d : dict V) : dict V :=
  match d with
  | [] => [(k, v)]
  | (k', v') :: d' =>
      if String.eqb k' k then (k, v) :: d' else (k', v') :: dict_set k v d'
  end.

Definition keys {V} (d : dict V) : list string := map fst d.

(** A coordinate pair [[longitude, latitude]] of a footprint.  The script
    only compares coordinates with [==] and hands them to OGR, so exact
    numbers stand for the JSON numbers. *)
Definition point : Type := (Z * Z)%type.

Definition point_eqb (p q : point) : bool :=
  (fst p =? fst q) && (snd p =? snd q).

(** The values a scene's dictionary holds. *)
Inductive value : Type :=
| VBool (b : bool)
| VStr (s : string)
| VInt (z : Z)
| VReal (literal : string)        (* [float(literal)] *)
| VDate (ordinal : Z)             (* a [datetime] at midnight *)
| VTime (literal : string)        (* a parsed scene start or stop time *)
| VCoords (ring : list point).

Inductive ogr_type : Type := OFTString | OFTInteger | OFTReal | OFTDate.

Definition ogr_type_eqb (a b : ogr_type) : bool :=
  match a, b with
  | OFTString, OFTString | OFTInteger, OFTInteger
  | OFTReal, OFTReal | OFTDate, OFTDate => true
  | _, _ => false
  end.

(** A row of [fieldvaluelist]: shapefile field, geopackage field, name of
    the field in the USGS metadata, OGR type, width. *)
Record fieldrow : Type := fv {
  shpname : string;
  gpkgname : string;
  queryname : string;
  ftype : ogr_type;
  fwidth : Z
}.

Definition fieldvaluelist : list fieldrow :=
  [
    fv "LandsatPID" "LANDSAT_PRODUCT_ID" "Landsat Product Identifier" OFTString 40;
    fv "sceneID" "sceneID" "Landsat Scene Identifier" OFTString 21;
    fv "SensorID" "SensorID" "Sensor Identifier" OFTString 0;
    fv "SatNumber" "satelliteNumber" "Spacecraft Identifier" OFTString 0;
    fv "acqDate" "acquisitionDate" "Acquisition Date" OFTDate 0;
    fv "Updated" "dateUpdated" "modifiedDate" OFTDate 0;
    fv "path" "path" "WRS Path" OFTInteger 0;
    fv "row" "row" "WRS Row" OFTInteger 0;
    fv "CenterLat" "sceneCenterLatitude" "Center Latitude dec" OFTReal 0;
    fv "CenterLong" "sceneCenterLongitude" "Center Longitude dec" OFTReal 0;
    fv "CC" "cloudCover" "Cloud Cover Truncated" OFTInteger 0;
    fv "CCFull" "cloudCoverFull" "Scene Cloud Cover" OFTReal 0;
    fv "CCLand" "CLOUD_COVER_LAND" "Land Cloud Cover" OFTReal 0;
    fv "UL_Q_CCA" "FULL_UL_QUAD_CCA" "Cloud Cover Quadrant Upper Left" OFTReal 0;
    fv "UR_Q_CCA" "FULL_UR_QUAD_CCA" "Cloud Cover Quadrant Upper Right" OFTReal 0;
    fv "LL_Q_CCA" "FULL_LL_QUAD_CCA" "Cloud Cover Quadrant Lower Left" OFTReal 0;
    fv "LR_Q_CCA" "FULL_LR_QUAD_CCA" "Cloud Cover Quadrant Lower Right" OFTReal 0;
    fv "DT_L1" "DATA_TYPE_L1" "Data Type Level-1" OFTString 0;
    fv "DT_L0RP" "DATA_TYPE_L0RP" "Data Type Level 0Rp" OFTString 0;
    fv "L1_AVAIL" "L1_AVAILABLE" "L1 Available" OFTString 0;
    fv "IMAGE_QUAL" "IMAGE_QUALITY" "Image Quality" OFTString 0;
    fv "dayOrNight" "dayOrNight" "Day/Night Indicator" OFTString 0;
    fv "sunEl" "sunElevation" "Sun Elevation L1" OFTReal 0;
    fv "sunAz" "sunAzimuth" "Sun Azimuth L1" OFTReal 0;
    fv "StartTime" "sceneStartTime" "Start Time" OFTDate 0;
    fv "StopTime" "sceneStopTime" "Stop Time" OFTDate 0;
    fv "UTM_ZONE" "UTM_ZONE" "UTM Zone" OFTInteger 0;
    fv "DATUM" "DATUM" "Datum" OFTString 0;
    fv "ELEVSOURCE" "ELEVATION_SOURCE" "Elevation Source" OFTString 0;
    fv "ELLIPSOID" "ELLIPSOID" "Ellipsoid" OFTString 0;
    fv "PROJ_L1" "MAP_PROJECTION_L1" "Map Projection Level-1" OFTString 0;
    fv "PROJ_L0RA" "MAP_PROJECTION_L0RA" "Map Projection L0Ra" OFTString 0;
    fv "ORIENT" "ORIENTATION" "Orientation" OFTString 0;
    fv "EPHEM_TYPE" "EPHEMERIS_TYPE" "Ephemeris Type" OFTString 0;
    fv "CPS_MODEL" "GROUND_CONTROL_POINTS_MODEL" "Ground Control Points Model" OFTInteger 0;
    fv "GCPSVERIFY" "GROUND_CONTROL_POINTS_VERIFY" "Ground Control Points Version" OFTInteger 0;
    fv "RMSE_MODEL" "GEOMETRIC_RMSE_MODEL" "Geometric RMSE Model (meters)" OFTReal 0;
    fv "RMSE_X" "GEOMETRIC_RMSE_MODEL_X" "Geometric RMSE Model X" OFTReal 0;
    fv "RMSE_Y" "GEOMETRIC_RMSE_MODEL_Y" "Geometric RMSE Model Y" OFTReal 0;
    fv "RMSEVERIFY" "GEOMETRIC_RMSE_VERIFY" "Geometric RMSE Verify" OFTReal 0;
    fv "FORMAT" "OUTPUT_FORMAT" "Output Format" OFTString 0;
    fv "RESAMP_OPT" "RESAMPLING_OPTION" "Resampling Option" OFTString 0;
    fv "LINES" "REFLECTIVE_LINES" "Reflective Lines" OFTInteger 0;
    fv "SAMPLES" "REFLECTIVE_SAMPLES" "Reflective Samples" OFTInteger 0;
    fv "TH_LINES" "THERMAL_LINES" "Thermal Lines" OFTInteger 0;
    fv "TH_SAMPLES" "THERMAL_SAMPLES" "Thermal Samples" OFTInteger 0;
    fv "PAN_LINES" "PANCHROMATIC_LINES" "Panchromatic Lines" OFTInteger 0;
    fv "PANSAMPLES" "PANCHROMATIC_SAMPLES" "Panchromatic Samples" OFTInteger 0;
    fv "GC_SIZE_R" "GRID_CELL_SIZE_REFLECTIVE" "Grid Cell Size Reflective" OFTInteger 0;
    fv "GC_SIZE_TH" "GRID_CELL_SIZE_THERMAL" "Grid Cell Size Thermal" OFTInteger 0;
    fv "GCSIZE_PAN" "GRID_CELL_SIZE_PANCHROMATIC" "Grid Cell Size Panchromatic" OFTInteger 0;
    fv "PROCSOFTVE" "PROCESSING_SOFTWARE_VERSION" "Processing Software Version" OFTString 0;
    fv "CPF_NAME" "CPF_NAME" "Calibration Parameter File" OFTString 0;
    fv "DATEL1_GEN" "DATE_L1_GENERATED" "Date L-1 Generated" OFTString 0;
    fv "GCP_Ver" "GROUND_CONTROL_POINTS_VERSION" "Ground Control Points Version" OFTInteger 0;
    fv "DatasetID" "DatasetID" "Dataset Identifier" OFTString 0;
    fv "CollectCat" "COLLECTION_CATEGORY" "Collection Category" OFTString 0;
    fv "CollectNum" "COLLECTION_NUMBER" "Collection Number" OFTString 0;
    fv "flightPath" "flightPath" "flightPath" OFTString 0;
    fv "RecStation" "receivingStation" "Station Identifier" OFTString 0;
    fv "imageQual1" "imageQuality1" "Image Quality 1" OFTString 0;
    fv "imageQual2" "imageQuality2" "Image Quality 2" OFTString 0;
    fv "gainBand1" "gainBand1" "Gain Band 1" OFTString 0;
    fv "gainBand2" "gainBand2" "Gain Band 2" OFTString 0;
    fv "gainBand3" "gainBand3" "Gain Band 3" OFTString 0;
    fv "gainBand4" "gainBand4" "Gain Band 4" OFTString 0;
    fv "gainBand5" "gainBand5" "Gain Band 5" OFTString 0;
    fv "gainBand6H" "gainBand6H" "Gain Band 6H" OFTString 0;
    fv "gainBand6L" "gainBand6L" "Gain Band 6L" OFTString 0;
    fv "gainBand7" "gainBand7" "Gain Band 7" OFTString 0;
    fv "gainBand8" "gainBand8" "Gain Band 8" OFTString 0;
    fv "GainChange" "GainChange" "Gain Change" OFTString 0;
    fv "GCBand1" "gainChangeBand1" "Gain Change Band 1" OFTString 0;
    fv "GCBand2" "gainChangeBand2" "Gain Change Band 2" OFTString 0;
    fv "GCBand3" "gainChangeBand3" "Gain Change Band 3" OFTString 0;
    fv "GCBand4" "gainChangeBand4" "Gain Change Band 4" OFTString 0;
    fv "GCBand5" "gainChangeBand5" "Gain Change Band 5" OFTString 0;
    fv "GCBand6H" "gainChangeBand6H" "Gain Change Band 6H" OFTString 0;
    fv "GCBand6L" "gainChangeBand6L" "Gain Change Band 6L" OFTString 0;
    fv "GCBand7" "gainChangeBand7" "Gain Change Band 7" OFTString 0;
    fv "GCBand8" "gainChangeBand8" "Gain Change Band 8" OFTString 0;
    fv "SCAN_GAP_I" "SCAN_GAP_INTERPOLATION" "Scan Gap Interpolation" OFTInteger 0;
    fv "ROLL_ANGLE" "ROLL_ANGLE" "Roll Angle" OFTReal 0;
    fv "FULL_PART" "FULL_PARTIAL_SCENE" "Full Partial Scene" OFTString 0;
    fv "NADIR_OFFN" "NADIR_OFFNADIR" "Nadir/Off Nadir" OFTString 0;
    fv "RLUT_FNAME" "RLUT_FILE_NAME" "RLUT File Name" OFTString 0;
    fv "BPF_N_OLI" "BPF_NAME_OLI" "Bias Parameter File Name OLI" OFTString 0;
    fv "BPF_N_TIRS" "BPF_NAME_TIRS" "Bias Parameter File Name TIRS" OFTString 0;
    fv "TIRS_SSM" "TIRS_SSM_MODEL" "TIRS SSM Model" OFTString 0;
    fv "TargetPath" "Target_WRS_Path" "Target WRS Path" OFTInteger 0;
    fv "TargetRow" "Target_WRS_Row" "Target WRS Row" OFTInteger 0;
    fv "DataAnom" "data_anomaly" "Data Anomaly" OFTString 0;
    fv "GapPSource" "gap_phase_source" "Gap Phase Source" OFTString 0;
    fv "GapPStat" "gap_phase_statistic" "Gap Phase Statistic" OFTReal 0;
    fv "L7SLConoff" "scan_line_corrector" "Scan Line Corrector" OFTString 0;
    fv "SensorAnom" "sensor_anomalies" "Sensor Anomalies" OFTString 0;
    fv "SensorMode" "sensor_mode" "Sensor Mode" OFTString 0;
    fv "browse" "browseAvailable" "Browse Available" OFTString 0;
    fv "browseURL" "browseURL" "browseUrl" OFTString 0;
    fv "MetadatUrl" "metadataUrl" "metadataUrl" OFTString 0;
    fv "FGDCMetdat" "fgdcMetadataUrl" "fgdcMetadataUrl" OFTString 0;
    fv "dataAccess" "dataAccess" "dataAccessUrl" OFTString 0;
    fv "orderUrl" "orderUrl" "orderUrl" OFTString 0;
    fv "DownldUrl" "downloadUrl" "downloadUrl" OFTString 0
  ].

Definition queryfieldnames : list string := map queryname fieldvaluelist.
Definition fnames : list string := map gpkgname fieldvaluelist.

(** *** The USGS inventory, as the script sees it *)

(** One element of [json_data['data']['results']]. *)
Record SearchResult : Type := {
  entityId : string;
  displayId : string;
  browseUrl : string;
  dataAccessUrl : string;
  downloadUrl : string;
  metadataUrl : string;
  fgdcMetadataUrl : string;
  modifiedDate : string;
  orderUrl : string
}.

(** One element of [querydict['data']]: the metadata fields as
    (fieldName, value) pairs, the first ring of the spatial footprint,
    the modification date. *)
Record MetadataItem : Type := {
  metadataFields : list (string * string);
  spatialFootprint : list point;
  item_modifiedDate : string
}.

(** The requests [scenesearch] posts.  A search carries its window as the
    two dates, which go on the wire through [strftime('%Y-%m-%d')]; a
    metadata request carries the scene identifiers that the script joins
    with commas. *)
Inductive request : Type :=
| SearchRequest (datasetName : string) (startDate endDate : Z)
| MetadataRequest (datasetName : string) (entityIds : list string).

Definition datasetNames : dict string :=
  [("LANDSAT_8_C1", "2013-02-11");
   ("LANDSAT_ETM_C1", "1999-04-15");
   ("LANDSAT_TM_C1", "1982-07-16")].

(** The module-level names [scenesearch] reads. *)
Record Globals : Type := {
  args_startdate : string;
  args_enddate : string;
  pathrowstrs : list string
}.

(** What [scenesearch] has built and posted so far, with the binding of
    its local variable [sceneID]. *)
Record sstate : Type := {
  scenedict : dict (dict value);
  sceneID_var : option string;
  trace : list request
}.

(** State and exceptions together: the state survives a raise, so that
    the requests posted before it stay on record. *)
Definition M (A : Type) : Type := sstate -> sstate * result A.

Definition ret {A} (a : A) : M A := fun s => (s, Ok a).
Definition raise {A} (e : exn) : M A := fun s => (s, Raise e).
Definition lift {A} (r : result A) : M A := fun s => (s, r).
Definition bindM {A B} (m : M A) (k : A -> M B) : M B :=
  fun s => match m s with
           | (s', Ok a) => k a s'
           | (s', Raise e) => (s', Raise e)
           end.

Notation "x <- m ;; k" := (bindM m (fun x => k))
  (at level 61, m at next level, right associativity).

Definition emit (r : request) : M unit :=
  fun s => ({| scenedict := scenedict s; sceneID_var := sceneID_var s;
               trace := trace s ++ [r] |}, Ok tt).

(** [sceneID = sid]. *)
Definition bind_sceneID (sid : string) : M unit :=
  fun s => ({| scenedict := scenedict s; sceneID_var := Some sid;
               trace := trace s |}, Ok tt).

(** Reading the local [sceneID]. *)
Definition read_sceneID : M string :=
  fun s => match sceneID_var s with
           | Some sid => (s, Ok sid)
           | None => (s, Raise (UnboundLocalError "sceneID"))
           end.

(** [scenedict[sid]]. *)
Definition entry_of (sid : string) : M (dict value) :=
  fun s => match dict_get sid (scenedict s) with
           | Some e => (s, Ok e)
           | None => (s, Raise (KeyError sid))
           end.

(** [scenedict[sid] = e]. *)
Definition set_entry (sid : string) (e : dict value) : M unit :=
  fun s => ({| scenedict := dict_set sid e (scenedict s);
               sceneID_var := sceneID_var s; trace := trace s |}, Ok tt).

(** [scenedict[sid][k] = v]. *)
Definition set_field (sid k : string) (v : value) : M unit :=
  e <- entry_of sid ;; set_entry sid (dict_set k v e).

Fixpoint for_each {A} (l : list A) (body : A -> M unit) : M unit :=
  match l with
  | [] => ret tt
  | x :: l' => _ <- body x ;; for_each l' body
  end.

(** *** The search windows of one collection *)

(** [startdate] as the loop over the collections picks it. *)
Definition choose_startdate (g : Globals) (lastmodifiedDate : option string)
    (updatemissing badgeom : list string) : string :=
  match lastmodifiedDate with
  | Some d =>
      if negb (String.eqb d "")
         && negb ((0 <? List.length updatemissing)%nat
                  || (0 <? List.length badgeom)%nat)
      then d else args_startdate g
  | None => args_startdate g
  end.

(** The first [datetuple] and the [enddatetuple] of a collection. *)
Definition window_bounds (g : Globals) (datasetName launch : string)
    (lastmodifiedDate : option string) (updatemissing badgeom : list string)
    : result (Z * Z) :=
  let startdate := choose_startdate g lastmodifiedDate updatemissing badgeom in
  let startdate := if contains_char "/"%char startdate
                   then replace_char "/"%char "-"%char startdate
                   else startdate in
  bind (strptime_ymd "-"%char startdate) (fun datetuple =>
  bind (strptime_ymd "-"%char launch) (fun sensorstarttuple =>
  let datetuple := if datetuple <? sensorstarttuple
                   then sensorstarttuple else datetuple in
  bind (strptime_ymd "-"%char (args_enddate g)) (fun enddatetuple =>
  if String.eqb datasetName "LANDSAT_TM_C1" then
    bind (strptime_ymd "-"%char "2013-06-05") (fun l5enddatetuple =>
      Ok (datetuple,
          if l5enddatetuple <? enddatetuple
          then l5enddatetuple else enddatetuple))
  else Ok (datetuple, enddatetuple)))).

Definition inspect {A} (a : A) : {b : A | a = b} := exist _ a eq_refl.

(** [while datetuple < enddatetuple: ...]: the windows
    [(datetuple, edatetuple)] in the order they are searched, and the
    exception that ends the loop when a date leaves the calendar. *)
Equations? windows (datetuple enddatetuple : Z) : list (Z * Z) * option exn
    by wf (Z.to_nat (enddatetuple - datetuple)) lt :=
  windows datetuple enddatetuple with inspect (datetuple <? enddatetuple) := {
    | exist _ false _ => ([], None)
    | exist _ true Hlt with inspect (add_days datetuple 365) := {
        | exist _ (Raise e) _ => ([], Some e)
        | exist _ (Ok e0) H365
            with inspect (add_days (if e0 >? enddatetuple
                                    then enddatetuple else e0) 1) := {
            | exist _ (Raise e) _ =>
                ([(datetuple,
                   if e0 >? enddatetuple then enddatetuple else e0)],
                 Some e)
            | exist _ (Ok next) Hnext =>
                let rest := windows next enddatetuple in
                ((datetuple,
                  if e0 >? enddatetuple then enddatetuple else e0)
                   :: fst rest,
                 snd rest) } } }.
Proof.
  unfold add_days in *.
  destruct ((1 <=? datetuple + 365) && (datetuple + 365 <=? MAXORDINAL));
    [|discriminate].
  injection H365 as <-.
  destruct ((1 <=? _ + 1) && (_ <=? MAXORDINAL)) in Hnext; [|discriminate].
  injection Hnext as <-.
  apply Z.ltb_lt in Hlt.
  destruct (datetuple + 365 >? enddatetuple) eqn:E; lia.
Qed.

(** *** Choosing the scenes to query and cutting the list into blocks *)

(** The test that puts a found scene on [querylist]. *)
Definition wanted (g : Globals) (scenelist updatemissing badgeom : list string)
    (sceneID : string) : bool :=
  str_in (str_slice sceneID 3 9) (pathrowstrs g)
  && (negb (str_in sceneID scenelist)
      || str_in sceneID updatemissing
      || str_in sceneID badgeom).

(** The dictionary a selected scene starts with. *)
Definition first_entry (datasetName : string) (r : SearchResult)
    : result (dict value) :=
  bind (strptime_ymd "-"%char (modifiedDate r)) (fun md =>
    Ok [("Landsat Product Identifier", VStr (displayId r));
        ("browseUrl", VStr (browseUrl r));
        ("dataAccessUrl", VStr (dataAccessUrl r));
        ("downloadUrl", VStr (downloadUrl r));
        ("metadataUrl", VStr (metadataUrl r));
        ("fgdcMetadataUrl", VStr (fgdcMetadataUrl r));
        ("modifiedDate", VDate md);
        ("orderUrl", VStr (orderUrl r));
        ("Dataset Identifier", VStr datasetName);
        ("updatemodifiedDate", VBool false);
        ("updategeom", VBool false)]).

(** [for i in range(len(json_data['data']['results'])): ...] *)
Fixpoint scan_results (g : Globals)
    (scenelist updatemissing badgeom : list string) (datasetName : string)
    (results : list SearchResult) (querylist : list string)
    : M (list string) :=
  match results with
  | [] => ret querylist
  | r :: rest =>
      _ <- bind_sceneID (entityId r) ;;
      if wanted g scenelist updatemissing badgeom (entityId r) then
        e <- lift (first_entry datasetName r) ;;
        _ <- set_entry (entityId r) e ;;
        scan_results g scenelist updatemissing badgeom datasetName rest
          (querylist ++ [entityId r])
      else
        scan_results g scenelist updatemissing badgeom datasetName rest
          querylist
  end.

(** [math.ceil(len(querylist) / 100)], for a length that a float holds
    exactly. *)
Definition iterations (n : nat) : nat :=
  Z.to_nat ((Z.of_nat n + 99) / 100).

(** [startval] and [endval] of one iteration over a list of [n] scenes. *)
Definition block_bounds (n iteration : Z) : Z * Z :=
  let startval := iteration * 100 in
  let endval := if iteration * 100 >? n
                then n - startval - 1 else startval + 99 in
  (startval, endval).

(** [querylist[startval: endval]] for one iteration. *)
Definition block (querylist : list string) (iteration : nat) : list string :=
  let bounds := block_bounds (Z.of_nat (List.length querylist))
                  (Z.of_nat iteration) in
  slice querylist (fst bounds) (snd bounds).

(** The scene lists of the successive metadata requests. *)
Definition metadata_blocks (querylist : list string) : list (list string) :=
  map (block querylist) (range (iterations (List.length querylist))).

(** [querystr], the value of ['entityIds'] in the request. *)
Definition querystr (b : list string) : string := join "," b.

Section Search.
(** The inventory's answers to a search and to a metadata request, and
    the two parsers whose results the model carries as literals:
    [float] and [strptime] with the time-of-day format. *)
Variable usgs_search : string -> Z -> Z -> result (list SearchResult).
Variable usgs_metadata : string -> list string -> result (list MetadataItem).
Variable float_parses : string -> bool.
Variable time_parses : string -> bool.

Variable g : Globals.
Variables scenelist updatemissing badgeom : list string.
Variable lastmodifiedDate : option string.

(** The conversion of a metadata value according to its field. *)
Definition convert (sid fieldname val : string) (t : ogr_type) : M value :=
  if ogr_type_eqb t OFTDate || endswith fieldname "Date" then
    if contains "Time" fieldname then
      if time_parses (drop_last val) then ret (VTime (drop_last val))
      else raise bad_format
    else if contains_char "/"%char val then
      d <- lift (strptime_ymd "/"%char val) ;; ret (VDate d)
    else
      d <- lift (strptime_ymd "-"%char val) ;; ret (VDate d)
  else if ogr_type_eqb t OFTReal then
    if float_parses val then ret (VReal val)
    else raise (ValueError "could not convert string to float")
  else if ogr_type_eqb t OFTInteger then
    match int val with
    | Ok z => ret (VInt z)
    | Raise _ => raise SystemExit          (* [sys.exit()] *)
    end
  else if String.eqb fieldname "browseUrl" then
    _ <- set_field sid "browse"
           (VStr (if negb (String.eqb (lower val) "null")
                  then "Y" else "N")) ;;
    ret (VStr val)
  else if String.eqb fieldname "Data Type Level-1" then
    ret (VStr (after_last "_"%char val))
  else ret (VStr val).

(** The body of [for subitem in item['metadataFields']: ...] that
    fills the scene's dictionary. *)
Definition record_field (sid : string) (subitem : string * string) : M unit :=
  let fieldname := replace "L-1" "L1" (lstrip (rstrip (fst subitem))) in
  if str_in fieldname queryfieldnames then
    e <- entry_of sid ;;
    if negb (dict_has fieldname e)
       && negb (String.eqb fieldname "Landsat Scene Identifier")
    then
      let val := snd subitem in
      if String.eqb val "" then ret tt
      else
        i <- lift (index fieldname queryfieldnames) ;;
        match nth_error fieldvaluelist i with
        | None => raise IndexError
        | Some row =>
            v <- convert sid fieldname val (ftype row) ;;
            set_field sid fieldname v
        end
    else ret tt
  else ret tt.

(** The scene an item is about: the second field when that is the scene
    identifier, else the first field of that name; when there is none,
    [sceneID] keeps its binding. *)
Definition find_sceneID (fields : list (string * string)) : M unit :=
  match nth_error fields 1 with
  | None => raise IndexError
  | Some second =>
      if String.eqb (fst second) "Landsat Scene Identifier"
      then bind_sceneID (snd second)
      else
        match find (fun f => String.eqb (fst f) "Landsat Scene Identifier")
                   fields with
        | Some f => bind_sceneID (snd f)
        | None => ret tt
        end
  end.

(** The end of the handling of an item: the two update flags of its
    scene, its footprint and its modification date. *)
Definition flag_item (sid : string) (item : MetadataItem) : M unit :=
  _ <- set_field sid "updatemodifiedDate"
         (VBool (str_in sid badgeom || str_in sid updatemissing)) ;;
  _ <- set_field sid "updategeom" (VBool (str_in sid badgeom)) ;;
  _ <- set_field sid "coords" (VCoords (spatialFootprint item)) ;;
  set_field sid "modifiedDate" (VStr (item_modifiedDate item)).

(** [for item in querydict['data']: ...] *)
Definition record_item (item : MetadataItem) : M unit :=
  match metadataFields item with
  | [] => ret tt
  | fields =>
      _ <- find_sceneID fields ;;
      sid <- read_sceneID ;;
      _ <- for_each fields (record_field sid) ;;
      flag_item sid item
  end.

(** One metadata request and the handling of its answer. *)
Definition query_block (datasetName : string) (b : list string) : M unit :=
  _ <- for_each b bind_sceneID ;;
  _ <- emit (MetadataRequest datasetName b) ;;
  items <- lift (usgs_metadata datasetName b) ;;
  match items with
  | [] => ret tt
  | _ =>
      _ <- for_each items record_item ;;
      sid <- read_sceneID ;;
      e <- entry_of sid ;;
      if negb (dict_has "Spacecraft Identifier" e) then
        set_field sid "Spacecraft Identifier"
          (VStr ("LANDSAT_" ++ str_slice sid 2 3))
      else ret tt
  end.

(** One pass of the [while] loop: a search and the metadata requests
    that follow from it. *)
Definition query_window (datasetName : string) (w : Z * Z) : M unit :=
  _ <- emit (SearchRequest datasetName (fst w) (snd w)) ;;
  results <- lift (usgs_search datasetName (fst w) (snd w)) ;;
  querylist <- scan_results g scenelist updatemissing badgeom datasetName
                 results [] ;;
  for_each (metadata_blocks querylist) (query_block datasetName).

(** The body of [for datasetName in datasetNames.keys(): ...] *)
Definition search_dataset (ds : string * string) : M unit :=
  b <- lift (window_bounds g (fst ds) (snd ds) lastmodifiedDate
               updatemissing badgeom) ;;
  _ <- for_each (fst (windows (fst b) (snd b))) (query_window (fst ds)) ;;
  match snd (windows (fst b) (snd b)) with
  | Some e => raise e
  | None => ret tt
  end.

Definition scenesearch_start : sstate :=
  {| scenedict := []; sceneID_var := None; trace := [] |}.

(** [scenesearch]: the state it ends in, with every request it posted,
    and the dictionary it returns or the exception it raises. *)
Definition scenesearch : sstate * result (dict (dict value)) :=
  (_ <- for_each datasetNames search_dataset ;;
   fun s => (s, Ok (scenedict s))) scenesearch_start.
End Search.

(** *** Downloads: [dlxmls] and [dlthumb] *)

(** What one download attempt meets: the file arrives whole, arrives with
    a size that differs from the announced one, the attempt raises
    [URLError], or it raises something else. *)
Inductive fetch : Type :=
| Complete
| Truncated
| Refused (reason : string)
| Broken (e : exn).

(** The attempts made, the calls of [ieo.logerror] as (item, message), and
    the global [errorsfound]. *)
Record dstate : Type := {
  attempts : list string;
  errors : list (string * string);
  errorsfound : bool
}.

Definition attempt (url : string) (s : dstate) : dstate :=
  {| attempts := attempts s ++ [url]; errors := errors s;
     errorsfound := errorsfound s |}.

(** [ieo.logerror(item, message, errorfile = errorfile)] followed by
    [errorsfound = True]. *)
Definition logerror (item message : string) (s : dstate) : dstate :=
  {| attempts := attempts s; errors := errors s ++ [(item, message)];
     errorsfound := true |}.

(** How a function with a retry loop ends: it returns, it raises, or it
    has used up [fuel] passes of the loop and the loop condition still
    holds. *)
Inductive ending (A : Type) : Type :=
| Returned (a : A) (s : dstate)
| Raised (e : exn) (s : dstate)
| StillLooping (tries : Z) (s : dstate).
Arguments Returned {A} a s.
Arguments Raised {A} e s.
Arguments StillLooping {A} tries s.

Section Download.
(** The network: what the attempt on [url] meets, given how many
    attempts were made before it. *)
Variable net : nat -> string -> fetch.

(** [while not downloaded and tries < 6: ...] of [dlthumb]. *)
Fixpoint dlthumb_loop (fuel : nat) (dlurl : option string) (tries : Z)
    (downloaded : bool) (s : dstate) : ending (Z * bool) :=
  if negb downloaded && (tries <? 6) then
    match fuel with
    | O => StillLooping tries s
    | S fuel' =>
        match dlurl with
        | None => Raised (NameError "dlurl") s
        | Some u =>
            match net (List.length (attempts s)) u with
            | Complete => dlthumb_loop fuel' dlurl tries true (attempt u s)
            | Truncated =>
                dlthumb_loop fuel' dlurl (tries + 1) downloaded (attempt u s)
            | Refused reason =>
                dlthumb_loop fuel' dlurl tries downloaded
                  (logerror u reason (attempt u s))
            | Broken e => Raised e (attempt u s)
            end
        end
    end
  else Returned (tries, downloaded) s.

(** [dlthumb(url, jpgdir)]; [dlurl] is the module-level name the body
    reads.  The value returned is ['Success!'] or [None]. *)
Definition dlthumb (fuel : nat) (dlurl : option string) (url jpgdir : string)
    (s : dstate) : ending (option string) :=
  let f := path_join jpgdir (basename url) in
  match dlthumb_loop fuel dlurl 1 false s with
  | Returned (tries, _) s' =>
      if tries =? 6 then Returned None (logerror f "Download error." s')
      else Returned (Some "Success!") s'
  | Raised e s' => Raised e s'
  | StillLooping tries s' => StillLooping tries s'
  end.

(** [while not downloaded and tries < 6: ...] of [dlxmls]. *)
Fixpoint dlxmls_loop (fuel : nat) (urlname : string) (tries : Z)
    (downloaded : bool) (s : dstate) : ending (Z * bool) :=
  if negb downloaded && (tries <? 6) then
    match fuel with
    | O => StillLooping tries s
    | S fuel' =>
        match net (List.length (attempts s)) urlname with
        | Complete | Truncated =>
            dlxmls_loop fuel' urlname tries true (attempt urlname s)
        | Refused reason =>
            dlxmls_loop fuel' urlname (tries + 1) downloaded
              (logerror urlname reason (attempt urlname s))
        | Broken e => Raised e (attempt urlname s)
        end
    end
  else Returned (tries, downloaded) s.

(** The address [dlxmls] builds for one path/row rectangle [p]. *)
Definition xml_url (p : list string) (startdate enddate : string)
    : result string :=
  match p with
  | p0 :: p1 :: p2 :: p3 :: _ =>
      Ok ("http://earthexplorer.usgs.gov/EE/InventoryStream/pathrow?start_path="
          ++ p0 ++ "&end_path=" ++ p1 ++ "&start_row=" ++ p2
          ++ "&end_row=" ++ p3
          ++ "&sensor_name=LANDSAT_COMBINED_C1&start_date=" ++ startdate
          ++ "&end_date=" ++ enddate)
  | _ => Raise IndexError
  end.

(** [os.access(xml, os.F_OK)] and the module-level [today]. *)
Variable file_exists : string -> bool.
Variable today : option Z.

(** [for x, p in zip(xmls, pathrows): ...] *)
Fixpoint dlxmls_items (fuel : nat) (startdate enddate ingestdir : string)
    (items : list (string * list string)) (s : dstate)
    : ending (option string) :=
  match items with
  | [] => Returned (Some "Success!") s
  | (x, p) :: rest =>
      let xml := path_join ingestdir x in
      if file_exists xml && match today with None => true | Some _ => false end
      then Raised (NameError "today") s
      else
        match xml_url p startdate enddate with
        | Raise e => Raised e s
        | Ok urlname =>
            match dlxmls_loop fuel urlname 1 false s with
            | Returned (tries, _) s' =>
                dlxmls_items fuel startdate enddate ingestdir rest
                  (if tries =? 6 then logerror xml "Download error." s'
                   else s')
            | Raised e s' => Raised e s'
            | StillLooping tries s' => StillLooping tries s'
            end
        end
  end.

(** [dlxmls(startdate, enddate, xmls, ingestdir)]; [pathrows] is the
    module-level name the body reads. *)
Definition dlxmls (fuel : nat) (pathrows : option (list (list string)))
    (startdate enddate : string) (xmls : list string) (ingestdir : string)
    (s : dstate) : ending (option string) :=
  match pathrows with
  | None => Raised (NameError "pathrows") s
  | Some prs =>
      dlxmls_items fuel startdate enddate ingestdir (combine xmls prs) s
  end.
End Download.

(** *** OGR features and layers

    A feature carries its identifier ([None] for one that no layer has
    stored yet), one slot per field of its layer, empty when the field is
    unset, and the ring of its polygon when it has a geometry.  A layer is
    read through a cursor: [done] lists the features already handed out,
    [ahead] those still to come.  Deleting a feature takes it out of the
    sequence and leaves the cursor where it is. *)

Record Feature : Type := {
  fid : option Z;
  attrs : dict (option value);
  geometry : option (list point)
}.

Record Layer : Type := {
  defn : list string;
  done : list Feature;
  ahead : list Feature
}.

Definition all_features (l : Layer) : list Feature := done l ++ ahead l.

Definition GetFeatureCount (l : Layer) : Z :=
  Z.of_nat (List.length (all_features l)).

Definition ResetReading (l : Layer) : Layer :=
  {| defn := defn l; done := []; ahead := all_features l |}.

Definition GetNextFeature (l : Layer) : option Feature * Layer :=
  match ahead l with
  | [] => (None, l)
  | f :: rest =>
      (Some f, {| defn := defn l; done := done l ++ [f]; ahead := rest |})
  end.

Definition fid_eqb (a b : option Z) : bool :=
  match a, b with
  | Some x, Some y => x =? y
  | _, _ => false
  end.

Definition DeleteFeature (id : option Z) (l : Layer) : Layer :=
  let keep := fun f => negb (fid_eqb (fid f) id) in
  {| defn := defn l; done := filter keep (done l);
     ahead := filter keep (ahead l) |}.

(** [layer.SetFeature(f)] rewrites the stored feature that has the
    identifier of [f]; without such a feature the layer stays as it is. *)
Definition SetFeature (f : Feature) (l : Layer) : Layer :=
  let put := fun f' => if fid_eqb (fid f') (fid f) then f else f' in
  {| defn := defn l; done := map put (done l); ahead := map put (ahead l) |}.

(** [ogr.Feature(layer.GetLayerDefn())]. *)
Definition blank_feature (l : Layer) : Feature :=
  {| fid := None; attrs := map (fun n => (n, None)) (defn l);
     geometry := None |}.

(** [feature.GetField(name)]: [None] stands for Python's [None]. *)
Definition GetField (name : string) (f : Feature) : result (option value) :=
  match dict_get name (attrs f) with
  | Some v => Ok v
  | None => Raise (KeyError "Illegal field requested in GetField()")
  end.

Definition SetField (name : string) (v : option value) (f : Feature)
    : result Feature :=
  if dict_has name (attrs f) then
    Ok {| fid := fid f; attrs := dict_set name v (attrs f);
          geometry := geometry f |}
  else Raise (KeyError "Illegal field requested in SetField()").

Definition SetGeometry (g : option (list point)) (f : Feature) : Feature :=
  {| fid := fid f; attrs := attrs f; geometry := g |}.

(** [geom.GetEnvelope()]: (minX, maxX, minY, maxY). *)
Definition GetEnvelope (ring : list point) : Z * Z * Z * Z :=
  match ring with
  | [] => (0, 0, 0, 0)
  | p :: ps =>
      fold_left
        (fun env q =>
           match env with
           | (minX, maxX, minY, maxY) =>
               (Z.min minX (fst q), Z.max maxX (fst q),
                Z.min minY (snd q), Z.max maxY (snd q))
           end)
        ps (fst p, fst p, snd p, snd p)
  end.

(** [v in names] for a field value and a list of strings. *)
Definition value_in (v : option value) (names : list string) : bool :=
  match v with
  | Some (VStr s) => str_in s names
  | _ => false
  end.

(** [v == s] for a field value and a string. *)
Definition value_is (v : option value) (s : string) : bool :=
  value_in v [s].

(** *** Rings *)

(** The ring both branches of the main loop build from a footprint.
    [coord] is the module-level loop variable, which keeps its last
    binding; the result is the list of points added to the ring and the
    new binding of [coord]. *)
Definition build_ring (coord : option point) (coords : list point)
    : result (list point * option point) :=
  let ring := coords in
  let coord := match coords with
               | [] => coord
               | _ => Some (last coords (0, 0))
               end in
  match coord with
  | None => Raise (NameError "coord")
  | Some c =>
      match coords with
      | [] => Raise IndexError
      | first :: _ =>
          if negb (fst c =? fst first) && (snd c =? snd first)
          then Raise (TypeError "object is not subscriptable")
          else Ok (ring, Some c)
      end
  end.

Definition closed (ring : list point) : bool :=
  match ring with
  | [] => false
  | first :: _ => point_eqb (last ring first) first
  end.

(** *** The validation pass over the catalogue layer *)

(** The module-level lists and counters the pass fills, the layer, and
    the calls of [ieo.logerror] as (item, message). *)
Record vstate : Type := {
  v_layer : Layer;
  v_scenelist : list (option value);
  v_reimport : list Z;
  v_updatemissing : list (option value);
  v_badgeom : list (option value);
  v_lastupdate : option Z;
  v_lastmodifiedDate : option value;
  v_errors_total : Z;
  v_errors_metadata : Z;
  v_errors_date : Z;
  v_errors_geometry : Z;
  v_log : list (option value * string)
}.

Definition vstart (l : Layer) : vstate :=
  {| v_layer := l; v_scenelist := []; v_reimport := [];
     v_updatemissing := []; v_badgeom := []; v_lastupdate := None;
     v_lastmodifiedDate := None; v_errors_total := 0;
     v_errors_metadata := 0; v_errors_date := 0; v_errors_geometry := 0;
     v_log := [] |}.

(** The single assignments and appends of the pass. *)

Definition with_layer (l : Layer) (s : vstate) : vstate :=
  {| v_layer := l; v_scenelist := v_scenelist s;
     v_reimport := v_reimport s; v_updatemissing := v_updatemissing s;
     v_badgeom := v_badgeom s; v_lastupdate := v_lastupdate s;
     v_lastmodifiedDate := v_lastmodifiedDate s;
     v_errors_total := v_errors_total s;
     v_errors_metadata := v_errors_metadata s;
     v_errors_date := v_errors_date s;
     v_errors_geometry := v_errors_geometry s; v_log := v_log s |}.

(** [scenelist.append(sceneID)]. *)
Definition append_scenelist (sceneID : option value) (s : vstate) : vstate :=
  {| v_layer := v_layer s; v_scenelist := v_scenelist s ++ [sceneID];
     v_reimport := v_reimport s; v_updatemissing := v_updatemissing s;
     v_badgeom := v_badgeom s; v_lastupdate := v_lastupdate s;
     v_lastmodifiedDate := v_lastmodifiedDate s;
     v_errors_total := v_errors_total s;
     v_errors_metadata := v_errors_metadata s;
     v_errors_date := v_errors_date s;
     v_errors_geometry := v_errors_geometry s; v_log := v_log s |}.

(** [reimport.append(t)]. *)
Definition append_reimport (t : Z) (s : vstate) : vstate :=
  {| v_layer := v_layer s; v_scenelist := v_scenelist s;
     v_reimport := v_reimport s ++ [t];
     v_updatemissing := v_updatemissing s;
     v_badgeom := v_badgeom s; v_lastupdate := v_lastupdate s;
     v_lastmodifiedDate := v_lastmodifiedDate s;
     v_errors_total := v_errors_total s;
     v_errors_metadata := v_errors_metadata s;
     v_errors_date := v_errors_date s;
     v_errors_geometry := v_errors_geometry s; v_log := v_log s |}.

(** [updatemissing.append(sceneID)]. *)
Definition append_updatemissing (sceneID : option value) (s : vstate)
    : vstate :=
  {| v_layer := v_layer s; v_scenelist := v_scenelist s;
     v_reimport := v_reimport s;
     v_updatemissing := v_updatemissing s ++ [sceneID];
     v_badgeom := v_badgeom s; v_lastupdate := v_lastupdate s;
     v_lastmodifiedDate := v_lastmodifiedDate s;
     v_errors_total := v_errors_total s;
     v_errors_metadata := v_errors_metadata s;
     v_errors_date := v_errors_date s;
     v_errors_geometry := v_errors_geometry s; v_log := v_log s |}.

(** [badgeom.append(sceneID)]. *)
Definition append_badgeom (sceneID : option value) (s : vstate) : vstate :=
  {| v_layer := v_layer s; v_scenelist := v_scenelist s;
     v_reimport := v_reimport s; v_updatemissing := v_updatemissing s;
     v_badgeom := v_badgeom s ++ [sceneID];
     v_lastupdate := v_lastupdate s;
     v_lastmodifiedDate := v_lastmodifiedDate s;
     v_errors_total := v_errors_total s;
     v_errors_metadata := v_errors_metadata s;
     v_errors_date := v_errors_date s;
     v_errors_geometry := v_errors_geometry s; v_log := v_log s |}.

(** [lastupdate = datetuple] and [lastmodifiedDate = mdate]. *)
Definition set_lastupdate (datetuple : Z) (mdate : option value) (s : vstate)
    : vstate :=
  {| v_layer := v_layer s; v_scenelist := v_scenelist s;
     v_reimport := v_reimport s; v_updatemissing := v_updatemissing s;
     v_badgeom := v_badgeom s; v_lastupdate := Some datetuple;
     v_lastmodifiedDate := mdate;
     v_errors_total := v_errors_total s;
     v_errors_metadata := v_errors_metadata s;
     v_errors_date := v_errors_date s;
     v_errors_geometry := v_errors_geometry s; v_log := v_log s |}.

(** [ieo.logerror(item, message)]. *)
Definition log_error (item : option value) (message : string) (s : vstate)
    : vstate :=
  {| v_layer := v_layer s; v_scenelist := v_scenelist s;
     v_reimport := v_reimport s; v_updatemissing := v_updatemissing s;
     v_badgeom := v_badgeom s; v_lastupdate := v_lastupdate s;
     v_lastmodifiedDate := v_lastmodifiedDate s;
     v_errors_total := v_errors_total s;
     v_errors_metadata := v_errors_metadata s;
     v_errors_date := v_errors_date s;
     v_errors_geometry := v_errors_geometry s;
     v_log := v_log s ++ [(item, message)] |}.

(** [errors['total'] += 1] with one of [errors['metadata'] += 1],
    [errors['date'] += 1], [errors['geometry'] += 1]. *)
Definition count_error (metadata date geometry : Z) (s : vstate) : vstate :=
  {| v_layer := v_layer s; v_scenelist := v_scenelist s;
     v_reimport := v_reimport s; v_updatemissing := v_updatemissing s;
     v_badgeom := v_badgeom s; v_lastupdate := v_lastupdate s;
     v_lastmodifiedDate := v_lastmodifiedDate s;
     v_errors_total := v_errors_total s + 1;
     v_errors_metadata := v_errors_metadata s + metadata;
     v_errors_date := v_errors_date s + date;
     v_errors_geometry := v_errors_geometry s + geometry;
     v_log := v_log s |}.

Definition sensors : list string := ["TM"; "ETM"; "OLI"; "TIRS"; "OLI_TIRS"].

(** The first [try] of the [else] branch: the modification date.  Any
    exception of the block sends the scene to [updatemissing]. *)
Definition check_date (f : Feature) (sceneID : option value) (s : vstate)
    : vstate :=
  let parsed :=
    bind (GetField "dateUpdated" f) (fun mdate =>
      match mdate with
      | Some (VStr d) =>
          bind (strptime_ymd "/"%char d) (fun t => Ok (mdate, t))
      | _ => Raise (TypeError "strptime() argument 1 must be str")
      end) in
  match parsed with
  | Ok (mdate, datetuple) =>
      let newer := match v_lastupdate s with
                   | None => true
                   | Some lastupdate => datetuple >? lastupdate
                   end in
      if newer then set_lastupdate datetuple mdate s else s
  | Raise _ =>
      count_error 0 1 0
        (append_updatemissing sceneID
           (log_error sceneID "Modification date missing." s))
  end.

Definition degenerate (env : Z * Z * Z * Z) : bool :=
  match env with
  | (minX, maxX, minY, maxY) => (minX =? maxX) || (minY =? maxY)
  end.

(** The second [try] of the [else] branch: the geometry.  A feature
    without geometry makes [geom.GetEnvelope()] raise; the handler's
    [print] under [--verbose] is called with a keyword it does not have,
    and the [TypeError] leaves the handler.  A flat envelope is logged
    without touching the error counters. *)
Definition check_geometry (verbose : bool) (f : Feature)
    (sceneID : option value) (s : vstate) : vstate * option exn :=
  match geometry f with
  | Some ring =>
      if degenerate (GetEnvelope ring)
      then (append_badgeom sceneID
              (log_error sceneID "Bad/ missing geometry." s), None)
      else (s, None)
  | None =>
      if verbose
      then (s, Some (TypeError "print() got an unexpected keyword argument"))
      else (count_error 0 0 1
              (append_badgeom sceneID
                 (log_error sceneID "Bad/ missing geometry." s)), None)
  end.

(** The branch for a feature whose sensor is not a known one: it is
    logged, the date in its scene identifier goes on [reimport], and it
    is deleted. *)
Definition drop_for_reimport (f : Feature) (sceneID : option value)
    (s : vstate) : vstate * option exn :=
  let s1 := log_error sceneID
              "Feature missing metadata, deleted, reimportation required." s in
  match sceneID with
  | Some (VStr sid) =>
      match strptime_Yj (str_slice sid 9 16) with
      | Ok acquired =>
          let s2 := append_reimport acquired s1 in
          (count_error 1 0 0
             (with_layer (DeleteFeature (fid f) (v_layer s2)) s2), None)
      | Raise e => (s1, Some e)
      end
  | _ => (s1, Some (TypeError "object is not subscriptable"))
  end.

(** The body of [while feature: ...], up to the reading of the next
    feature.  [catalog] is the item the script logs for a feature whose
    scene identifier cannot be read. *)
Definition validate_feature (verbose : bool) (catalog : string) (f : Feature)
    (s : vstate) : vstate * option exn :=
  match GetField "sceneID" f with
  | Raise _ =>
      (log_error (Some (VStr catalog)) "bad feature"
         (with_layer (DeleteFeature (fid f) (v_layer s)) s), None)
  | Ok sceneID =>
      let s1 := append_scenelist sceneID s in
      match GetField "SensorID" f with
      | Raise e => (s1, Some e)
      | Ok sensor =>
          if negb (value_in sensor sensors)
          then drop_for_reimport f sceneID s1
          else check_geometry verbose f sceneID (check_date f sceneID s1)
      end
  end.

(** [while feature: ...; feature = layer.GetNextFeature()], entered with
    [feature] bound to [f]. *)
Equations? validation_loop (verbose : bool) (catalog : string) (f : Feature)
    (s : vstate) : vstate * option exn
    by wf (List.length (ahead (v_layer s))) lt :=
  validation_loop verbose catalog f s
    with inspect (validate_feature verbose catalog f s) := {
    | exist _ (s1, Some e) _ => (s1, Some e)
    | exist _ (s1, None) Hbody
        with inspect (GetNextFeature (v_layer s1)) := {
        | exist _ (None, _) _ => (s1, None)
        | exist _ (Some f', l') Hnext =>
            validation_loop verbose catalog f' (with_layer l' s1) } }.
Proof.
  assert (Hle : (List.length (ahead (v_layer s1))
                 <= List.length (ahead (v_layer s)))%nat).
  { clear Hnext validation_loop.
    unfold validate_feature, drop_for_reimport, check_geometry, check_date
      in Hbody.
    cbv beta zeta in Hbody.
    repeat match type of Hbody with
           | context [match ?x with _ => _ end] => destruct x
           end;
      inversion Hbody; subst; simpl;
      try apply filter_length_le; apply Nat.le_refl. }
  unfold GetNextFeature in Hnext.
  destruct (ahead (v_layer s1)) eqn:E; [discriminate|].
  inversion Hnext; subst. simpl in *. lia.
Qed.

(** The pass as the script runs it.  [feature] is the binding of the
    module-level name when the pass starts: [None] when nothing bound it,
    else the feature an earlier loop left in it.  The value of the first
    [layer.GetNextFeature()] is not kept. *)
Definition validation_pass (verbose : bool) (catalog : string)
    (feature : option Feature) (layer : Layer) : vstate * option exn :=
  if 0 <? GetFeatureCount layer then
    let layer1 := snd (GetNextFeature layer) in
    match feature with
    | None => (vstart layer1, Some (NameError "feature"))
    | Some f => validation_loop verbose catalog f (vstart layer1)
    end
  else (vstart layer, None).

(** *** Updating the features of a scene already in the catalogue *)

Definition truthy (v : value) : bool :=
  match v with
  | VBool b => b
  | VStr s => negb (String.eqb s "")
  | VInt z => negb (z =? 0)
  | VReal _ => true      (* the flags tested below only hold booleans *)
  | VDate _ | VTime _ => true
  | VCoords ring => (0 <? List.length ring)%nat
  end.

(** [if entry[k]:] *)
Definition flag (k : string) (entry : dict value) : result bool :=
  match dict_get k entry with
  | Some v => Ok (truthy v)
  | None => Raise (KeyError k)
  end.

(** The test of the main loop: [true] sends the scene to the branch that
    creates a feature, [false] to the branch that updates features. *)
Definition creates_feature (entry : dict value) : result bool :=
  bind (flag "updategeom" entry) (fun updategeom =>
    if updategeom then Ok false
    else bind (flag "updatemodifiedDate" entry) (fun updatemodifiedDate =>
           Ok (negb updatemodifiedDate && dict_has "coords" entry))).

Section MainLoop.
(** [transform], from latitude and longitude to the local projection. *)
Variable transform : point -> point.

(** Ring, polygon, [poly.Transform(transform)]: the geometry built
    from a scene's footprint. *)
Definition footprint_polygon (coord : option point) (entry : dict value)
    : result (list point * option point) :=
  match dict_get "coords" entry with
  | Some (VCoords coords) =>
      bind (build_ring coord coords) (fun r =>
        Ok (map transform (fst r), snd r))
  | Some _ => Raise (TypeError "not a list of coordinates")
  | None => Raise (KeyError "coords")
  end.

(** The body of [for feature in layer: ...] in the updating branch. *)
Definition update_feature (sceneID : string) (entry : dict value)
    (f : Feature) (coord : option point) (l : Layer)
    : result (Layer * option point) :=
  bind (GetField "sceneID" f) (fun v =>
    if value_is v sceneID then
      bind (flag "updategeom" entry) (fun updategeom =>
      bind (if updategeom then
              bind (footprint_polygon coord entry) (fun r =>
                Ok (SetGeometry (Some (fst r)) f, snd r))
            else Ok (f, coord)) (fun fc =>
      bind (flag "updatemodifiedDate" entry) (fun updatemodifiedDate =>
      bind (if updatemodifiedDate then
              match dict_get "modifiedDate" entry with
              | Some d => SetField "dateUpdated" (Some d) (fst fc)
              | None => Raise (KeyError "modifiedDate")
              end
            else Ok (fst fc)) (fun f' =>
      Ok (SetFeature f' l, snd fc)))))
    else Ok (l, coord)).

(** [for feature in layer: ...], from the cursor on. *)
Equations? update_loop (sceneID : string) (entry : dict value)
    (l : Layer) (coord : option point) : (Layer * option point) * option exn
    by wf (List.length (ahead l)) lt :=
  update_loop sceneID entry l coord with inspect (GetNextFeature l) := {
    | exist _ (None, _) _ => ((l, coord), None)
    | exist _ (Some f, l1) Hnext
        with inspect (update_feature sceneID entry f coord l1) := {
        | exist _ (Raise e) _ => ((l1, coord), Some e)
        | exist _ (Ok (l2, coord2)) Hbody =>
            update_loop sceneID entry l2 coord2 } }.
Proof.
  unfold GetNextFeature in Hnext.
  destruct (ahead l) eqn:E; [discriminate|].
  inversion Hnext; subst; clear Hnext.
  assert (Hlen : List.length (ahead l2) = List.length l0).
  { clear update_loop. unfold update_feature, bind in Hbody.
    repeat match type of Hbody with
           | context [match ?x with _ => _ end] => destruct x
           end;
      inversion Hbody; subst; simpl; try apply length_map; reflexivity. }
  simpl. lia.
Qed.

(** The updating branch for one scene. *)
Definition update_scene (sceneID : string) (entry : dict value)
    (l : Layer) (coord : option point)
    : (Layer * option point) * option exn :=
  update_loop sceneID entry (ResetReading l) coord.
End MainLoop.

(** *** Migration from the old shapefile *)

(** The directories [migrate] reads from the [ieo] configuration. *)
Record Ieo : Type := {
  ieo_srdir : string;
  ieo_btdir : string;
  ieo_fmaskdir : string;
  ieo_pixelqadir : string;
  ieo_ndvidir : string;
  ieo_evidir : string
}.

(** Reading a local variable of a function: a name the body assigns is
    local from the first line on, and unbound until assigned. *)
Definition load_local {A} (name : string) (binding : option A) : result A :=
  match binding with
  | Some a => Ok a
  | None => Raise (UnboundLocalError name)
  end.

(** [kwargs.get(k, default)]. *)
Definition kwargs_get (k : string) (default : value) (kwargs : dict value)
    : value :=
  match dict_get k kwargs with
  | Some v => v
  | None => default
  end.

Definition as_str (what : string) (v : option value) : result string :=
  match v with
  | Some (VStr s) => Ok s
  | _ => Raise (TypeError what)
  end.

Definition value_eqb (a b : value) : bool :=
  match a, b with
  | VBool x, VBool y => Bool.eqb x y
  | VStr x, VStr y => String.eqb x y
  | VInt x, VInt y => x =? y
  | VReal x, VReal y => String.eqb x y
  | VDate x, VDate y => x =? y
  | VTime x, VTime y => String.eqb x y
  | VCoords x, VCoords y =>
      (List.length x =? List.length y)%nat
      && forallb (fun pq => point_eqb (fst pq) (snd pq)) (combine x y)
  | _, _ => false
  end.

(** [v in l] for field values. *)
Definition field_in (v : option value) (l : list (option value)) : bool :=
  existsb (fun w => match v, w with
                    | None, None => true
                    | Some a, Some b => value_eqb a b
                    | _, _ => false
                    end) l.

(** [fieldvaluedict]: shapefile field name to geopackage field name. *)
Definition fieldvaluedict (fvl : list fieldrow) : dict string :=
  fold_left (fun d kv => dict_set (fst kv) (snd kv) d)
    [("MaskType", "Scene_mask_type");
     ("Thumb_JPG", "Thumbnail_filename");
     ("SR_path", "Surface_reflectance_tiles");
     ("BT_path", "Brightness_temperature_tiles");
     ("Fmask_path", "CFmask_tiles");
     ("PixQA_path", "Pixel_QA_tiles");
     ("NDVI_path", "NDVI_tiles");
     ("EVI_path", "EVI_tiles");
     ("tilebase", "Tile_filename_base")]
    (fold_left (fun d row => dict_set (shpname row) (gpkgname row) d) fvl []).

Definition tilesearchdict (ieo : Ieo) (tiledir : string) : dict string :=
  [("SR_path", path_join tiledir (basename (ieo_srdir ieo)));
   ("BT_path", path_join tiledir (basename (ieo_btdir ieo)));
   ("Fmask_path", path_join tiledir (basename (ieo_fmaskdir ieo)));
   ("PixQA_path", path_join tiledir (basename (ieo_pixelqadir ieo)));
   ("NDVI_path", path_join tiledir (basename (ieo_ndvidir ieo)));
   ("EVI_path", path_join tiledir (basename (ieo_evidir ieo)))].

Section Migrate.
(** The configuration, the file system and the library: the shapefile
    found at a path, as its field names and features; [glob.glob];
    [os.path.isfile]; [ieo.checkscenegeometry], true for a feature
    whose geometry is to be rejected. *)
Variable ieo : Ieo.
Variable jpgdir : string.
Variable shapefiles : string -> result (list string * list Feature).
Variable glob : string -> list string.
Variable isfile : string -> bool.
Variable checkscenegeometry : Feature -> value -> bool.

(** The list of tiles found for a tile field. *)
Definition tile_list (dir tilebase : string) : string :=
  fold_left
    (fun tilestr f =>
       let b := basename f in
       tilestr ++ "," ++ str_sliceZ b 12 (str_find ".dat" b))
    (glob (path_join dir (tilebase ++ "_*.dat"))) "".

(** The body of [for field in fnamelist: ...] *)
Definition migrate_field (fvd tsd : dict string) (feature : Feature)
    (tilebase : string) (field : string) (outfeature : Feature)
    : result Feature :=
  match dict_get field tsd with
  | Some dir =>
      match glob (path_join dir (tilebase ++ "_*.dat")) with
      | [] => Ok outfeature
      | _ =>
          match dict_get field fvd with
          | None => Raise (KeyError field)
          | Some target =>
              SetField target
                (Some (VStr (str_from (tile_list dir tilebase) 1)))
                outfeature
          end
      end
  | None =>
      match dict_get field fvd with
      | None => Ok outfeature
      | Some target =>
          if String.eqb field "Thumbnail_filename" then
            bind (GetField field feature) (fun v =>
            bind (as_str "path" v) (fun v0 =>
            bind (if isfile v0 then Ok v0
                  else
                    bind (GetField "LandsatPID" feature) (fun pid =>
                    bind (as_str "path" pid) (fun pid =>
                    let v1 := path_join jpgdir pid in
                    if isfile v1 then Ok v1
                    else
                      bind (GetField "sceneID" feature) (fun sid =>
                      bind (as_str "path" sid) (fun sid =>
                      Ok (path_join jpgdir sid)))))) (fun v2 =>
            if isfile v2
            then SetField target (Some (VStr (basename v2))) outfeature
            else Ok outfeature)))
          else
            bind (GetField field feature) (fun v =>
              SetField target v outfeature)
      end
  end.

Fixpoint migrate_fields (fvd tsd : dict string) (feature : Feature)
    (tilebase : string) (fnamelist : list string) (outfeature : Feature)
    : result Feature :=
  match fnamelist with
  | [] => Ok outfeature
  | field :: rest =>
      bind (migrate_field fvd tsd feature tilebase field outfeature)
        (migrate_fields fvd tsd feature tilebase rest)
  end.

(** ['{}'.format(v)] for the tile base, a string field of the shapefile:
    the string itself, or [None] for an unset field. *)
Definition format_tilebase (v : option value) : result string :=
  match v with
  | Some (VStr s) => Ok s
  | None => Ok "None"
  | Some _ => Raise (TypeError "tilebase is not a string field")
  end.

(** [for feature in shplayer: ...] *)
Fixpoint migrate_features (verbose : value) (fvd tsd : dict string)
    (fnamelist : list string) (sceneids : list (option value))
    (shp : list Feature) (layer : Layer) : Layer * option exn :=
  match shp with
  | [] => (layer, None)
  | feature :: rest =>
      match GetField "sceneID" feature with
      | Raise e => (layer, Some e)
      | Ok sceneid =>
          if negb (checkscenegeometry feature verbose)
             && field_in sceneid sceneids
          then
            let built :=
              bind (GetField "tilebase" feature) (fun tb =>
              bind (format_tilebase tb) (fun tilebase =>
              bind (migrate_fields fvd tsd feature tilebase fnamelist
                      (blank_feature layer)) (fun outfeature =>
              Ok (SetGeometry (geometry feature) outfeature)))) in
            match built with
            | Raise e => (layer, Some e)
            | Ok outfeature =>
                migrate_features verbose fvd tsd fnamelist sceneids rest
                  (SetFeature outfeature layer)
            end
          else
            migrate_features verbose fvd tsd fnamelist sceneids rest layer
      end
  end.

(** [sceneids]: the scene identifiers already in the layer. *)
Fixpoint read_sceneids (fs : list Feature) : result (list (option value)) :=
  match fs with
  | [] => Ok []
  | feat :: rest =>
      bind (GetField "sceneID" feat) (fun v =>
      bind (read_sceneids rest) (fun vs => Ok (v :: vs)))
  end.

(** [migrate] from its third line on, with its two locals bound. *)
Definition migrate_body (layer : Layer) (shapefilepath : string)
    (fvl : list fieldrow) (tiledir verbose : value) : Layer * result Layer :=
  match as_str "path" (Some tiledir) with
  | Raise e => (layer, Raise e)
  | Ok td =>
      match shapefiles shapefilepath with
      | Raise e => (layer, Raise e)
      | Ok (fnamelist, shp) =>
          match read_sceneids (if 0 <? GetFeatureCount layer
                               then all_features layer else []) with
          | Raise e => (layer, Raise e)
          | Ok sceneids =>
              match migrate_features verbose (fieldvaluedict fvl)
                      (tilesearchdict ieo td) fnamelist sceneids shp
                      (ResetReading layer) with
              | (layer', Some e) => (layer', Raise e)
              | (layer', None) => (layer', Ok layer')
              end
          end
      end
  end.

(** [migrate(layer, shapefilepath, fieldvaluelist, **kwargs)]: the
    layer as the call leaves it, and the layer returned or the
    exception raised.  [tiledir] and [verbose] are locals of the
    function; the second line reads [verbose] to pass it as the default
    of [kwargs.get] before any line has assigned it. *)
Definition migrate (layer : Layer) (shapefilepath : string)
    (fvl : list fieldrow) (kwargs : dict value) : Layer * result Layer :=
  let local_verbose : option value := None in
  let tiledir :=
    kwargs_get "tiledir" (VStr (dirname (ieo_srdir ieo))) kwargs in
  match load_local "verbose" local_verbose with
  | Raise e => (layer, Raise e)
  | Ok default =>
      let verbose := kwargs_get "verbose" default kwargs in
      migrate_body layer shapefilepath fvl tiledir verbose
  end.
End Migrate.

End Landsat.

(** ** updatelandsat.py: the path/row list and the bounding rectangle *)

Module Setup.

(** [s.split(sep)] for a separator of one character; [cur] is the part
    read since the last separator. *)
Fixpoint split_from (sep : ascii) (s cur : string) : list string :=
  match s with
  | EmptyString => [cur]
  | String c s' =>
      if Ascii.eqb c sep then cur :: split_from sep s' ""
      else split_from sep s' (cur ++ String c "")
  end.
Definition split (sep : ascii) (s : string) : list string :=
  split_from sep s "".

(** [s.zfill(width)] for a string of digits. *)
Definition zfill (width : nat) (s : string) : string :=
  string_of_list_ascii (repeat "0"%char (width - String.length s)) ++ s.

(** ['{:03d}'.format(z)]: the sign counts for the width. *)
Definition format_03d (z : Z) : string :=
  if z <? 0
  then "-" ++ zfill 2 (NilZero.string_of_uint (N.to_uint (Z.to_N (- z))))
  else zfill 3 (NilZero.string_of_uint (N.to_uint (Z.to_N z))).

(** [range(a, b)]. *)
Definition zrange (a b : Z) : list Z :=
  map (fun n => a + Z.of_nat n) (seq 0 (Z.to_nat (b - a))).

(** The module-level lists [paths], [rows] and [pathrowstrs], and the
    binding of the loop variable [feature], which the loop over the WRS-2
    layer leaves behind. *)
Record wrs : Type := {
  paths : list Z;
  rows : list Z;
  pathrowstrs : list string;
  feature : option Landsat.Feature
}.

Definition nothing : wrs :=
  {| paths := []; rows := []; pathrowstrs := []; feature := None |}.

(** [if not x in l: l.append(x)]. *)
Definition add_new (x : Z) (l : list Z) : list Z :=
  if existsb (Z.eqb x) l then l else (l ++ [x])%list.

(** [int(pathrowvals[n])]. *)
Definition int_at (vals : list string) (n : nat) : result Z :=
  match nth_error vals n with
  | Some v => int v
  | None => Raise IndexError
  end.

(** [for k in range(...): ...], the innermost loop. *)
Fixpoint for_rows (j : Z) (ks : list Z) (w : wrs) : wrs :=
  match ks with
  | [] => w
  | k :: rest =>
      for_rows j rest
        {| paths := paths w;
           rows := add_new k (rows w);
           pathrowstrs :=
             (pathrowstrs w ++ [(format_03d j ++ format_03d k)%string])%list;
           feature := feature w |}
  end.

(** [for j in range(...): ...]; the bounds of the inner range are read
    again for every [j]. *)
Fixpoint for_paths (vals : list string) (i : nat) (js : list Z) (w : wrs)
    : result wrs :=
  match js with
  | [] => Ok w
  | j :: rest =>
      let w1 := {| paths := add_new j (paths w); rows := rows w;
                   pathrowstrs := pathrowstrs w; feature := feature w |} in
      bind (int_at vals (i * 4 + 2)) (fun r0 =>
      bind (int_at vals (i * 4 + 3)) (fun r1 =>
      for_paths vals i rest (for_rows j (zrange r0 (r1 + 1)) w1)))
  end.

(** The body of [for i in range(iterations): ...]: one rectangle of
    paths and rows. *)
Definition rectangle (vals : list string) (i : nat) (w : wrs) : result wrs :=
  bind (int_at vals (i * 4)) (fun p0 =>
  bind (int_at vals (i * 4 + 1)) (fun p1 =>
  for_paths vals i (zrange p0 (p1 + 1)) w)).

Fixpoint for_rectangles (vals : list string) (todo : list nat) (w : wrs)
    : result wrs :=
  match todo with
  | [] => Ok w
  | i :: rest => bind (rectangle vals i w) (for_rectangles vals rest)
  end.

(** The branch that reads the comma-delimited [pathrowvals];
    [int(len(pathrowvals) / 4)] is the whole number of groups of four. *)
Definition from_values (vals : list string) : result wrs :=
  for_rectangles vals (range (List.length vals / 4)) nothing.

Definition from_ini (pathrowvals : string) : result wrs :=
  from_values (split ","%char pathrowvals).

(** The value of a field as ['{:03d}'] takes it: an integer is
    formatted; nothing, a real number or text is refused. *)
Definition field_int (v : option Landsat.value) : result Z :=
  match v with
  | Some (Landsat.VInt z) => Ok z
  | None =>
      Raise (TypeError "unsupported format string passed to NoneType.__format__")
  | Some _ => Raise (ValueError "Unknown format code 'd'")
  end.

(** [for feature in layer: ...], the branch that reads the WRS-2 layer. *)
Fixpoint from_wrs2 (features : list Landsat.Feature) (w : wrs) : result wrs :=
  match features with
  | [] => Ok w
  | f :: rest =>
      bind (Landsat.GetField "PATH" f) (fun path =>
      bind (Landsat.GetField "ROW" f) (fun row =>
      bind (field_int path) (fun p =>
      bind (field_int row) (fun r =>
      from_wrs2 rest
        {| paths := add_new p (paths w);
           rows := add_new r (rows w);
           pathrowstrs :=
             (pathrowstrs w ++ [(format_03d p ++ format_03d r)%string])%list;
           feature := Some f |}))))
  end.

(** The choice between the two, by [useWRS2] of the configuration;
    [wrs2] are the features of the layer [ieo.WRS2]. *)
Definition pathrow_setup (useWRS2 pathrowvals : string)
    (wrs2 : list Landsat.Feature) : result wrs :=
  if String.eqb (lower useWRS2) "yes" then from_wrs2 wrs2 nothing
  else from_ini pathrowvals.

(** [min(l)] and [max(l)] on integers. *)
Definition py_min (l : list Z) : result Z :=
  match l with
  | [] => Raise (ValueError "min() arg is an empty sequence")
  | x :: rest => Ok (fold_left Z.min rest x)
  end.

Definition py_max (l : list Z) : result Z :=
  match l with
  | [] => Raise (ValueError "max() arg is an empty sequence")
  | x :: rest => Ok (fold_left Z.max rest x)
  end.

(** [prs], the four corners of the path/row rectangle, in the order the
    list display evaluates them. *)
Definition corners (w : wrs) : result (list (Z * Z)) :=
  bind (py_min (paths w)) (fun p0 =>
  bind (py_min (rows w)) (fun r0 =>
  bind (py_max (rows w)) (fun r1 =>
  bind (py_max (paths w)) (fun p1 =>
  Ok [(p0, r0); (p0, r1); (p1, r1); (p1, r0)])))).

Section MBR.
(** Coordinates are floating-point numbers, of which the script only
    uses the comparison [<]; [grid2ll] is the answer of the service to a
    path and a row, as (longitude, latitude), or the exception that
    posting, decoding or [float] raises. *)
Variable F : Type.
Variable flt : F -> F -> bool.
Variable grid2ll : Z -> Z -> result (F * F).

(** [min(l)] and [max(l)] of a non-empty list that starts with [x]: the
    first of the smallest, the first of the largest. *)
Definition least (x : F) (l : list F) : F :=
  fold_left (fun best y => if flt y best then y else best) l x.

Definition greatest (x : F) (l : list F) : F :=
  fold_left (fun best y => if flt best y then y else best) l x.

(** [for pr in prs: ...]: the requests posted and the coordinates
    gathered. *)
Fixpoint ask (prs posted : list (Z * Z)) (Xcoords Ycoords : list F)
    : list (Z * Z) * result (list F * list F) :=
  match prs with
  | [] => (posted, Ok (Xcoords, Ycoords))
  | pr :: rest =>
      match grid2ll (fst pr) (snd pr) with
      | Raise e => ((posted ++ [pr])%list, Raise e)
      | Ok (x, y) =>
          ask rest (posted ++ [pr])%list (Xcoords ++ [x])%list
            (Ycoords ++ [y])%list
      end
  end.

(** [getMBR()]: the requests posted, and
    [[min(Ycoords), min(Xcoords), max(Ycoords), max(Xcoords)]]. *)
Definition getMBR (w : wrs) : list (Z * Z) * result (list F) :=
  match corners w with
  | Raise e => ([], Raise e)
  | Ok prs =>
      match ask prs [] [] [] with
      | (posted, Raise e) => (posted, Raise e)
      | (posted, Ok (x :: xs, y :: ys)) =>
          (posted, Ok [least y ys; least x xs; greatest y ys; greatest x xs])
      | (posted, Ok _) =>
          (posted, Raise (ValueError "min() arg is an empty sequence"))
      end
  end.

(** The rectangle of the queries: the four parts of [--MBR] as they were
    typed, or the numbers [getMBR] found. *)
Inductive rectangle_of_queries : Type :=
| Typed (parts : list string)
| Found (box : list F).

(** What the handling of [--MBR] leaves behind: the calls of
    [ieo.logerror], the requests posted, and [args.MBR] or the
    exception that ends the script. *)
Definition set_MBR (arg : option string) (w : wrs)
    : list (string * string) * list (Z * Z) * result rectangle_of_queries :=
  match arg with
  | Some (String c s) =>
      let parts := split ","%char (String c s) in
      if negb (List.length parts =? 4)%nat then
        ([("--MBR", "Total number of coordinates does not equal four.")],
         [], Raise SystemExit)
      else ([], [], Ok (Typed parts))
  | _ =>
      match getMBR w with
      | (posted, Ok box) => ([], posted, Ok (Found box))
      | (posted, Raise e) => ([], posted, Raise e)
      end
  end.
End MBR.

Arguments least {F} flt x l.
Arguments greatest {F} flt x l.
Arguments ask {F} grid2ll prs posted Xcoords Ycoords.
Arguments getMBR {F} flt grid2ll w.
Arguments Typed {F} parts.
Arguments Found {F} box.
Arguments set_MBR {F} flt grid2ll arg w.

End Setup.

(** ** updatelandsat.py: between the validation pass and the search *)

Module Handover.
Import Landsat.

(** [min(reimport)] on dates. *)
Definition earliest (l : list Z) : result Z :=
  match l with
  | [] => Raise (ValueError "min() arg is an empty sequence")
  | x :: rest => Ok (fold_left Z.min rest x)
  end.

(** The three lines after the pass: when a deleted scene is older than
    the latest update, [lastmodifiedDate] is to be moved back to it;
    [datetime.datetime.strftime] is called on the format string, which is
    no [datetime].  The value is [lastmodifiedDate] as the search gets it. *)
Definition move_back (s : vstate) : result (option value) :=
  if (0 <? List.length (v_reimport s))%nat then
    match v_lastupdate s with
    | Some lastupdate =>
        bind (earliest (v_reimport s)) (fun first =>
          if first <? lastupdate
          then Raise (TypeError
                 "descriptor 'strftime' for 'datetime.date' objects doesn't apply to a 'str' object")
          else Ok (v_lastmodifiedDate s))
    | None => Ok (v_lastmodifiedDate s)
    end
  else Ok (v_lastmodifiedDate s).

(** The strings of a list of field values: [x in l], for a string [x],
    looks at these only. *)
Definition strings (l : list (option value)) : list string :=
  flat_map (fun v => match v with
                     | Some (VStr s) => [s]
                     | _ => []
                     end) l.

End Handover.

(** ** updatelandsat.py: the loop over the scenes found *)

Module Scenes.
Import Landsat.

(** What ends the loop, or what a handler logs: one of the exceptions
    above, or one of three more that only this part of the script meets. *)
Inductive stop : Type :=
| Exn (e : exn)
| RuntimeError (msg : string)
| AttributeError (msg : string)
| NotImplementedError (msg : string).

(** [except Exception] catches it. *)
Definition is_caught (e : stop) : bool :=
  match e with
  | Exn e => is_Exception e
  | _ => true
  end.

(** What [scenedict] holds under a key: the dictionary of a scene, or
    the tile list that [findlocalfiles] stores next to the scenes. *)
Inductive slot : Type :=
| Scene (entry : dict value)
| Tiles (tilestr : string).

(** [s.rfind(c)]: the last position of [c] in [s], or -1. *)
Fixpoint rfind_from (c : ascii) (s : string) (pos last : Z) : Z :=
  match s with
  | EmptyString => last
  | String x s' =>
      rfind_from c s' (pos + 1) (if Ascii.eqb x c then pos else last)
  end.
Definition str_rfind (c : ascii) (s : string) : Z := rfind_from c s 0 (-1).

(** [basename[i:j]] with [i = basename.rfind('_') + 1] and
    [j = f.find('.')]: the second position is one of the whole path. *)
Definition tile_name (f : string) : string :=
  let b := basename f in
  str_sliceZ b (str_rfind "_"%char b + 1) (str_find "." f).

(** The values [if value:] lets through; [float_nonzero] tells whether
    [float] of a literal is another number than zero. *)
Definition is_true (float_nonzero : string -> bool) (v : value) : bool :=
  match v with
  | VReal literal => float_nonzero literal
  | _ => truthy v
  end.

(** What the main loop hands to [ieo.logerror] as its second argument:
    an exception, or the value [dlthumb] returned. *)
Inductive logged : Type :=
| Because (e : stop)
| Response (r : option string).

(** The module-level names the loop reads and writes. *)
Record mstate : Type := {
  m_scenedict : dict slot;
  m_layer : Layer;
  m_scenelist : list (option value);
  m_thumbnails : list string;
  m_dlurl : option string;
  m_coord : option point;
  m_downloads : dstate;
  m_log : list (string * logged)
}.

(** How the loop, or a part of it, ends: normally, with an exception
    that nothing catches, or inside a download loop that the passes
    granted have not ended. *)
Inductive finish : Type :=
| Finished
| Stops (e : stop)
| Downloading.

Definition with_scenedict (d : dict slot) (s : mstate) : mstate :=
  {| m_scenedict := d; m_layer := m_layer s; m_scenelist := m_scenelist s;
     m_thumbnails := m_thumbnails s; m_dlurl := m_dlurl s;
     m_coord := m_coord s; m_downloads := m_downloads s; m_log := m_log s |}.

Definition with_m_layer (l : Layer) (s : mstate) : mstate :=
  {| m_scenedict := m_scenedict s; m_layer := l;
     m_scenelist := m_scenelist s; m_thumbnails := m_thumbnails s;
     m_dlurl := m_dlurl s; m_coord := m_coord s;
     m_downloads := m_downloads s; m_log := m_log s |}.

Definition with_coord (c : option point) (s : mstate) : mstate :=
  {| m_scenedict := m_scenedict s; m_layer := m_layer s;
     m_scenelist := m_scenelist s; m_thumbnails := m_thumbnails s;
     m_dlurl := m_dlurl s; m_coord := c;
     m_downloads := m_downloads s; m_log := m_log s |}.

Definition with_downloads (d : dstate) (s : mstate) : mstate :=
  {| m_scenedict := m_scenedict s; m_layer := m_layer s;
     m_scenelist := m_scenelist s; m_thumbnails := m_thumbnails s;
     m_dlurl := m_dlurl s; m_coord := m_coord s;
     m_downloads := d; m_log := m_log s |}.

(** [dlurl = u] and [thumbnails.append(u)]. *)
Definition take_thumbnail (u : string) (s : mstate) : mstate :=
  {| m_scenedict := m_scenedict s; m_layer := m_layer s;
     m_scenelist := m_scenelist s;
     m_thumbnails := (m_thumbnails s ++ [u])%list; m_dlurl := Some u;
     m_coord := m_coord s; m_downloads := m_downloads s; m_log := m_log s |}.

(** [scenelist.append(sceneID)]. *)
Definition add_scene (sceneID : string) (s : mstate) : mstate :=
  {| m_scenedict := m_scenedict s; m_layer := m_layer s;
     m_scenelist := (m_scenelist s ++ [Some (VStr sceneID)])%list;
     m_thumbnails := m_thumbnails s; m_dlurl := m_dlurl s;
     m_coord := m_coord s; m_downloads := m_downloads s; m_log := m_log s |}.

(** [ieo.logerror(item, what, errorfile = errorfile)]. *)
Definition log (item : string) (what : logged) (s : mstate) : mstate :=
  {| m_scenedict := m_scenedict s; m_layer := m_layer s;
     m_scenelist := m_scenelist s; m_thumbnails := m_thumbnails s;
     m_dlurl := m_dlurl s; m_coord := m_coord s;
     m_downloads := m_downloads s;
     m_log := (m_log s ++ [(item, what)])%list |}.

(** [errorsfound = True]. *)
Definition found_errors (s : mstate) : mstate :=
  with_downloads {| attempts := attempts (m_downloads s);
                    errors := errors (m_downloads s);
                    errorsfound := true |} s.

Section Loop.
(** The world around the loop: [glob.glob]; whether the header of a
    tile names the scene among its parent rasters
    ([sceneID in ieo.readenvihdr(hdr)['parent rasters']]); the zero test
    of [float]; the transformation to the local projection; the network;
    [os.access(path, os.F_OK)], asked after so many download attempts;
    [makeworldfile], which returns or raises; the identifier the layer
    gives a new feature; and the configuration. *)
Variable glob : string -> list string.
Variable parent_rasters_hold : string -> string -> result bool.
Variable float_nonzero : string -> bool.
Variable transform : point -> point.
Variable net : nat -> string -> fetch.
Variable access : nat -> string -> bool.
Variable makeworldfile : string -> list point -> option exn.
Variable next_fid : Layer -> Z.
Variable fielddict : dict (dict string).
Variable jpgdir : string.
Variable args_thumbnails : bool.
(** The passes granted to each download loop. *)
Variable fuel : nat.

(** *** [findlocalfiles] *)

(** [for f in tilelist: ...]: the tiles whose header names the scene. *)
Fixpoint matching_tiles (sceneID : string) (tilelist tiles : list string)
    : result (list string) :=
  match tilelist with
  | [] => Ok tiles
  | f :: rest =>
      bind (parent_rasters_hold (replace ".dat" ".hdr" f) sceneID) (fun held =>
        matching_tiles sceneID rest
          (if held then (tiles ++ [tile_name f])%list else tiles))
  end.

(** The body of [for fieldname in fielddict: ...].  The tile list goes
    into [scenedict] under the name of the field. *)
Definition record_tiles (sceneID tilebase : string)
    (field : string * dict string) (scenedict : dict slot)
    : result (dict slot) :=
  match dict_get "dirname" (snd field) with
  | None => Raise (KeyError "dirname")
  | Some dirname =>
      bind (matching_tiles sceneID
              (glob (path_join dirname (tilebase ++ "*.dat"))) [])
        (fun tiles =>
           match tiles with
           | [] => Ok scenedict
           | _ =>
               let d := dict_set (fst field) (Tiles (join "," tiles))
                          scenedict in
               Ok (if String.eqb (fst field) "Pixel_QA_tiles"
                   then dict_set "MaskType" (Tiles "Pixel_QA") d
                   else if String.eqb (fst field) "Fmask_tiles"
                   then dict_set "MaskType" (Tiles "FMask") d
                   else d)
           end)
  end.

Fixpoint record_all (sceneID tilebase : string)
    (fields : list (string * dict string)) (scenedict : dict slot)
    : result (dict slot) :=
  match fields with
  | [] => Ok scenedict
  | field :: rest =>
      bind (record_tiles sceneID tilebase field scenedict)
        (record_all sceneID tilebase rest)
  end.

(** [findlocalfiles(sceneID, fielddict, scenedict)]: the dictionary it
    returns is the one it was given, with the tile lists stored in it.
    An exception of [glob] or of reading a header is not caught here or
    in the loop that calls it, and ends the script. *)
Definition findlocalfiles (sceneID : string) (scenedict : dict slot)
    : result (dict slot) :=
  record_all sceneID
    (str_slice sceneID 0 3 ++ "_" ++ str_slice sceneID 9 16)
    fielddict scenedict.

(** *** The fields of a new feature *)

(** The [try] block for one key of the scene's dictionary: the
    dictionary and the feature as the block leaves them, and what it
    raised. *)
Definition write_field (key : string) (v : value) (entry : dict value)
    (feature : Feature) : dict value * Feature * option stop :=
  match index key queryfieldnames with
  | Raise e => (entry, feature, Some (Exn e))
  | Ok i =>
      match nth_error fieldvaluelist i, nth_error fnames i with
      | Some row, Some fname =>
          if ogr_type_eqb (ftype row) OFTDate then
            match v with
            | VStr s =>
                let s1 := if contains_char "/"%char s
                          then replace_char "/"%char "-"%char s else s in
                let entry1 := if contains_char "/"%char s
                              then dict_set key (VStr s1) entry else entry in
                match strptime_ymd "-"%char s1 with
                | Raise e => (entry1, feature, Some (Exn e))
                | Ok d =>
                    let entry2 := dict_set key (VDate d) entry1 in
                    match SetField fname (Some (VDate d)) feature with
                    | Ok feature' => (entry2, feature', None)
                    | Raise e => (entry2, feature, Some (Exn e))
                    end
                end
            | VDate _ | VTime _ =>
                match SetField fname (Some v) feature with
                | Ok feature' => (entry, feature', None)
                | Raise e => (entry, feature, Some (Exn e))
                end
            | _ =>
                (entry, feature,
                 Some (AttributeError "object has no attribute 'year'"))
            end
          else
            match v with
            | VBool _ | VStr _ | VInt _ | VReal _ =>
                match SetField fname (Some v) feature with
                | Ok feature' => (entry, feature', None)
                | Raise e => (entry, feature, Some (Exn e))
                end
            | _ =>
                (entry, feature,
                 Some (NotImplementedError
                         "Wrong number or type of arguments for overloaded function 'Feature_SetField'"))
            end
      | _, _ => (entry, feature, Some (Exn IndexError))
      end
  end.

(** [for key in scenedict[sceneID].keys(): ...] over the keys still to
    come. *)
Fixpoint fill (todo : list string) (entry : dict value) (feature : Feature)
    (errors : list (string * logged))
    : dict value * Feature * list (string * logged) * option stop :=
  match todo with
  | [] => (entry, feature, errors, None)
  | key :: rest =>
      match dict_get key entry with
      | None => (entry, feature, errors, Some (Exn (KeyError key)))
      | Some v =>
          if is_true float_nonzero v && str_in key queryfieldnames then
            match write_field key v entry feature with
            | (entry', feature', None) => fill rest entry' feature' errors
            | (entry', feature', Some e) =>
                if is_caught e
                then fill rest entry' feature'
                       (errors ++ [(key, Because e)])%list
                else (entry', feature', errors, Some e)
            end
          else fill rest entry feature errors
      end
  end.

(** *** The thumbnail of a new feature *)

(** [layer.CreateFeature(feature)]. *)
Definition CreateFeature (f : Feature) (l : Layer) : Layer :=
  {| defn := defn l; done := done l;
     ahead := (ahead l ++ [{| fid := Some (next_fid l); attrs := attrs f;
                             geometry := geometry f |}])%list |}.

(** [response == 'Success!']. *)
Definition succeeded (response : option string) : bool :=
  match response with
  | Some r => String.eqb r "Success!"
  | None => false
  end.

(** The end of the [try] block: [if os.access(jpg, os.F_OK): ...]. *)
Definition name_thumbnail (jpg : string) (feature : Feature) (s : mstate)
    : mstate * Feature :=
  if access (List.length (attempts (m_downloads s))) jpg then
    match SetField "Thumbnail_filename" (Some (VStr jpg)) feature with
    | Ok feature' => (s, feature')
    | Raise e => (found_errors (log (basename jpg) (Because (Exn e)) s), feature)
    end
  else (s, feature).

(** From [basename = os.path.basename(dlurl)] to the end of the [try]
    statement. *)
Definition thumbnail (sceneID dlurl : string) (poly : list point)
    (feature : Feature) (s : mstate) : mstate * Feature * finish :=
  let jpg := path_join jpgdir (basename dlurl) in
  if negb (access (List.length (attempts (m_downloads s))) jpg)
     && args_thumbnails
  then
    match dlthumb net fuel (Some dlurl) dlurl jpgdir (m_downloads s) with
    | StillLooping _ d => (with_downloads d s, feature, Downloading)
    | Raised e d =>
        if is_Exception e
        then (found_errors (log (basename jpg) (Because (Exn e))
                              (with_downloads d s)), feature, Finished)
        else (with_downloads d s, feature, Stops (Exn e))
    | Returned response d =>
        if succeeded response then
          match makeworldfile jpg poly with
          | None =>
              let r := name_thumbnail jpg feature (with_downloads d s) in
              (fst r, snd r, Finished)
          | Some e =>
              if is_Exception e
              then (found_errors (log (basename jpg) (Because (Exn e))
                                    (with_downloads d s)), feature, Finished)
              else (with_downloads d s, feature, Stops (Exn e))
          end
        else
          let r := name_thumbnail jpg feature
                     (found_errors (log sceneID (Response response)
                                      (with_downloads d s))) in
          (fst r, snd r, Finished)
    end
  else (s, feature, Finished).

(** *** The branch that adds a scene to the layer *)

(** [scenedict[sceneID]] for the branch, which subscripts it. *)
Definition scene_entry (sceneID : string) (scenedict : dict slot)
    : result (dict value) :=
  match dict_get sceneID scenedict with
  | Some (Scene entry) => Ok entry
  | Some (Tiles _) => Raise (TypeError "string indices must be integers")
  | None => Raise (KeyError sceneID)
  end.

Definition create_scene (sceneID : string) (s : mstate) : mstate * finish :=
  match findlocalfiles sceneID (m_scenedict s) with
  | Raise e => (s, Stops (Exn e))
  | Ok scenedict1 =>
      let s1 := with_scenedict scenedict1 s in
      match scene_entry sceneID scenedict1 with
      | Raise e => (s1, Stops (Exn e))
      | Ok entry =>
          match dict_get "browseUrl" entry with
          | None => (s1, Stops (Exn (KeyError "browseUrl")))
          | Some (VStr u) =>
              let s2 := add_scene sceneID
                          (if endswith u ".jpg" then take_thumbnail u s1
                           else s1) in
              match SetField "sceneID" (Some (VStr sceneID))
                      (blank_feature (m_layer s2)) with
              | Raise e => (s2, Stops (Exn e))
              | Ok feature =>
                  let filled := fill (keys entry) entry feature (m_log s2) in
                  let entry' := fst (fst (fst filled)) in
                  let feature' := snd (fst (fst filled)) in
                  let s3 :=
                    {| m_scenedict :=
                         dict_set sceneID (Scene entry') scenedict1;
                       m_layer := m_layer s2;
                       m_scenelist := m_scenelist s2;
                       m_thumbnails := m_thumbnails s2;
                       m_dlurl := m_dlurl s2; m_coord := m_coord s2;
                       m_downloads := m_downloads s2;
                       m_log := snd (fst filled) |} in
                  match snd filled with
                  | Some e => (s3, Stops e)
                  | None =>
                      match footprint_polygon transform (m_coord s3) entry' with
                      | Raise e => (s3, Stops (Exn e))
                      | Ok (poly, coord) =>
                          let s4 := with_coord coord s3 in
                          let feature2 := SetGeometry (Some poly) feature' in
                          match m_dlurl s4 with
                          | None => (s4, Stops (Exn (NameError "dlurl")))
                          | Some dlurl =>
                              match thumbnail sceneID dlurl poly feature2 s4 with
                              | (s5, feature3, Finished) =>
                                  (with_m_layer
                                     (CreateFeature feature3 (m_layer s5)) s5,
                                   Finished)
                              | (s5, _, ending) => (s5, ending)
                              end
                          end
                      end
                  end
              end
          | Some _ =>
              (s1, Stops (AttributeError "object has no attribute 'endswith'"))
          end
      end
  end.

(** *** The loop *)

(** The body of [for sceneID in sceneIDs: ...]. *)
Definition process_scene (sceneID : string) (s : mstate) : mstate * finish :=
  match scene_entry sceneID (m_scenedict s) with
  | Raise e => (s, Stops (Exn e))
  | Ok entry =>
      match creates_feature entry with
      | Raise e => (s, Stops (Exn e))
      | Ok true => create_scene sceneID s
      | Ok false =>
          match update_scene transform sceneID entry (m_layer s) (m_coord s) with
          | ((l, coord), None) => (with_coord coord (with_m_layer l s), Finished)
          | ((l, coord), Some e) =>
              (with_coord coord (with_m_layer l s), Stops (Exn e))
          end
      end
  end.

(** [for sceneID in sceneIDs: ...] over the keys still to come.
    [sceneIDs] is a view of the keys of [scenedict]: every step of the
    iteration, the last one included, first compares the size of the
    dictionary with its size when the loop began. *)
Fixpoint scenes_loop (todo : list string) (size : nat) (s : mstate)
    : mstate * finish :=
  if negb (List.length (m_scenedict s) =? size)%nat then
    (s, Stops (RuntimeError "dictionary changed size during iteration"))
  else
    match todo with
    | [] => (s, Finished)
    | sceneID :: rest =>
        match process_scene sceneID s with
        | (s', Finished) => scenes_loop rest size s'
        | (s', ending) => (s', ending)
        end
    end.

(** [if len(sceneIDs) > 0: for sceneID in sceneIDs: ...]. *)
Definition main_loop (s : mstate) : mstate * finish :=
  match m_scenedict s with
  | [] => (s, Finished)
  | _ => scenes_loop (keys (m_scenedict s)) (List.length (m_scenedict s)) s
  end.
End Loop.

End Scenes.

(** * Vocabulary of the statements

    The notions the properties below are stated with, and the sample data
    on which they are evaluated. *)

Import Tiles.
Import Landsat.
Open Scope list_scope.

(** ** The tile conversion *)

(** A conversion that returns or raises something [except Exception]
    catches. *)
Definition catchable (o : outcome) : bool :=
  match o with
  | Returns => true
  | Raises e => is_Exception e
  end.

(** The files whose conversion raised, with what they raised. *)
Definition failures (converttotiles : call -> outcome) (cs : list call)
    : list (string * exn) :=
  flat_map (fun c => match converttotiles c with
                     | Returns => []
                     | Raises e => [(c_file c, e)]
                     end) cs.

(** What the description of the loop promises, position by position:
    directory number [i] is converted with raster type number [i], the
    first two without the pixel QA flag, and the first two are left out
    under [--skipqa]. *)
Definition claimed_call (a : Args) (i : nat) (d f : string) : call :=
  {| c_file := f; c_outdir := outdir_of a d;
     c_rastertype := nth i rastertypes "";
     c_pixelqa := negb (i <? 2)%nat;
     c_overwrite := overwrite a; c_noupdate := noupdate a |}.

Definition claimed_calls_at (glob : string -> list string) (a : Args)
    (i : nat) : list call :=
  if skipqa a && (i <? 2)%nat then []
  else
    let d := nth i (dirs a) "" in
    map (claimed_call a i d) (flist_of glob a d).

Definition claimed_calls (glob : string -> list string) (a : Args)
    : list call :=
  flat_map (claimed_calls_at glob a) (range 6).

(** The call the loop makes for file [f] of the directory found at
    position [dn]. *)
Definition made_call (a : Args) (dn : nat) (out rastertype f : string) : call :=
  {| c_file := f; c_outdir := out; c_rastertype := rastertype;
     c_pixelqa := negb (dn <? 2)%nat;
     c_overwrite := overwrite a; c_noupdate := noupdate a |}.

(** The state after [cs] more calls, all of them survived. *)
Definition after (converttotiles : call -> outcome) (st : state)
    (cs : list call) : state :=
  {| calls := calls st ++ cs;
     errorlog := errorlog st ++ failures converttotiles cs;
     made := made st |}.

(** The calls the loop makes on reaching directory [d]. *)
Definition calls_on_reaching (glob : string -> list string) (a : Args)
    (d : string) : list call :=
  match index d (dirs a) with
  | Raise _ => []
  | Ok dn =>
      if skipqa a && str_in d (qa_dirs a) then []
      else map (made_call a dn (outdir_of a d) (nth dn rastertypes ""))
             (flist_of glob a d)
  end.

(** A library with one directory per product. *)
Definition sample_args : Args :=
  {| pixelqadir := "/lib/pixel_qa"; fmaskdir := "/lib/Fmask";
     srdir := "/lib/SR"; btdir := "/lib/BT"; ndvidir := "/lib/NDVI";
     evidir := "/lib/EVI"; outdir := None; vrt := false; skipqa := false;
     overwrite := false; noupdate := false |}.

(** One scene file in every directory. *)
Definition sample_glob (pattern : string) : list string :=
  if endswith pattern "L*.dat"
  then [str_slice pattern 0 (String.length pattern - 6) ++ "LC8.dat"]%string
  else [].

(** A conversion that fails on the files of the Fmask directory. *)
Definition sample_convert (c : call) : outcome :=
  if String.eqb (c_rastertype c) "Fmask"
  then Raises (OSError "cannot read") else Returns.

(** A file system in which every directory asked for is there, and one
    in which none is; an [os.mkdir] and an [ieo.logerror] that return. *)
Definition all_there (st : state) (p : string) : bool := true.
Definition none_there (st : state) (p : string) : bool := false.
Definition mkdir_returns (st : state) (p : string) : option exn := None.
Definition logerror_returns (st : state) (f : string) (e : exn)
    : option exn := None.

(** The surface reflectance directory given for brightness temperature
    as well. *)
Definition shared_dir_args : Args :=
  {| pixelqadir := "/lib/pixel_qa"; fmaskdir := "/lib/Fmask";
     srdir := "/lib/SR"; btdir := "/lib/SR"; ndvidir := "/lib/NDVI";
     evidir := "/lib/EVI"; outdir := None; vrt := false; skipqa := false;
     overwrite := false; noupdate := false |}.

(** ** The requests of [scenesearch] *)

(** [keeps P m]: when every request posted before [m] satisfies [P], so
    does every request posted once [m] has run, whether it returned or
    raised. *)
Definition keeps (P : request -> Prop) {A} (m : M A) : Prop :=
  forall s, Forall P (trace s) -> Forall P (trace (fst (m s))).

(** A request that is no search, or a search whose window respects the
    launch date of its collection and, for the Thematic Mapper collection,
    the end of the Landsat 5 mission. *)
Definition window_bounded (r : request) : Prop :=
  match r with
  | SearchRequest ds startDate endDate =>
      (ds = "LANDSAT_8_C1"%string /\ ymd2ord 2013 2 11 <= startDate)
      \/ (ds = "LANDSAT_ETM_C1"%string /\ ymd2ord 1999 4 15 <= startDate)
      \/ (ds = "LANDSAT_TM_C1"%string /\ ymd2ord 1982 7 16 <= startDate
          /\ endDate <= ymd2ord 2013 6 5)
  | MetadataRequest _ _ => True
  end.

(** ** Downloads *)

(** A network on which every attempt raises [URLError]. *)
Definition unreachable (reason : string) : nat -> string -> fetch :=
  fun _ _ => Refused reason.

(** Before the first attempt. *)
Definition no_downloads : dstate :=
  {| attempts := []; errors := []; errorsfound := false |}.

(** ** The catalogue layer *)

(** A feature of the catalogue, with the fields the validation pass and
    the updating branch touch. *)
Definition catalog_feature (id : Z) (sceneID sensor updated : string)
    (ring : list point) : Feature :=
  {| fid := Some id;
     attrs := [("sceneID", Some (VStr sceneID));
               ("SensorID", Some (VStr sensor));
               ("dateUpdated", Some (VStr updated))];
     geometry := Some ring |}.

(** The layer as it is opened: the cursor before the first feature. *)
Definition catalog_layer (fs : list Feature) : Layer :=
  {| defn := ["sceneID"; "SensorID"; "dateUpdated"]; done := []; ahead := fs |}.

(** A closed footprint. *)
Definition square : list point := [(0, 0); (10, 0); (10, 10); (0, 10); (0, 0)].

(** A feature of the catalogue without metadata. *)
Definition stale_feature : Feature :=
  catalog_feature 1 "LC82080232013101LGN00" "" "2013/05/01" square.

(** A feature with all it needs. *)
Definition good_feature : Feature :=
  catalog_feature 2 "LC82080232013117LGN00" "OLI_TIRS" "2013/05/02" square.

(** A feature of the WRS-2 layer, as the loop over that layer leaves it
    in [feature]: it has no field [sceneID]. *)
Definition wrs2_feature : Feature :=
  {| fid := Some 500;
     attrs := [("PATH", Some (VInt 208)); ("ROW", Some (VInt 23))];
     geometry := Some square |}.

(** Reading the geometry fails, or its envelope is flat. *)
Definition bad_geometry (f : Feature) : bool :=
  match geometry f with
  | None => true
  | Some ring => degenerate (GetEnvelope ring)
  end.

(** A feature with a flat envelope and no sensor. *)
Definition flat_stale_feature : Feature :=
  catalog_feature 3 "LC82080232013133LGN00" "" "2013/05/20"
    [(5, 5); (5, 5); (5, 5)].

(** Whether the pass finds one of the known sensors in a feature. *)
Definition known_sensor (f : Feature) : bool :=
  match GetField "SensorID" f with
  | Ok sensor => value_in sensor sensors
  | Raise _ => false
  end.

(** Whether the pass can read the date of the last update of a
    feature. *)
Definition dated_feature (f : Feature) : bool :=
  match GetField "dateUpdated" f with
  | Ok (Some (VStr d)) =>
      match strptime_ymd "/"%char d with
      | Ok _ => true
      | Raise _ => false
      end
  | _ => false
  end.

(** What a feature adds to [scenelist], to [updatemissing] and to
    [badgeom] when the pass examines it: its scene identifier, always;
    when its sensor is a known one and its date cannot be read; when its
    sensor is a known one and its geometry is bad. *)
Definition on_scenelist (f : Feature) : list (option value) :=
  match GetField "sceneID" f with
  | Ok sceneID => [sceneID]
  | Raise _ => []
  end.

Definition on_updatemissing (f : Feature) : list (option value) :=
  match GetField "sceneID" f with
  | Ok sceneID =>
      if known_sensor f && negb (dated_feature f) then [sceneID] else []
  | Raise _ => []
  end.

Definition on_badgeom (f : Feature) : list (option value) :=
  match GetField "sceneID" f with
  | Ok sceneID =>
      if known_sensor f && bad_geometry f then [sceneID] else []
  | Raise _ => []
  end.

(** The features the pass deletes when it examines them: those whose
    scene identifier cannot be read, and those whose sensor is not a
    known one. *)
Definition dropped (f : Feature) : bool :=
  match GetField "sceneID" f with
  | Ok _ => negb (known_sensor f)
  | Raise _ => true
  end.

(** [g] has the identifier of none of the features of [fs] that the
    pass deletes. *)
Definition survives (fs : list Feature) (g : Feature) : bool :=
  forallb (fun h => negb (dropped h && fid_eqb (fid g) (fid h))) fs.

(** ** Migration *)

Definition sample_ieo : Ieo :=
  {| ieo_srdir := "/lib/SR"; ieo_btdir := "/lib/BT";
     ieo_fmaskdir := "/lib/Fmask"; ieo_pixelqadir := "/lib/pixel_qa";
     ieo_ndvidir := "/lib/NDVI"; ieo_evidir := "/lib/EVI" |}.

(** A feature of the old shapefile with a sound geometry. *)
Definition shp_feature : Feature :=
  {| fid := Some 0;
     attrs := [("sceneID", Some (VStr "LC82080232013101LGN00"));
               ("SensorID", Some (VStr "OLI_TIRS"));
               ("tilebase", Some (VStr "LC8_2013101"))];
     geometry := Some square |}.

(** The old shapefile, with that one feature. *)
Definition sample_shapefiles (path : string)
    : result (list string * list Feature) :=
  Ok (["sceneID"; "SensorID"; "tilebase"], [shp_feature]).

(** A geometry check that finds nothing wrong with any feature. *)
Definition accepts_all : Feature -> value -> bool := fun _ _ => false.

(** The new, empty layer of the geopackage. *)
Definition new_layer : Layer :=
  {| defn := fnames; done := []; ahead := [] |}.

(** ** The updating branch *)

(** A feature as a catalogue layer stores it: it has an identifier and
    the fields the branch reads and writes. *)
Definition stored (f : Feature) : Prop :=
  fid f <> None
  /\ dict_has "sceneID" (attrs f) = true
  /\ dict_has "dateUpdated" (attrs f) = true.

(** The feature is one of scene [sceneID]. *)
Definition has_scene (sceneID : string) (f : Feature) : bool :=
  match GetField "sceneID" f with
  | Ok v => value_is v sceneID
  | Raise _ => false
  end.

(** The feature the branch writes back for a feature of the scene. *)
Definition refreshed (transform : point -> point) (coords : list point)
    (updatemodifiedDate : bool) (modified : value) (f : Feature) : Feature :=
  let f1 := SetGeometry (Some (map transform coords)) f in
  if updatemodifiedDate
  then {| fid := fid f1;
          attrs := dict_set "dateUpdated" (Some modified) (attrs f1);
          geometry := geometry f1 |}
  else f1.

(** A feature with a known sensor and a flat envelope. *)
Definition flat_feature : Feature :=
  catalog_feature 4 "LC82080232013149LGN00" "OLI_TIRS" "2013/06/01"
    [(5, 5); (5, 5); (5, 5)].

(** The metadata item of its scene, with a closed footprint. *)
Definition flat_item : MetadataItem :=
  {| metadataFields :=
       [("Landsat Product Identifier", "LC08_L1TP_208023_20130529");
        ("Landsat Scene Identifier", "LC82080232013149LGN00")];
     spatialFootprint := square;
     item_modifiedDate := "2013-06-10" |}.

(** The state of [scenesearch] once the search has found that scene. *)
Definition flat_searched : sstate :=
  {| scenedict :=
       [("LC82080232013149LGN00",
         [("updatemodifiedDate", VBool false); ("updategeom", VBool false)])];
     sceneID_var := Some "LC82080232013149LGN00";
     trace := [] |}.

(** A stand-in for the transformation to the local projection. *)
Definition to_local (p : point) : point := (fst p + 1000, snd p + 2000).

(** ** Sample inventories *)

Definition digit (n : nat) : ascii := ascii_of_nat (48 + n mod 10).

(** A day of the year in three digits. *)
Definition digit3 (n : nat) : string :=
  String (digit (n / 100)) (String (digit (n / 10)) (String (digit n) "")).

(** A Landsat 8 scene of path 208, row 23, acquired in 2013 on day [doy]. *)
Definition scene_of_day (doy : nat) : string :=
  ("LC82080232013" ++ digit3 doy ++ "LGN00")%string.

(** The search result for a scene. *)
Definition found (sceneID : string) : SearchResult :=
  {| entityId := sceneID; displayId := ("LC08_" ++ sceneID)%string;
     browseUrl := "https://earthexplorer.usgs.gov/browse/x.jpg";
     dataAccessUrl := ""; downloadUrl := ""; metadataUrl := "";
     fgdcMetadataUrl := ""; modifiedDate := "2013-07-01"; orderUrl := "" |}.

(** A hundred scenes, of days 60 to 159. *)
Definition hundred_scenes : list string :=
  map (fun n => scene_of_day (60 + n)) (seq 0 100).

(** A search from March to June 2013 over path 208, row 23. *)
Definition spring_2013 : Globals :=
  {| args_startdate := "2013-03-01"; args_enddate := "2013-06-30";
     pathrowstrs := ["208023"] |}.

(** An inventory that holds the hundred scenes in the Landsat 8 collection
    and nothing else. *)
Definition hundred_found (ds : string) (startDate endDate : Z)
    : result (list SearchResult) :=
  if String.eqb ds "LANDSAT_8_C1" then Ok (map found hundred_scenes) else Ok [].

(** A metadata service that answers with no item. *)
Definition no_metadata (ds : string) (ids : list string)
    : result (list MetadataItem) := Ok [].

(** Every literal parses. *)
Definition always (s : string) : bool := true.

(** The scene lists of the metadata requests among the requests posted. *)
Definition metadata_requests (t : list request) : list (list string) :=
  flat_map (fun r => match r with
                     | MetadataRequest _ ids => [ids]
                     | SearchRequest _ _ _ => []
                     end) t.

(** An inventory with one scene. *)
Definition one_found (ds : string) (startDate endDate : Z)
    : result (list SearchResult) :=
  if String.eqb ds "LANDSAT_8_C1" then Ok [found (scene_of_day 101)] else Ok [].

(** The metadata of that scene, with a path that is no number. *)
Definition bad_path_metadata (ds : string) (ids : list string)
    : result (list MetadataItem) :=
  Ok [{| metadataFields :=
           [("Landsat Product Identifier", "LC08_L1TP_208023_20130411");
            ("Landsat Scene Identifier", scene_of_day 101);
            ("WRS Path", "abc");
            ("WRS Row", "023")];
         spatialFootprint := square;
         item_modifiedDate := "2013-07-01" |}].

(** ** Errors of single items *)

(** The loop [for x in l: body] gets to [x] in state [s1]: the steps
    for the items before it have all returned. *)
Definition gets_to {A} (l : list A) (body : A -> M unit) (s : sstate) (x : A)
    (s1 : sstate) : Prop :=
  exists before rest, l = before ++ x :: rest
                      /\ for_each before body s = (s1, Ok tt).

(** The state once a request is posted. *)
Definition posted (r : request) (s : sstate) : sstate := fst (emit r s).

(** The name under which a metadata field is looked up. *)
Definition field_name (name : string) : string :=
  replace "L-1" "L1" (lstrip (rstrip name)).

(** The tests that let a metadata field through to its conversion, for
    a scene whose dictionary is [e]: the name is a query name, is not a
    key of [e] yet and is not ['Landsat Scene Identifier'], and the value
    is not empty. *)
Definition converted (e : dict value) (subitem : string * string) : bool :=
  str_in (field_name (fst subitem)) queryfieldnames
  && negb (dict_has (field_name (fst subitem)) e)
  && negb (String.eqb (field_name (fst subitem)) "Landsat Scene Identifier")
  && negb (String.eqb (snd subitem) "").

(** The fields whose value goes through [int]: the first row of the name
    has the type [ogr.OFTInteger], and the name does not end in ['Date']. *)
Definition integer_field (fieldname : string) : bool :=
  match index fieldname queryfieldnames with
  | Ok i =>
      match nth_error fieldvaluelist i with
      | Some row =>
          ogr_type_eqb (ftype row) OFTInteger
          && negb (endswith fieldname "Date")
      | None => false
      end
  | Raise _ => false
  end.

(** Every character is an ASCII character. *)
Definition ascii_only (s : string) : bool :=
  forallb (fun c => (nat_of_ascii c <? 128)%nat) (list_ascii_of_string s).

(** The metadata item with the path that is no number. *)
Definition bad_path_item : MetadataItem :=
  {| metadataFields :=
       [("Landsat Product Identifier", "LC08_L1TP_208023_20130411");
        ("Landsat Scene Identifier", scene_of_day 101);
        ("WRS Path", "abc");
        ("WRS Row", "023")];
     spatialFootprint := square;
     item_modifiedDate := "2013-07-01" |}.

(** The sample search once the scene of day 101 is selected, and once
    its metadata are asked for. *)
Definition one_selected : sstate :=
  Eval vm_compute in
    fst (scan_results spring_2013 [] [] [] "LANDSAT_8_C1"
           [found (scene_of_day 101)] []
           (posted (SearchRequest "LANDSAT_8_C1" 734928 735049)
              scenesearch_start)).

Definition one_asked : sstate :=
  Eval vm_compute in
    posted (MetadataRequest "LANDSAT_8_C1" [scene_of_day 101])
      (fst (for_each [scene_of_day 101] bind_sceneID one_selected)).

(** The dictionary of the scene at that point. *)
Definition one_entry : dict value :=
  Eval vm_compute in
    match dict_get (scene_of_day 101) (scenedict one_asked) with
    | Some e => e
    | None => []
    end.

(** ** The paths and rows of the run *)

Section SetupVocabulary.
Import Setup.

(** The cells one path contributes. *)
Definition cells_of_path (j : Z) (ks : list Z) : list (Z * Z) :=
  map (fun k => (j, k)) ks.

Definition cell_string (c : Z * Z) : string :=
  (format_03d (fst c) ++ format_03d (snd c))%string.

(** The cells a rectangle contributes, path by path. *)
Definition cells (js ks : list Z) : list (Z * Z) :=
  flat_map (fun j => cells_of_path j ks) js.

(** A cell of the rectangle number [i] of the configuration. *)
Definition in_rectangle (vals : list string) (i : nat) (c : Z * Z) : Prop :=
  exists p0 p1 r0 r1,
    int_at vals (i * 4) = Ok p0 /\ int_at vals (i * 4 + 1) = Ok p1
    /\ int_at vals (i * 4 + 2) = Ok r0 /\ int_at vals (i * 4 + 3) = Ok r1
    /\ p0 <= fst c <= p1 /\ r0 <= snd c <= r1.

(** Every cell listed has its path in [paths] and its row in [rows]. *)
Definition listed (w : wrs) : Prop :=
  forall s, In s (pathrowstrs w) ->
            exists c, s = cell_string c
                      /\ In (fst c) (paths w) /\ In (snd c) (rows w).

(** The number of occurrences of a character. *)
Fixpoint count_char (c : ascii) (s : string) : nat :=
  match s with
  | EmptyString => 0
  | String x s' => ((if Ascii.eqb x c then 1 else 0) + count_char c s')%nat
  end.

End SetupVocabulary.

(** ** The windows of a search, and what it asks for and records *)

(** Each window starts the day after the one before it ends. *)
Fixpoint chained (ws : list (Z * Z)) : Prop :=
  match ws with
  | w :: rest =>
      match rest with
      | w' :: _ => fst w' = snd w + 1
      | [] => True
      end /\ chained rest
  | [] => True
  end.

(** A metadata request that names wanted scenes only. *)
Definition asks_for_wanted (g : Globals)
    (scenelist updatemissing badgeom : list string) (r : request) : Prop :=
  match r with
  | MetadataRequest _ ids =>
      Forall (fun id => wanted g scenelist updatemissing badgeom id = true) ids
  | SearchRequest _ _ _ => True
  end.

(** [preserves I m]: a property of the state that holds before [m] holds
    after it, whether [m] returned or raised. *)
Definition preserves (I : sstate -> Prop) {A} (m : M A) : Prop :=
  forall s, I s -> I (fst (m s)).

(** No scene's dictionary has the key [k]. *)
Definition never_has (k : string) (s : sstate) : Prop :=
  forall sid e, dict_get sid (scenedict s) = Some e -> dict_has k e = false.

(** The metadata of the scene of day 101, with the date its Level-1
    product was generated. *)
Definition dated_metadata (ds : string) (ids : list string)
    : result (list MetadataItem) :=
  Ok [{| metadataFields :=
           [("Landsat Product Identifier", "LC08_L1TP_208023_20130411");
            ("Landsat Scene Identifier", scene_of_day 101);
            ("Date L-1 Generated", "2013/04/12");
            ("WRS Path", " 208")];
         spatialFootprint := square;
         item_modifiedDate := "2013-07-01" |}].

(** What a search of that inventory records for the scene. *)
Definition dated_entry : dict value :=
  match dict_get (scene_of_day 101)
          (scenedict (fst (scenesearch one_found dated_metadata always always
                             spring_2013 [] [] [] None))) with
  | Some e => e
  | None => []
  end.

(** ** The validation pass: counters and dates *)

(** The error counters agree with each other and with the lists. *)
Definition counted (s : vstate) : Prop :=
  v_errors_total s
  = v_errors_metadata s + v_errors_date s + v_errors_geometry s
  /\ v_errors_metadata s = Z.of_nat (List.length (v_reimport s))
  /\ v_errors_date s = Z.of_nat (List.length (v_updatemissing s))
  /\ 0 <= v_errors_geometry s <= Z.of_nat (List.length (v_badgeom s)).

(** [lastmodifiedDate] is the text of [lastupdate]. *)
Definition dated (s : vstate) : Prop :=
  match v_lastupdate s with
  | None => v_lastmodifiedDate s = None
  | Some t =>
      exists d, v_lastmodifiedDate s = Some (VStr d)
                /\ strptime_ymd "/"%char d = Ok t
  end.

(** The character that replaces a slash in a date. *)
Definition unslashed (c : ascii) : ascii :=
  if Ascii.eqb c "/" then "-"%char else c.

(** ** More downloads *)

(** A network on which every file arrives short. *)
Definition short_files : nat -> string -> fetch := fun _ _ => Truncated.

(** ** The loop over the scenes found *)

Section ScenesVocabulary.
Import Scenes.

(** The keys of the first dictionary, in their order, begin the keys of
    the second. *)
Definition grown {V} (d d' : dict V) : Prop :=
  exists more, keys d' = keys d ++ more.

(** A scene's dictionary in the second dictionary was in the first. *)
Definition no_new_scene (d d' : dict slot) : Prop :=
  forall k e, dict_get k d' = Some (Scene e) -> dict_get k d = Some (Scene e).

(** What a step leaves of a feature: its identifier, its geometry, its
    fields, and the values of all fields but those named. *)
Definition same_but (P : string -> Prop) (f f' : Feature) : Prop :=
  fid f' = fid f /\ geometry f' = geometry f
  /\ keys (attrs f') = keys (attrs f)
  /\ forall n, ~ P n -> dict_get n (attrs f') = dict_get n (attrs f).

(** The geopackage field the loop writes for a key. *)
Definition field_of (key n : string) : Prop :=
  exists i, index key queryfieldnames = Ok i /\ nth_error fnames i = Some n.

(** The feature after the loop over the keys of a scene's dictionary. *)
Definition filled_feature (float_nonzero : string -> bool)
    (todo : list string) (entry : dict value) (f : Feature)
    (errors : list (string * logged)) : Feature :=
  snd (fst (fst (fill float_nonzero todo entry f errors))).

(** The geopackage field that the loop writes for a query name: the one
    of the first row of [fieldvaluelist] with that name. *)
Definition field_for (key : string) : option string :=
  match index key queryfieldnames with
  | Ok i => nth_error fnames i
  | Raise _ => None
  end.

(** The geopackage fields that some query name leads to. *)
Definition written_fields : list string :=
  flat_map (fun key => match field_for key with
                       | Some n => [n]
                       | None => []
                       end) queryfieldnames.

(** Whether a scene's dictionary holds, under a query name that leads to
    the field, a value that [if value:] lets through. *)
Definition has_true_value (float_nonzero : string -> bool)
    (entry : dict value) (n : string) : bool :=
  existsb (fun key => match dict_get key entry, field_for key with
                      | Some v, Some m =>
                          is_true float_nonzero v && String.eqb m n
                      | _, _ => false
                      end) queryfieldnames.

(** *** A sample run of the loop *)

(** The tile fields of the script, with the directories of the sample
    library. *)
Definition script_fielddict : dict (dict string) :=
  [("Brightness_temperature_tiles",
    [("ext", "_BT_ITM.dat"); ("dirname", "/lib/BT")]);
   ("CFmask_tiles", [("ext", "_cfmask.dat"); ("dirname", "/lib/Fmask")]);
   ("Pixel_QA_tiles",
    [("ext", "_pixel_qa.dat"); ("dirname", "/lib/pixel_qa")]);
   ("NDVI_tiles", [("ext", "_NDVI.dat"); ("dirname", "/lib/NDVI")]);
   ("EVI_tiles", [("ext", "_EVI.dat"); ("dirname", "/lib/EVI")])].

(** The empty layer of the geopackage, with all its fields. *)
Definition gpkg_layer : Layer :=
  {| defn := fnames ++ ["MaskType"; "Thumbnail_filename";
                        "Surface_reflectance_tiles";
                        "Brightness_temperature_tiles"; "Fmask_tiles";
                        "Pixel_QA_tiles"; "NDVI_tiles"; "EVI_tiles";
                        "Tile_filename_base"];
     done := []; ahead := [] |}.

(** What a search leaves for a new scene without clouds. *)
Definition clear_scene (address : string) : dict value :=
  [("Landsat Product Identifier", VStr "LC08_L1TP_208023_20130411");
   ("browseUrl", VStr address);
   ("modifiedDate", VStr "2013/07/01");
   ("Dataset Identifier", VStr "LANDSAT_8_C1");
   ("updatemodifiedDate", VBool false);
   ("updategeom", VBool false);
   ("WRS Path", VInt 208);
   ("Cloud Cover Truncated", VInt 0);
   ("Ground Control Points Version", VInt 4);
   ("Acquisition Date", VDate 734969);
   ("coords", VCoords square);
   ("Spacecraft Identifier", VStr "LANDSAT_8")].

(** The names of the script before the loop over the scenes found, with
    that one scene. *)
Definition before_loop (address : string) : mstate :=
  {| m_scenedict := [("LC82080232013101LGN00", Scene (clear_scene address))];
     m_layer := gpkg_layer; m_scenelist := []; m_thumbnails := [];
     m_dlurl := None; m_coord := None; m_downloads := no_downloads;
     m_log := [] |}.

(** A library with one NDVI tile of that day. *)
Definition one_tile (pattern : string) : list string :=
  if String.eqb pattern "/lib/NDVI/LC8_2013101*.dat"
  then ["/lib/NDVI/LC8_2013101_A1.dat"] else [].

(** A library without tiles. *)
Definition no_tiles (pattern : string) : list string := [].

(** Every tile names the scene among its parent rasters. *)
Definition all_hold (sceneID hdr : string) : result bool := Ok true.

(** Every download completes. *)
Definition complete : nat -> string -> fetch := fun _ _ => Complete.

(** A file is on disk once a download has been tried. *)
Definition after_download (tried : nat) (path : string) : bool :=
  (0 <? tried)%nat.

(** Every file is on disk. *)
Definition on_disk (tried : nat) (path : string) : bool := true.

(** [makeworldfile] returns. *)
Definition world_file_made (jpg : string) (poly : list point) : option exn :=
  None.

(** The identifier the layer gives the next feature. *)
Definition count_fid (l : Layer) : Z :=
  Z.of_nat (List.length (all_features l)) + 1.

(** The scene is added to the sample catalogue. *)
Definition sample_added (address : string) : mstate * finish :=
  create_scene no_tiles all_hold always to_local complete after_download
    world_file_made count_fid script_fielddict "/cat/Thumbnails" true 5
    "LC82080232013101LGN00" (before_loop address).

(** The feature it adds. *)
Definition added_feature : Feature :=
  last (all_features
          (m_layer (fst (sample_added
                           "https://earthexplorer.usgs.gov/browse/x.jpg"))))
    (blank_feature gpkg_layer).

(** [scenedict] after [findlocalfiles] has found the tile. *)
Definition with_tile : dict slot :=
  match findlocalfiles one_tile all_hold script_fielddict
          "LC82080232013101LGN00"
          (m_scenedict (before_loop "https://x/x.jpg")) with
  | Ok d => d
  | Raise _ => []
  end.

End ScenesVocabulary.

(** ** More of the updating branch *)

(** What the search leaves for a scene whose geometry is to be replaced. *)
Definition geometry_update : dict value :=
  [("updatemodifiedDate", VBool false); ("updategeom", VBool true);
   ("coords", VCoords square)].

(** The catalogue after the update of the scene of [flat_feature]. *)
Definition flat_updated : Layer * option point :=
  fst (update_scene to_local "LC82080232013149LGN00" geometry_update
         (catalog_layer [good_feature; flat_feature]) None).

(** ** More runs of the tile conversion *)

(** The run stopped where a conversion raised [e]: that call is the last
    one made. *)
Definition stopped_by (converttotiles : call -> outcome) (e : exn)
    (st : state) : Prop :=
  exists before c,
    calls st = before ++ [c] /\ converttotiles c = Raises e.

(** The run stopped where [os.mkdir] raised [e], for a directory that
    was not there: it is the last directory [os.mkdir] was called for. *)
Definition stopped_by_mkdir (isdir : state -> string -> bool)
    (mkdir : state -> string -> option exn) (e : exn) (st : state) : Prop :=
  exists st0 p,
    made st = made st0 ++ [p] /\ isdir st0 p = false /\ mkdir st0 p = Some e.

(** The run stopped where [ieo.logerror] raised [e] in the handler: its
    entry is the last one of the log, for a file whose conversion had
    raised an [Exception]. *)
Definition stopped_by_logerror (converttotiles : call -> outcome)
    (logerror : state -> string -> exn -> option exn) (e : exn) (st : state)
    : Prop :=
  exists st0 c f e0,
    errorlog st = errorlog st0 ++ [(f, e0)]
    /\ c_file c = f /\ converttotiles c = Raises e0
    /\ is_Exception e0 = true /\ logerror st0 f e0 = Some e.

(** An [os.mkdir] that finds no parent directory. *)
Definition no_parent (st : state) (p : string) : option exn :=
  Some (OSError "No such file or directory").

(** The sample library, converted with [--skipqa] into [/tiles]. *)
Definition skipqa_args : Args :=
  {| pixelqadir := "/lib/pixel_qa"; fmaskdir := "/lib/Fmask";
     srdir := "/lib/SR"; btdir := "/lib/BT"; ndvidir := "/lib/NDVI";
     evidir := "/lib/EVI"; outdir := Some "/tiles"; vrt := false;
     skipqa := true; overwrite := false; noupdate := false |}.

(** A conversion interrupted from the keyboard at the first NDVI file. *)
Definition interrupted (c : call) : outcome :=
  if String.eqb (c_rastertype c) "NDVI"
  then Raises KeyboardInterrupt else Returns.

(** * Properties *)

(** ** The tile conversion loop *)

Lemma index_in x l : In x l -> exists i, index x l = Ok i.
Proof.
  induction l as [|y l IH]; simpl; [tauto|].
  intros [->|Hin].
  - rewrite String.eqb_refl. exists 0%nat. reflexivity.
  - destruct (String.eqb y x); [exists 0%nat; reflexivity|].
    destruct (IH Hin) as [i ->]. simpl. exists (S i). reflexivity.
Qed.

Section TilesFacts.
Import Tiles.
Variable glob : string -> list string.
Variable converttotiles : call -> outcome.
Variable isdir : state -> string -> bool.
Variable mkdir : state -> string -> option exn.
Variable logerror : state -> string -> exn -> option exn.

Lemma after_nil st : after converttotiles st [] = st.
Proof.
  destruct st. unfold after. simpl. now rewrite !app_nil_r.
Qed.

Lemma after_app st cs cs' :
  after converttotiles (after converttotiles st cs) cs'
  = after converttotiles st (cs ++ cs').
Proof.
  unfold after, failures. simpl.
  now rewrite flat_map_app, !app_assoc.
Qed.

Hypothesis survivable : forall c, catchable (converttotiles c) = true.
Hypothesis mkdir_goes : forall st p, mkdir st p = None.
Hypothesis logerror_goes : forall st f e, logerror st f e = None.

Lemma convert_files_after a dn out rastertype flist st :
  nth_error rastertypes dn = Some rastertype ->
  convert_files converttotiles logerror a dn out flist st
  = (after converttotiles st (map (made_call a dn out rastertype) flist),
     None).
Proof.
  intros Hrt. revert st.
  induction flist as [|f rest IH]; intros st; simpl.
  - now rewrite after_nil.
  - rewrite Hrt. fold (made_call a dn out rastertype f).
    pose proof (survivable (made_call a dn out rastertype f)) as Hc.
    unfold catchable in Hc.
    destruct (converttotiles (made_call a dn out rastertype f)) as [|e] eqn:E.
    + rewrite IH. f_equal.
      change (made_call a dn out rastertype f
                :: map (made_call a dn out rastertype) rest)
        with ([made_call a dn out rastertype f]
                ++ map (made_call a dn out rastertype) rest).
      rewrite <- after_app. f_equal.
      unfold after, failures. simpl. rewrite E. simpl.
      now rewrite app_nil_r.
    + rewrite Hc, logerror_goes, IH. f_equal.
      change (made_call a dn out rastertype f
                :: map (made_call a dn out rastertype) rest)
        with ([made_call a dn out rastertype f]
                ++ map (made_call a dn out rastertype) rest).
      rewrite <- after_app. f_equal.
      unfold after, failures. simpl. now rewrite E.
Qed.

Lemma index_bound x l i : index x l = Ok i -> (i < List.length l)%nat.
Proof.
  revert i. induction l as [|y l IH]; intros i; simpl; [discriminate|].
  destruct (String.eqb y x).
  - intros [= <-]. lia.
  - destruct (index x l) as [k|]; simpl; [|discriminate].
    intros [= <-]. specialize (IH k eq_refl). lia.
Qed.

Lemma rastertype_at dn :
  (dn < 6)%nat -> nth_error rastertypes dn = Some (nth dn rastertypes "").
Proof.
  intros H. do 6 (destruct dn as [|dn]; [reflexivity|]). lia.
Qed.

(** An output directory is made, or found, without a call or a log
    entry. *)
Lemma ensure_outdir_goes a p st :
  exists st0,
    ensure_outdir isdir mkdir a p st = (st0, None)
    /\ calls st0 = calls st /\ errorlog st0 = errorlog st.
Proof.
  unfold ensure_outdir, ensure_dir.
  destruct (outdir_given a); [|eauto].
  destruct (isdir st p); [eauto|].
  rewrite mkdir_goes. eauto.
Qed.

Lemma visit_after a todo st :
  incl todo (dirs a) ->
  exists st',
    visit glob converttotiles isdir mkdir logerror a todo st = (st', None)
    /\ calls st' = calls st ++ flat_map (calls_on_reaching glob a) todo
    /\ errorlog st'
       = errorlog st
         ++ failures converttotiles (flat_map (calls_on_reaching glob a) todo).
Proof.
  revert st. induction todo as [|d rest IH]; intros st Hincl;
    cbn [visit flat_map].
  - exists st. unfold failures. cbn. now rewrite !app_nil_r.
  - assert (Hd : In d (dirs a)) by (apply Hincl; now left).
    assert (Hrest : incl rest (dirs a))
      by (intros x Hx; apply Hincl; now right).
    destruct (index_in _ _ Hd) as [dn Hdn].
    assert (Hcs : calls_on_reaching glob a d
                  = if skipqa a && str_in d (qa_dirs a) then []
                    else map (made_call a dn (outdir_of a d)
                                (nth dn rastertypes ""))
                           (flist_of glob a d))
      by (unfold calls_on_reaching; now rewrite Hdn).
    rewrite Hcs, Hdn. clear Hcs.
    destruct (skipqa a && str_in d (qa_dirs a)).
    + cbn [app]. apply IH, Hrest.
    + pose proof (index_bound _ _ _ Hdn) as Hlt.
      destruct (ensure_outdir_goes a (outdir_of a d) st)
        as [st0 [-> [Hcalls Hlog]]].
      rewrite (convert_files_after a dn _ _ _ _ (rastertype_at dn Hlt)).
      destruct (IH (after converttotiles st0
                      (map (made_call a dn (outdir_of a d)
                              (nth dn rastertypes ""))
                         (flist_of glob a d))) Hrest)
        as [st' [-> [Hc Hl]]].
      exists st'. split; [reflexivity|].
      cbn [after calls errorlog] in Hc, Hl.
      rewrite Hc, Hl, Hcalls, Hlog. unfold failures.
      now rewrite flat_map_app, !app_assoc.
Qed.

Lemma main_after a :
  exists st',
    main glob converttotiles isdir mkdir logerror a = (st', None)
    /\ calls st' = flat_map (calls_on_reaching glob a) (dirs a)
    /\ errorlog st'
       = failures converttotiles
           (flat_map (calls_on_reaching glob a) (dirs a)).
Proof.
  unfold main.
  assert (Hgo : forall st0, calls st0 = [] -> errorlog st0 = [] ->
            exists st',
              visit glob converttotiles isdir mkdir logerror a (dirs a) st0
              = (st', None)
              /\ calls st' = flat_map (calls_on_reaching glob a) (dirs a)
              /\ errorlog st'
                 = failures converttotiles
                     (flat_map (calls_on_reaching glob a) (dirs a))).
  { intros st0 Hc Hl.
    destruct (visit_after a (dirs a) st0 (incl_refl _)) as [st' [-> [H1 H2]]].
    exists st'. rewrite H1, H2, Hc, Hl. auto. }
  destruct (outdir_given a) as [o|] eqn:Eo; [|now apply Hgo].
  pose proof (ensure_outdir_goes a o start) as [st0 [Hst0 [Hc Hl]]].
  unfold ensure_outdir in Hst0. rewrite Eo in Hst0. rewrite Hst0.
  now apply Hgo.
Qed.
End TilesFacts.

Section TilesClaims.
Import Tiles.

Ltac distinct_dirs :=
  repeat match goal with
         | H : NoDup (_ :: _) |- _ => inversion H; clear H; subst
         | H : NoDup [] |- _ => clear H
         end;
  cbn [In] in *;
  repeat match goal with
         | H : ~ (_ \/ _) |- _ =>
             apply Decidable.not_or in H; destruct H
         | H : ~ False |- _ => clear H
         end;
  repeat match goal with
         | H : ?x <> ?y |- _ =>
             let H1 := fresh in
             let H2 := fresh in
             pose proof (proj2 (String.eqb_neq x y) H) as H1;
             pose proof H1 as H2; rewrite String.eqb_sym in H2;
             clear H
         end.

Lemma reaching_is_claimed glob a :
  NoDup (dirs a) ->
  flat_map (calls_on_reaching glob a) (dirs a) = claimed_calls glob a.
Proof.
  intros Hnd. unfold claimed_calls, range. unfold dirs in Hnd.
  distinct_dirs.
  unfold calls_on_reaching, claimed_calls_at, dirs, qa_dirs, str_in.
  cbn [seq flat_map index existsb nth bind Nat.ltb Nat.leb].
  repeat match goal with
         | H : String.eqb _ _ = false |- _ => rewrite !H
         end.
  rewrite !String.eqb_refl.
  cbn [bind orb andb negb].
  rewrite !andb_true_r, !andb_false_r.
  destruct (skipqa a); reflexivity.
Qed.



End TilesClaims.

(** ** The search windows *)

Section WindowFacts.
Import Landsat.

Lemma add_days_ok t n r : add_days t n = Ok r -> r = t + n.
Proof.
  unfold add_days.
  destruct ((1 <=? t + n) && (t + n <=? MAXORDINAL)); congruence.
Qed.

(** Every window of the loop lies between the first date and the end date. *)
Lemma windows_within datetuple enddatetuple w :
  In w (fst (windows datetuple enddatetuple)) ->
  datetuple <= fst w /\ snd w <= enddatetuple.
Proof.
  funelim (windows datetuple enddatetuple); simpl; try tauto.
  - pose proof (add_days_ok _ _ _ H365) as E365.
    pose proof (add_days_ok _ _ _ Hnext) as Enext.
    pose proof (proj1 (Z.ltb_lt _ _) Hlt) as Hlt'.
    intros [<-|Hin]; simpl.
    + destruct (e0 >? enddatetuple) eqn:E; lia.
    + match goal with
      | IH : forall w, In w _ -> _ |- _ => destruct (IH _ Hin) as [IH1 IH2]
      end.
      split; [|assumption].
      destruct (e0 >? enddatetuple) eqn:E; lia.
  - pose proof (add_days_ok _ _ _ H365) as E365.
    pose proof (proj1 (Z.ltb_lt _ _) Hlt) as Hlt'.
    intros [<-|[]]; simpl.
    destruct (e0 >? enddatetuple) eqn:E; lia.
Qed.

(** The first date of a collection is not before its launch date, and the
    end date of the Thematic Mapper collection is not after the end of the
    Landsat 5 mission. *)
Lemma window_bounds_launch g datasetName launch lastmod updatemissing badgeom
    first datetuple enddatetuple :
  strptime_ymd "-"%char launch = Ok first ->
  window_bounds g datasetName launch lastmod updatemissing badgeom
    = Ok (datetuple, enddatetuple) ->
  first <= datetuple
  /\ (datasetName = "LANDSAT_TM_C1"%string -> enddatetuple <= ymd2ord 2013 6 5).
Proof.
  intros Hlaunch. unfold window_bounds.
  match goal with
  | |- context [bind (strptime_ymd _ ?x) _] =>
      destruct (strptime_ymd "-"%char x) as [d|]; simpl; [|discriminate]
  end.
  rewrite Hlaunch. simpl.
  destruct (strptime_ymd "-"%char (args_enddate g)) as [e|]; simpl;
    [|discriminate].
  destruct (String.eqb datasetName "LANDSAT_TM_C1") eqn:Etm.
  - change (strptime_ymd "-"%char "2013-06-05") with (Ok (ymd2ord 2013 6 5)).
    simpl. intros [= <- <-]. split.
    + destruct (d <? first) eqn:E; [lia|]. apply Z.ltb_ge in E. lia.
    + intros _. destruct (ymd2ord 2013 6 5 <? e) eqn:E; [lia|].
      apply Z.ltb_ge in E. lia.
  - intros [= <- <-]. split.
    + destruct (d <? first) eqn:E; [lia|]. apply Z.ltb_ge in E. lia.
    + intros ->. discriminate Etm.
Qed.

(** *** What stays true of the requests posted *)

Lemma keeps_ret P A (a : A) : keeps P (ret a).
Proof. intros s H. exact H. Qed.

Lemma keeps_raise P A e : keeps P (@raise A e).
Proof. intros s H. exact H. Qed.

Lemma keeps_lift P A (r : result A) : keeps P (lift r).
Proof. intros s H. exact H. Qed.

Lemma keeps_bind P A B (m : M A) (k : A -> M B) :
  keeps P m -> (forall a, keeps P (k a)) -> keeps P (bindM m k).
Proof.
  intros Hm Hk s H. unfold bindM.
  specialize (Hm s H). destruct (m s) as [s' [a|e]]; simpl in *.
  - now apply Hk.
  - exact Hm.
Qed.

Lemma keeps_for_each P A (l : list A) (body : A -> M unit) :
  (forall x, In x l -> keeps P (body x)) -> keeps P (for_each l body).
Proof.
  induction l as [|x l IH]; intros Hbody; simpl.
  - apply keeps_ret.
  - apply keeps_bind.
    + apply Hbody. now left.
    + intros _. apply IH. intros y Hy. apply Hbody. now right.
Qed.

Lemma keeps_emit P r : P r -> keeps P (emit r).
Proof.
  intros Hr s H. simpl. apply Forall_app. split; [exact H|].
  constructor; [exact Hr|constructor].
Qed.

Lemma keeps_bind_sceneID P sid : keeps P (bind_sceneID sid).
Proof. intros s H. exact H. Qed.

Lemma keeps_read_sceneID P : keeps P read_sceneID.
Proof. intros s H. unfold read_sceneID. now destruct (sceneID_var s). Qed.

Lemma keeps_entry_of P sid : keeps P (entry_of sid).
Proof.
  intros s H. unfold entry_of. now destruct (dict_get sid (scenedict s)).
Qed.

Lemma keeps_set_entry P sid e : keeps P (set_entry sid e).
Proof. intros s H. exact H. Qed.

Lemma keeps_set_field P sid k v : keeps P (set_field sid k v).
Proof.
  unfold set_field. apply keeps_bind.
  - apply keeps_entry_of.
  - intros e. apply keeps_set_entry.
Qed.

Create HintDb keeps.
#[local] Hint Resolve keeps_ret keeps_raise keeps_lift keeps_bind_sceneID
  keeps_read_sceneID keeps_entry_of keeps_set_entry keeps_set_field : keeps.

(** Takes a goal [keeps P m] apart along the binds and case distinctions
    of [m]. *)
Ltac keeps_step :=
  match goal with
  | |- keeps _ (bindM _ _) => apply keeps_bind; [|intros ?]
  | |- keeps _ (if ?c then _ else _) => destruct c
  | |- keeps _ (match ?x with _ => _ end) => destruct x
  | |- keeps _ _ => solve [auto with keeps]
  end.

Lemma keeps_scan_results P g scenelist updatemissing badgeom ds results ql :
  keeps P (scan_results g scenelist updatemissing badgeom ds results ql).
Proof.
  revert ql. induction results as [|r rest IH]; intros ql; simpl.
  - apply keeps_ret.
  - repeat keeps_step; apply IH.
Qed.

Section Oracles.
Variable usgs_search : string -> Z -> Z -> result (list SearchResult).
Variable usgs_metadata : string -> list string -> result (list MetadataItem).
Variable float_parses : string -> bool.
Variable time_parses : string -> bool.
Variable g : Globals.
Variables scenelist updatemissing badgeom : list string.
Variable lastmodifiedDate : option string.
Variable P : request -> Prop.

Lemma keeps_convert sid fieldname val t :
  keeps P (convert float_parses time_parses sid fieldname val t).
Proof. unfold convert. repeat keeps_step. Qed.

Lemma keeps_record_field sid subitem :
  keeps P (record_field float_parses time_parses sid subitem).
Proof.
  unfold record_field. repeat keeps_step. apply keeps_convert.
Qed.

Lemma keeps_find_sceneID fields : keeps P (find_sceneID fields).
Proof. unfold find_sceneID. repeat keeps_step. Qed.

Lemma keeps_record_item item :
  keeps P (record_item float_parses time_parses updatemissing badgeom item).
Proof.
  unfold record_item, flag_item. destruct (metadataFields item) as [|f fs].
  - apply keeps_ret.
  - repeat keeps_step.
    + apply keeps_find_sceneID.
    + apply keeps_for_each. intros x _. apply keeps_record_field.
Qed.

Lemma keeps_query_block ds b :
  P (MetadataRequest ds b) ->
  keeps P (query_block usgs_metadata float_parses time_parses updatemissing
             badgeom ds b).
Proof.
  intros Hb. unfold query_block. repeat keeps_step.
  - apply keeps_for_each. intros x _. apply keeps_bind_sceneID.
  - now apply keeps_emit.
  - apply keeps_for_each. intros x _. apply keeps_record_item.
Qed.

Lemma keeps_query_window ds w :
  P (SearchRequest ds (fst w) (snd w)) ->
  (forall querylist b,
      In b (metadata_blocks querylist) -> P (MetadataRequest ds b)) ->
  keeps P (query_window usgs_search usgs_metadata float_parses time_parses g
             scenelist updatemissing badgeom ds w).
Proof.
  intros Hw Hb. unfold query_window. repeat keeps_step.
  - now apply keeps_emit.
  - apply keeps_scan_results.
  - apply keeps_for_each. intros b Hin. apply keeps_query_block. eauto.
Qed.
End Oracles.

Lemma keeps_bind_lift P A B (r : result A) (k : A -> M B) :
  (forall a, r = Ok a -> keeps P (k a)) -> keeps P (bindM (lift r) k).
Proof.
  intros Hk s H. unfold bindM, lift. destruct r as [a|e]; simpl.
  - now apply Hk.
  - exact H.
Qed.

(** Replaces the ordinal of a literal date by its number. *)
Ltac ordinals :=
  repeat match goal with
         | |- context [ymd2ord ?y ?m ?d] =>
             let v := eval vm_compute in (ymd2ord y m d) in
             change (ymd2ord y m d) with v
         | H : context [ymd2ord ?y ?m ?d] |- _ =>
             let v := eval vm_compute in (ymd2ord y m d) in
             change (ymd2ord y m d) with v in H
         end.

Lemma keeps_search_dataset usgs_search usgs_metadata float_parses time_parses
    g scenelist updatemissing badgeom lastmodifiedDate ds :
  In ds datasetNames ->
  keeps window_bounded
    (search_dataset usgs_search usgs_metadata float_parses time_parses g
       scenelist updatemissing badgeom lastmodifiedDate ds).
Proof.
  intros Hds. unfold search_dataset.
  apply keeps_bind_lift. intros [datetuple enddatetuple] Hb.
  assert (Hwin : forall w,
             In w (fst (windows datetuple enddatetuple)) ->
             window_bounded (SearchRequest (fst ds) (fst w) (snd w))).
  { intros w Hw. apply windows_within in Hw. destruct Hw as [Hlo Hhi].
    simpl in Hds.
    destruct Hds as [<-|[<-|[<-|[]]]]; simpl fst in *; simpl snd in *;
      (eapply window_bounds_launch in Hb; [|vm_compute; reflexivity]);
      destruct Hb as [Hfirst Hlast]; simpl; ordinals.
    - left. split; [reflexivity|lia].
    - right; left. split; [reflexivity|lia].
    - right; right. specialize (Hlast eq_refl).
      split; [reflexivity|]. split; lia. }
  simpl fst; simpl snd.
  apply keeps_bind.
  - apply keeps_for_each. intros w Hw. apply keeps_query_window.
    + now apply Hwin.
    + intros; exact I.
  - intros _. destruct (snd (windows datetuple enddatetuple)).
    + apply keeps_raise.
    + apply keeps_ret.
Qed.

Lemma scenesearch_keeps_bounded usgs_search usgs_metadata float_parses
    time_parses g scenelist updatemissing badgeom lastmodifiedDate :
  Forall window_bounded
    (trace (fst (scenesearch usgs_search usgs_metadata float_parses
                   time_parses g scenelist updatemissing badgeom
                   lastmodifiedDate))).
Proof.
  unfold scenesearch.
  match goal with
  | |- Forall _ (trace (fst (?m scenesearch_start))) =>
      assert (Hk : keeps window_bounded m)
  end.
  { apply keeps_bind.
    - apply keeps_for_each. intros ds Hds. now apply keeps_search_dataset.
    - intros _ s H. exact H. }
  apply Hk. constructor.
Qed.

(** C10: every search request that [scenesearch] posts has a window that
    starts no earlier than the launch date of its collection (2013-02-11,
    1999-04-15, 1982-07-16), and a window of the Thematic Mapper collection
    ends no later than 2013-06-05. *)
Theorem scenesearch_windows_bounded usgs_search usgs_metadata float_parses
    time_parses g scenelist updatemissing badgeom lastmodifiedDate
    ds startDate endDate :
  In (SearchRequest ds startDate endDate)
    (trace (fst (scenesearch usgs_search usgs_metadata float_parses
                   time_parses g scenelist updatemissing badgeom
                   lastmodifiedDate))) ->
  (ds = "LANDSAT_8_C1"%string /\ ymd2ord 2013 2 11 <= startDate)
  \/ (ds = "LANDSAT_ETM_C1"%string /\ ymd2ord 1999 4 15 <= startDate)
  \/ (ds = "LANDSAT_TM_C1"%string /\ ymd2ord 1982 7 16 <= startDate
      /\ endDate <= ymd2ord 2013 6 5).
Proof.
  intros Hin.
  pose proof (scenesearch_keeps_bounded usgs_search usgs_metadata
                float_parses time_parses g scenelist updatemissing badgeom
                lastmodifiedDate) as Hall.
  rewrite Forall_forall in Hall.
  exact (Hall _ Hin).
Qed.
End WindowFacts.

(** ** The download loops *)

Section DownloadFacts.
Import Landsat.

(** On such a network the loop of [dlthumb] is still running after any
    number of passes: [tries] stays where it was and every pass is one
    more attempt. *)
Lemma dlthumb_loop_unreachable reason u fuel tries s :
  tries < 6 ->
  exists s',
    dlthumb_loop (unreachable reason) fuel (Some u) tries false s
    = StillLooping tries s'
    /\ List.length (attempts s') = (List.length (attempts s) + fuel)%nat.
Proof.
  intros Htries. revert s.
  induction fuel as [|fuel IH]; intros s; simpl;
    rewrite (proj2 (Z.ltb_lt tries 6) Htries); simpl.
  - exists s. split; [reflexivity|lia].
  - destruct (IH (logerror u reason (attempt u s))) as [s' [Hrun Hlen]].
    exists s'. split; [exact Hrun|].
    rewrite Hlen. simpl. rewrite length_app. simpl. lia.
Qed.

(** C3, at the failing input: with the thumbnail server unreachable,
    [dlthumb] has made as many attempts as it was given passes, for any
    number of passes, and has neither returned nor logged the failure of
    the item; six passes give six attempts. *)
Theorem dlthumb_retries_without_bound reason url jpgdir u fuel :
  exists tries s',
    dlthumb (unreachable reason) fuel (Some u) url jpgdir no_downloads
    = StillLooping tries s'
    /\ List.length (attempts s') = fuel.
Proof.
  unfold dlthumb.
  destruct (dlthumb_loop_unreachable reason u fuel 1 no_downloads)
    as [s' [Hrun Hlen]]; [lia|].
  exists 1, s'. rewrite Hrun. split; [reflexivity|exact Hlen].
Qed.

Lemma dlxmls_loop_downloaded net urlname fuel tries s :
  dlxmls_loop net fuel urlname tries true s = Returned (tries, true) s.
Proof. destruct fuel; reflexivity. Qed.

(** The loop of [dlxmls] counts every failed attempt: from [tries],
    [6 - tries] passes are enough for it to end, it makes no more attempts
    than that, and when it ends without the file [tries] has reached 6. *)
Lemma dlxmls_loop_bounded net urlname fuel tries s :
  1 <= tries <= 6 ->
  (Z.to_nat (6 - tries) <= fuel)%nat ->
  (exists tries' downloaded' s',
      dlxmls_loop net fuel urlname tries false s
      = Returned (tries', downloaded') s'
      /\ (List.length (attempts s')
          <= List.length (attempts s) + Z.to_nat (6 - tries))%nat
      /\ (downloaded' = false -> tries' = 6))
  \/ (exists e s',
      dlxmls_loop net fuel urlname tries false s = Raised e s'
      /\ (List.length (attempts s')
          <= List.length (attempts s) + Z.to_nat (6 - tries))%nat).
Proof.
  revert tries s.
  induction fuel as [|fuel IH]; intros tries s Htries Hfuel.
  - assert (tries = 6) by lia. subst. simpl.
    left. exists 6, false, s. split; [reflexivity|]. split; [lia|auto].
  - cbn [dlxmls_loop negb andb]. destruct (tries <? 6) eqn:Elt.
    + apply Z.ltb_lt in Elt.
      destruct (net (List.length (attempts s)) urlname) as [| |reason|e].
      * rewrite dlxmls_loop_downloaded. left.
        exists tries, true, (attempt urlname s).
        split; [reflexivity|]. split; [|discriminate].
        cbn [attempt attempts]. rewrite length_app. cbn [List.length]. lia.
      * rewrite dlxmls_loop_downloaded. left.
        exists tries, true, (attempt urlname s).
        split; [reflexivity|]. split; [|discriminate].
        cbn [attempt attempts]. rewrite length_app. cbn [List.length]. lia.
      * destruct (IH (tries + 1) (logerror urlname reason (attempt urlname s)))
          as [[t' [d' [s' [Hrun [Hlen Hfail]]]]]|[e [s' [Hrun Hlen]]]];
          try lia.
        -- left. exists t', d', s'. split; [exact Hrun|]. split; [|exact Hfail].
           cbn [logerror attempt attempts] in Hlen.
           rewrite length_app in Hlen. cbn [List.length] in Hlen. lia.
        -- right. exists e, s'. split; [exact Hrun|].
           cbn [logerror attempt attempts] in Hlen.
           rewrite length_app in Hlen. cbn [List.length] in Hlen. lia.
      * right. exists e, (attempt urlname s). split; [reflexivity|].
        cbn [attempt attempts]. rewrite length_app. cbn [List.length]. lia.
    + apply Z.ltb_ge in Elt. left. exists tries, false, s.
      split; [reflexivity|]. split; [lia|]. intros _. lia.
Qed.
(** With five passes for each item [dlxmls] never stays in a loop: it
    returns or raises. *)
Lemma dlxmls_items_end net file_exists today fuel startdate enddate ingestdir
    items s :
  (5 <= fuel)%nat ->
  forall tries s',
    dlxmls_items net file_exists today fuel startdate enddate ingestdir
      items s
    <> StillLooping tries s'.
Proof.
  intros Hfuel. revert s.
  induction items as [|[x p] rest IH]; intros s tries s'; simpl.
  - discriminate.
  - destruct (file_exists (path_join ingestdir x)
              && match today with
                 | Some _ => false
                 | None => true
                 end); [discriminate|].
    destruct (xml_url p startdate enddate) as [urlname|e]; [|discriminate].
    destruct (dlxmls_loop_bounded net urlname fuel 1 s)
      as [[t [d [s1 [Hrun _]]]]|[e [s1 [Hrun _]]]]; try lia;
      rewrite Hrun.
    + apply IH.
    + discriminate.
Qed.

End DownloadFacts.

(** ** The validation pass *)

Section ValidationFacts.
Import Landsat.

(** With [feature] bound on entry, the loop starts from that feature and
    goes on with the second feature of the layer: the first one is read
    and dropped. *)
Lemma validation_pass_from_second verbose catalog w fields f rest :
  validation_pass verbose catalog (Some w)
    {| defn := fields; done := []; ahead := f :: rest |}
  = validation_loop verbose catalog w
      (vstart {| defn := fields; done := [f]; ahead := rest |}).
Proof.
  unfold validation_pass, GetFeatureCount, all_features. 
  cbn [done ahead app List.length GetNextFeature snd].
  destruct (0 <? Z.of_nat (S (List.length rest))) eqn:E; [reflexivity|].
  apply Z.ltb_ge in E. lia.
Qed.

(** C5, at the failing inputs.  With the path/row list taken from the
    configuration file nothing has bound [feature], and the pass over a
    layer of one feature raises [NameError] with no scene identifier read
    and nothing deleted.  With [feature] left over from the WRS-2 layer,
    the pass over a layer of two features reads the scene identifier of
    the second only, and the first, which has no sensor, stays in the
    layer. *)
Theorem validation_misses_first_feature :
  (let r := validation_pass false "catalog" None
              (catalog_layer [stale_feature]) in
   snd r = Some (NameError "feature")
   /\ v_scenelist (fst r) = []
   /\ all_features (v_layer (fst r)) = [stale_feature])
  /\
  (let r := validation_pass false "catalog" (Some wrs2_feature)
              (catalog_layer [stale_feature; good_feature]) in
   snd r = None
   /\ v_scenelist (fst r) = [Some (VStr "LC82080232013117LGN00")]
   /\ v_reimport (fst r) = []
   /\ all_features (v_layer (fst r)) = [stale_feature; good_feature]).
Proof.
  split.
  - vm_compute. repeat split.
  - cbv zeta. unfold catalog_layer.
    rewrite validation_pass_from_second. vm_compute. repeat split.
Qed.


Lemma check_date_keeps f sceneID s :
  v_badgeom (check_date f sceneID s) = v_badgeom s
  /\ v_layer (check_date f sceneID s) = v_layer s.
Proof.
  unfold check_date.
  destruct (bind _ _) as [[mdate datetuple]|e]; simpl.
  - destruct (match v_lastupdate s with
              | Some lastupdate => datetuple >? lastupdate
              | None => true
              end); simpl; auto.
  - auto.
Qed.

(** The loop body on a feature with a known sensor: it ends normally, the
    feature goes on [badgeom] exactly when its geometry is bad, and the
    layer is left as it was. *)
Lemma validate_known_sensor verbose catalog f s sceneID sensor :
  GetField "sceneID" f = Ok sceneID ->
  GetField "SensorID" f = Ok sensor ->
  value_in sensor sensors = true ->
  verbose = false \/ geometry f <> None ->
  snd (validate_feature verbose catalog f s) = None
  /\ v_badgeom (fst (validate_feature verbose catalog f s))
     = (if bad_geometry f then v_badgeom s ++ [sceneID] else v_badgeom s)
  /\ v_layer (fst (validate_feature verbose catalog f s)) = v_layer s.
Proof.
  intros Hid Hsensor Hknown Hquiet.
  unfold validate_feature. rewrite Hid, Hsensor, Hknown. cbn [negb].
  match goal with
  | |- context [check_date f sceneID ?s1] =>
      destruct (check_date_keeps f sceneID s1) as [Hb Hl];
      set (s2 := check_date f sceneID s1) in *
  end.
  cbn [v_badgeom v_layer] in Hb, Hl.
  unfold check_geometry, bad_geometry.
  destruct (geometry f) as [ring|].
  - destruct (degenerate (GetEnvelope ring)); simpl; rewrite ?Hb, ?Hl; auto.
  - destruct Hquiet as [->|Hgeom]; [|congruence].
    simpl. rewrite Hb, Hl. auto.
Qed.
(** *** The pass as a whole *)

Lemma check_date_lists f sceneID s :
  v_scenelist (check_date f sceneID s) = v_scenelist s
  /\ v_updatemissing (check_date f sceneID s)
     = v_updatemissing s ++ (if dated_feature f then [] else [sceneID])
  /\ v_badgeom (check_date f sceneID s) = v_badgeom s
  /\ v_layer (check_date f sceneID s) = v_layer s.
Proof.
  unfold check_date, dated_feature.
  destruct (GetField "dateUpdated" f) as [[[| d | | | | |]|]|]; cbn;
    try (repeat split; reflexivity).
  destruct (strptime_ymd "/" d) as [t|]; cbn.
  - destruct (match v_lastupdate s with
              | Some lastupdate => t >? lastupdate
              | None => true
              end); cbn; repeat split; now rewrite ?app_nil_r.
  - repeat split; reflexivity.
Qed.

(** One body of the loop that ends normally. *)
Lemma validate_feature_lists verbose catalog f s s1 :
  validate_feature verbose catalog f s = (s1, None) ->
  v_scenelist s1 = v_scenelist s ++ on_scenelist f
  /\ v_updatemissing s1 = v_updatemissing s ++ on_updatemissing f
  /\ v_badgeom s1 = v_badgeom s ++ on_badgeom f
  /\ v_layer s1
     = if dropped f then DeleteFeature (fid f) (v_layer s) else v_layer s.
Proof.
  unfold validate_feature, on_scenelist, on_updatemissing, on_badgeom,
    dropped, known_sensor.
  destruct (GetField "sceneID" f) as [sceneID|].
  - destruct (GetField "SensorID" f) as [sensor|]; [|discriminate].
    destruct (value_in sensor sensors); cbn [negb andb].
    + match goal with
      | |- context [check_date f sceneID ?s0] =>
          destruct (check_date_lists f sceneID s0) as [H1 [H2 [H3 H4]]];
          set (s2 := check_date f sceneID s0) in *
      end.
      cbn [v_scenelist v_updatemissing v_badgeom v_layer append_scenelist]
        in H1, H2, H3, H4.
      unfold check_geometry, bad_geometry.
      destruct (geometry f) as [ring|].
      * destruct (degenerate (GetEnvelope ring)); intros [= <-]; cbn;
          rewrite ?H1, ?H2, ?H3, ?H4;
          destruct (dated_feature f); cbn; rewrite ?app_nil_r; auto.
      * destruct verbose; [discriminate|]. intros [= <-]. cbn.
        rewrite ?H1, ?H2, ?H3, ?H4.
        destruct (dated_feature f); cbn; rewrite ?app_nil_r; auto.
    + unfold drop_for_reimport.
      destruct sceneID as [[| sid | | | | |]|]; try discriminate.
      destruct (strptime_Yj (str_slice sid 9 16)); [|discriminate].
      intros [= <-]. cbn. rewrite ?app_nil_r. auto.
  - intros [= <-]. cbn. rewrite ?app_nil_r. auto.
Qed.

Lemma filter_all {A} (p : A -> bool) l :
  (forall x, In x l -> p x = true) -> filter p l = l.
Proof.
  induction l as [|x l IH]; intros H; cbn; [reflexivity|].
  rewrite (H x (or_introl eq_refl)). f_equal. apply IH.
  intros y Hy. apply H. now right.
Qed.

Lemma filter_twice {A} (p q : A -> bool) l :
  filter p (filter q l) = filter (fun x => q x && p x) l.
Proof.
  induction l as [|x l IH]; cbn; [reflexivity|].
  destruct (q x); cbn; [destruct (p x)|]; now rewrite IH.
Qed.

Lemma fid_eqb_true a b : fid_eqb a b = true -> a = b.
Proof.
  destruct a as [x|], b as [y|]; cbn; try discriminate.
  intros H. apply Z.eqb_eq in H. now subst.
Qed.

(** Deleting a feature whose identifier no feature ahead has leaves
    them all ahead. *)
Lemma ahead_kept id l :
  ~ In id (map fid (ahead l)) -> ahead (DeleteFeature id l) = ahead l.
Proof.
  intros Hid. unfold DeleteFeature. cbn [ahead]. apply filter_all.
  intros g Hg. apply negb_true_iff.
  destruct (fid_eqb (fid g) id) eqn:E; [|reflexivity].
  apply fid_eqb_true in E. exfalso. apply Hid. rewrite <- E.
  now apply in_map.
Qed.

Lemma all_features_deleted id l :
  all_features (DeleteFeature id l)
  = filter (fun g => negb (fid_eqb (fid g) id)) (all_features l).
Proof.
  unfold all_features, DeleteFeature. cbn [done ahead].
  now rewrite filter_app.
Qed.

Lemma step_layer f l l1 :
  l1 = (if dropped f then DeleteFeature (fid f) l else l) ->
  all_features l1 = filter (survives [f]) (all_features l).
Proof.
  intros ->. unfold survives. cbn [forallb].
  destruct (dropped f); cbn [andb negb].
  - rewrite all_features_deleted. apply filter_ext.
    intros g. now rewrite andb_true_r.
  - symmetry. apply filter_all. reflexivity.
Qed.

(** The loop, from the feature it is entered with to the end of the
    layer: when it ends normally it has examined that feature and every
    feature that was ahead, in order. *)
Lemma validation_loop_lists verbose catalog f s :
  NoDup (map fid (ahead (v_layer s))) ->
  ~ In (fid f) (map fid (ahead (v_layer s))) ->
  snd (validation_loop verbose catalog f s) = None ->
  let s' := fst (validation_loop verbose catalog f s) in
  let examined := f :: ahead (v_layer s) in
  v_scenelist s' = v_scenelist s ++ flat_map on_scenelist examined
  /\ v_updatemissing s'
     = v_updatemissing s ++ flat_map on_updatemissing examined
  /\ v_badgeom s' = v_badgeom s ++ flat_map on_badgeom examined
  /\ all_features (v_layer s')
     = filter (survives examined) (all_features (v_layer s)).
Proof.
  funelim (validation_loop verbose catalog f s);
    repeat match goal with
           | H : @eq (sigma _) _ _ |- _ => clear H
           end;
    try clear Heqcall; cbn [fst snd]; intros Hnd Hf Hend; cbv zeta.
  - discriminate.
  - (* a feature, and more to come *)
    apply validate_feature_lists in Hbody.
    destruct Hbody as [H1 [H2 [H3 H4]]].
    assert (Hall : all_features (v_layer s1)
                   = filter (survives [f]) (all_features (v_layer s)))
      by (apply step_layer; assumption).
    assert (Hahead : ahead (v_layer s1) = ahead (v_layer s)).
    { rewrite H4. destruct (dropped f); [|reflexivity].
      now apply ahead_kept. }
    unfold GetNextFeature in Hnext. rewrite Hahead in Hnext.
    destruct (ahead (v_layer s)) as [|g rest] eqn:Ea; [discriminate|].
    inversion Hnext; subst f' l'; clear Hnext.
    cbn [map] in Hnd. inversion Hnd as [|? ? Hg Hrest]; subst.
    cbn [with_layer v_layer ahead v_scenelist v_updatemissing v_badgeom]
      in H, Hend.
    specialize (H Hrest Hg Hend). destruct H as [I1 [I2 [I3 I4]]].
    rewrite I1, I2, I3, I4, H1, H2, H3.
    cbn [flat_map]. rewrite <- !app_assoc. repeat split.
    unfold all_features at 1. cbn [done ahead].
    rewrite <- app_assoc. cbn [app].
    unfold all_features in Hall. rewrite Hahead in Hall. rewrite Hall.
    rewrite filter_twice. apply filter_ext. intros x.
    unfold survives. cbn [forallb]. now rewrite andb_true_r.
  - (* the last feature *)
    apply validate_feature_lists in Hbody.
    destruct Hbody as [H1 [H2 [H3 H4]]].
    assert (Hall : all_features (v_layer s1)
                   = filter (survives [f]) (all_features (v_layer s)))
      by (apply step_layer; assumption).
    assert (Hahead : ahead (v_layer s1) = ahead (v_layer s)).
    { rewrite H4. destruct (dropped f); [|reflexivity].
      now apply ahead_kept. }
    unfold GetNextFeature in e. rewrite Hahead in e.
    destruct (ahead (v_layer s)) as [|g rest] eqn:Ea; [|discriminate].
    cbn [flat_map]. rewrite !app_nil_r. repeat split; assumption.
Qed.

(** The pass over a layer as it is opened, entered with [feature] bound
    to [w]: when it ends normally it has examined [w] and the features of
    the layer from the second on. *)
Lemma validation_pass_lists verbose catalog fields w first rest :
  NoDup (map fid rest) ->
  ~ In (fid w) (map fid rest) ->
  let r := validation_pass verbose catalog (Some w)
             {| defn := fields; done := []; ahead := first :: rest |} in
  snd r = None ->
  v_scenelist (fst r) = flat_map on_scenelist (w :: rest)
  /\ v_updatemissing (fst r) = flat_map on_updatemissing (w :: rest)
  /\ v_badgeom (fst r) = flat_map on_badgeom (w :: rest)
  /\ all_features (v_layer (fst r))
     = filter (survives (w :: rest)) (first :: rest).
Proof.
  intros Hnd Hw. cbv zeta. rewrite validation_pass_from_second.
  intros Hend.
  apply (validation_loop_lists verbose catalog w
           (vstart {| defn := fields; done := [first]; ahead := rest |}));
    assumption.
Qed.

Lemma same_fid_same_feature (l : list Feature) g h :
  NoDup (map fid l) -> In g l -> In h l -> fid g = fid h -> g = h.
Proof.
  induction l as [|x l IH]; cbn; [tauto|].
  intros Hnd Hg Hh Heq. inversion Hnd as [|? ? Hx Hl]; subst.
  destruct Hg as [<-|Hg], Hh as [<-|Hh].
  - reflexivity.
  - exfalso. apply Hx. rewrite Heq. now apply in_map.
  - exfalso. apply Hx. rewrite <- Heq. now apply in_map.
  - now apply IH.
Qed.

Lemma fid_eqb_same id : fid_eqb (Some id) (Some id) = true.
Proof. cbn. apply Z.eqb_refl. Qed.

(** Of the features examined after the first, the pass keeps those it
    does not delete itself, and no others. *)
Lemma pass_keeps w rest f :
  NoDup (map fid rest) -> ~ In (fid w) (map fid rest) -> In f rest ->
  dropped f = false -> survives (w :: rest) f = true.
Proof.
  intros Hnd Hw Hf Hkept. unfold survives. apply forallb_forall.
  intros h Hh. apply negb_true_iff.
  destruct (dropped h && fid_eqb (fid f) (fid h)) eqn:E; [|reflexivity].
  apply andb_true_iff in E. destruct E as [Hd E].
  apply fid_eqb_true in E. exfalso. destruct Hh as [<-|Hh].
  - apply Hw. rewrite <- E. now apply in_map.
  - assert (f = h) by (eapply same_fid_same_feature; eauto). congruence.
Qed.

Lemma pass_drops w rest f id :
  In f rest -> dropped f = true -> fid f = Some id ->
  survives (w :: rest) f = false.
Proof.
  intros Hf Hd Hid. apply not_true_iff_false. intros Hall.
  unfold survives in Hall. rewrite forallb_forall in Hall.
  specialize (Hall f (or_intror Hf)).
  rewrite Hd, Hid, fid_eqb_same in Hall. discriminate.
Qed.
End ValidationFacts.

(** ** Migration *)

Section MigrateFacts.
Import Landsat.

(** C8: every call of [migrate] raises [UnboundLocalError] for its local
    [verbose], whatever the keyword arguments, and leaves the layer as it
    received it: no feature is migrated. *)
Theorem migrate_always_unbound ieo jpgdir shapefiles glob isfile
    checkscenegeometry layer shapefilepath fvl kwargs :
  migrate ieo jpgdir shapefiles glob isfile checkscenegeometry
    layer shapefilepath fvl kwargs
  = (layer, Raise (UnboundLocalError "verbose")).
Proof.
  unfold migrate.
  destruct (load_local "verbose" (@None value)) as [v|e] eqn:E.
  - discriminate E.
  - injection E as <-. reflexivity.
Qed.

(** C2, at the failing input: the shapefile holds one feature that passes
    the geometry check, migration is called as the script calls it, and
    the call ends in [UnboundLocalError] with the layer still empty. *)
Theorem migrate_copies_nothing :
  accepts_all shp_feature (VBool false) = false
  /\ migrate sample_ieo "/cat/Thumbnails" sample_shapefiles (fun _ => [])
       (fun _ => false) accepts_all new_layer "/cat/Landsat/WRS2.shp"
       fieldvaluelist
       [("tiledir", VStr "/lib"); ("verbose", VBool false)]
     = (new_layer, Raise (UnboundLocalError "verbose"))
  /\ all_features new_layer = [].
Proof.
  repeat split.
Qed.
End MigrateFacts.

(** ** Rings *)

Section RingFacts.
Import Landsat.

(** C9, at the failing inputs.  A footprint whose last point has the
    latitude of the first and another longitude makes the construction
    raise [TypeError]; a footprint whose last point differs from the first
    in both gives a ring that is not closed. *)
Theorem ring_not_always_closed :
  build_ring None [(0, 0); (10, 10); (20, 0)]
  = Raise (TypeError "object is not subscriptable")
  /\ (exists ring coord,
         build_ring None [(0, 0); (10, 0); (10, 10)] = Ok (ring, coord)
         /\ closed ring = false).
Proof.
  split.
  - reflexivity.
  - exists [(0, 0); (10, 0); (10, 10)], (Some (10, 10)).
    split; reflexivity.
Qed.

Lemma last_cons_default {A} (x : A) l d d' :
  last (x :: l) d = last (x :: l) d'.
Proof.
  revert x. induction l as [|y l IH]; intros x; [reflexivity|].
  change (last (y :: l) d = last (y :: l) d'). apply IH.
Qed.

(** On a footprint that is closed already the construction returns the
    footprint. *)
Lemma build_ring_closed coord coords :
  closed coords = true ->
  build_ring coord coords = Ok (coords, Some (last coords (0, 0))).
Proof.
  unfold closed, build_ring.
  destruct coords as [|first rest]; [discriminate|].
  intros Hclosed.
  rewrite (last_cons_default first rest (0, 0) first).
  unfold point_eqb in Hclosed. apply andb_prop in Hclosed.
  destruct Hclosed as [Hx Hy]. rewrite Hx. reflexivity.
Qed.
End RingFacts.

(** ** The updating branch of the main loop *)

Section UpdateFacts.
Import Landsat.

Lemma dict_get_set_other {V} k k' (v : V) d :
  String.eqb k k' = false -> dict_get k' (dict_set k v d) = dict_get k' d.
Proof.
  intros Hne. induction d as [|[k0 v0] d IH]; simpl.
  - rewrite Hne. reflexivity.
  - destruct (String.eqb k0 k) eqn:E0; simpl.
    + apply String.eqb_eq in E0. subst k0. rewrite Hne. reflexivity.
    + destruct (String.eqb k0 k'); [reflexivity|exact IH].
Qed.

Lemma dict_has_set {V} k k' (v : V) d :
  dict_has k' d = true -> dict_has k' (dict_set k v d) = true.
Proof.
  unfold dict_has. induction d as [|[k0 v0] d IH]; simpl; [discriminate|].
  destruct (String.eqb k0 k) eqn:E0; simpl.
  - apply String.eqb_eq in E0. subst k0.
    destruct (String.eqb k k'); auto.
  - destruct (String.eqb k0 k'); auto.
Qed.

Variable transform : point -> point.
Variable sceneID : string.
Variable entry : dict value.
Variable coords : list point.
Variable updatemodifiedDate : bool.
Variable modified : value.

Hypothesis entry_updategeom : dict_get "updategeom" entry = Some (VBool true).
Hypothesis entry_coords : dict_get "coords" entry = Some (VCoords coords).
Hypothesis coords_closed : closed coords = true.
Hypothesis entry_updatemodifiedDate :
  dict_get "updatemodifiedDate" entry = Some (VBool updatemodifiedDate).
Hypothesis entry_modifiedDate : dict_get "modifiedDate" entry = Some modified.

Local Abbreviation renewed :=
  (refreshed transform coords updatemodifiedDate modified).

Lemma refreshed_fid f : fid (renewed f) = fid f.
Proof. unfold refreshed. now destruct updatemodifiedDate. Qed.

Lemma refreshed_geometry f :
  geometry (renewed f) = Some (map transform coords).
Proof. unfold refreshed. now destruct updatemodifiedDate. Qed.

Lemma refreshed_stored f : stored f -> stored (renewed f).
Proof.
  intros [Hfid [Hs Hd]]. unfold stored, refreshed.
  destruct updatemodifiedDate; simpl; repeat split; auto using dict_has_set.
Qed.

Lemma update_feature_stored f coord l :
  stored f ->
  update_feature transform sceneID entry f coord l
  = Ok (if has_scene sceneID f
        then (SetFeature (renewed f) l, Some (last coords (0, 0)))
        else (l, coord)).
Proof.
  intros [Hfid [Hs Hd]]. unfold update_feature, has_scene, GetField.
  unfold dict_has in Hs. destruct (dict_get "sceneID" (attrs f)) as [v|];
    [|discriminate].
  cbn [bind]. destruct (value_is v sceneID); [|reflexivity].
  unfold flag, footprint_polygon.
  rewrite entry_updategeom, entry_coords, entry_updatemodifiedDate.
  cbn [truthy bind]. rewrite (build_ring_closed coord coords coords_closed).
  cbn [bind fst snd]. unfold refreshed.
  destruct updatemodifiedDate; [|reflexivity].
  rewrite entry_modifiedDate. unfold SetField. cbn [SetGeometry attrs].
  rewrite Hd. reflexivity.
Qed.

Lemma SetFeature_length f l :
  List.length (all_features (SetFeature f l)) = List.length (all_features l).
Proof.
  unfold all_features, SetFeature. cbn [done ahead].
  now rewrite !length_app, !length_map.
Qed.

(** The loop of the branch, from any position of the cursor: when the
    features already passed that belong to the scene carry the new
    geometry, the loop ends normally and every feature of the scene
    carries it. *)
Lemma update_loop_replaces l coord :
  Forall stored (all_features l) ->
  (forall f, In f (done l) -> has_scene sceneID f = true ->
             geometry f = Some (map transform coords)) ->
  exists l' coord',
    update_loop transform sceneID entry l coord = ((l', coord'), None)
    /\ (forall f, In f (all_features l') -> has_scene sceneID f = true ->
                  geometry f = Some (map transform coords))
    /\ List.length (all_features l') = List.length (all_features l).
Proof.
  funelim (update_loop transform sceneID entry l coord); intros Hstored Hdone;
    repeat match goal with
           | H : @eq (sigma _) _ _ |- _ => clear H
           end;
    try clear Heqcall.
  - (* the cursor is at the end *)
    exists l, coord. split; [reflexivity|]. split; [|reflexivity].
    unfold GetNextFeature in e. unfold all_features.
    destruct (ahead l); [|discriminate]. rewrite app_nil_r. exact Hdone.
  - (* one more feature, handled without an exception *)
    unfold GetNextFeature in Hnext.
    destruct (ahead l) as [|f0 rest] eqn:Eahead; [discriminate|].
    injection Hnext as <- <-.
    assert (Hf : stored f0).
    { rewrite Forall_forall in Hstored. apply Hstored.
      unfold all_features. rewrite Eahead. apply in_or_app. right. now left. }
    rewrite (update_feature_stored f0 coord _ Hf) in Hbody.
    assert (Hall : all_features l
                   = all_features {| defn := defn l; done := done l ++ [f0];
                                     ahead := rest |}).
    { unfold all_features. cbn [done ahead]. rewrite Eahead.
      now rewrite <- app_assoc. }
    destruct (has_scene sceneID f0) eqn:Escene; injection Hbody as <- <-.
    + match goal with
      | IH : Forall stored _ -> _ |- _ =>
          destruct IH as [l' [coord' [Hrun [Hgeom Hlen]]]]
      end.
      * rewrite Forall_forall in *. intros g Hg.
        unfold all_features, SetFeature in Hg. cbn [done ahead] in Hg.
        rewrite <- map_app in Hg. apply in_map_iff in Hg.
        destruct Hg as [g0 [<- Hg0]].
        destruct (fid_eqb (fid g0) (fid (renewed f0))).
        -- now apply refreshed_stored.
        -- apply Hstored. rewrite Hall. exact Hg0.
      * intros g Hg Hscene. cbn [SetFeature done] in Hg.
        apply in_map_iff in Hg. destruct Hg as [g0 [<- Hg0]].
        destruct (fid_eqb (fid g0) (fid (renewed f0))) eqn:Efid.
        -- apply refreshed_geometry.
        -- apply in_app_or in Hg0. destruct Hg0 as [Hg0|[<-|[]]].
           ++ now apply Hdone.
           ++ rewrite refreshed_fid in Efid. destruct Hf as [Hfid _].
              destruct (fid f0) as [n|]; [|congruence].
              simpl in Efid. rewrite Z.eqb_refl in Efid. discriminate.
      * exists l', coord'. split; [exact Hrun|]. split; [exact Hgeom|].
        rewrite Hlen, SetFeature_length, Hall. reflexivity.
    + match goal with
      | IH : Forall stored _ -> _ |- _ =>
          destruct IH as [l' [coord' [Hrun [Hgeom Hlen]]]]
      end.
      * rewrite <- Hall. exact Hstored.
      * intros g Hg Hscene. cbn [done] in Hg.
        apply in_app_or in Hg. destruct Hg as [Hg|[<-|[]]].
        -- now apply Hdone.
        -- congruence.
      * exists l', coord'. split; [exact Hrun|]. split; [exact Hgeom|].
        rewrite Hlen, Hall. reflexivity.
  - (* an exception: excluded for stored features *)
    unfold GetNextFeature in Hnext.
    destruct (ahead l) as [|f0 rest] eqn:Eahead; [discriminate|].
    injection Hnext as <- <-.
    assert (Hf : stored f0).
    { rewrite Forall_forall in Hstored. apply Hstored.
      unfold all_features. rewrite Eahead. apply in_or_app. right. now left. }
    match goal with
    | H : update_feature _ _ _ _ _ _ = Raise _ |- _ =>
        rewrite (update_feature_stored f0 coord _ Hf) in H; discriminate H
    end.
Qed.

(** The updating branch for a scene flagged for a new geometry: it ends
    normally, keeps every feature, and every feature of the scene carries
    the footprint transformed to the local projection. *)
Lemma update_scene_replaces l coord :
  Forall stored (all_features l) ->
  exists l' coord',
    update_scene transform sceneID entry l coord = ((l', coord'), None)
    /\ (forall f, In f (all_features l') -> has_scene sceneID f = true ->
                  geometry f = Some (map transform coords))
    /\ List.length (all_features l') = List.length (all_features l).
Proof.
  intros Hstored. unfold update_scene.
  destruct (update_loop_replaces (ResetReading l) coord)
    as [l' [coord' [Hrun [Hgeom Hlen]]]].
  - unfold ResetReading, all_features at 1. cbn [done ahead app]. exact Hstored.
  - intros f [].
  - exists l', coord'. split; [exact Hrun|]. split; [exact Hgeom|].
    rewrite Hlen. unfold ResetReading, all_features at 1. reflexivity.
Qed.
End UpdateFacts.

Section GeometryClaim.
Import Landsat.

Lemma dict_get_set_same {V} k (v : V) d : dict_get k (dict_set k v d) = Some v.
Proof.
  induction d as [|[k0 v0] d IH]; simpl.
  - now rewrite String.eqb_refl.
  - destruct (String.eqb k0 k) eqn:E; simpl.
    + now rewrite String.eqb_refl.
    + now rewrite E.
Qed.

(** [scenedict[sid][k] = v] for a scene that has its dictionary. *)
Lemma set_field_entry sid k v s e :
  dict_get sid (scenedict s) = Some e ->
  set_field sid k v s
  = ({| scenedict := dict_set sid (dict_set k v e) (scenedict s);
        sceneID_var := sceneID_var s; trace := trace s |}, Ok tt).
Proof.
  intros He. unfold set_field, bindM, entry_of. rewrite He. reflexivity.
Qed.

(** What the handling of an item leaves in the dictionary of its scene. *)
Lemma flag_item_entry updatemissing badgeom sid item s e0 :
  dict_get sid (scenedict s) = Some e0 ->
  exists s' e,
    flag_item updatemissing badgeom sid item s = (s', Ok tt)
    /\ dict_get sid (scenedict s') = Some e
    /\ dict_get "updatemodifiedDate" e
       = Some (VBool (str_in sid badgeom || str_in sid updatemissing))
    /\ dict_get "updategeom" e = Some (VBool (str_in sid badgeom))
    /\ dict_get "coords" e = Some (VCoords (spatialFootprint item))
    /\ dict_get "modifiedDate" e = Some (VStr (item_modifiedDate item)).
Proof.
  intros He0. unfold flag_item, bindM.
  rewrite (set_field_entry _ _ _ _ _ He0).
  erewrite set_field_entry by (cbn [scenedict]; apply dict_get_set_same).
  erewrite set_field_entry by (cbn [scenedict]; apply dict_get_set_same).
  erewrite set_field_entry by (cbn [scenedict]; apply dict_get_set_same).
  eexists. eexists. split; [reflexivity|].
  cbn [scenedict]. split; [apply dict_get_set_same|].
  repeat split.
  - rewrite !dict_get_set_other by reflexivity. apply dict_get_set_same.
  - rewrite !dict_get_set_other by reflexivity. apply dict_get_set_same.
  - rewrite !dict_get_set_other by reflexivity. apply dict_get_set_same.
  - apply dict_get_set_same.
Qed.


End GeometryClaim.

(** ** The blocks of the metadata requests *)

Section BlockFacts.
Import Landsat.

(** The list the blocks are cut from holds the scenes found that pass
    the test, in the order of the answer. *)
Lemma scan_results_selects g scenelist updatemissing badgeom ds results
    querylist s s' querylist' :
  scan_results g scenelist updatemissing badgeom ds results querylist s
  = (s', Ok querylist') ->
  querylist'
  = querylist
    ++ filter (wanted g scenelist updatemissing badgeom) (map entityId results).
Proof.
  revert querylist s.
  induction results as [|r rest IH]; intros querylist s; simpl.
  - intros [= _ <-]. now rewrite app_nil_r.
  - unfold bindM at 1. cbn [bind_sceneID].
    destruct (wanted g scenelist updatemissing badgeom (entityId r)).
    + unfold bindM at 1, lift.
      destruct (first_entry ds r) as [e|]; [|discriminate].
      unfold bindM at 1. cbn [set_entry].
      intros H. apply IH in H. rewrite H, <- app_assoc. reflexivity.
    + apply IH.
Qed.

Lemma iterations_reach n i : (i < iterations n)%nat -> (100 * i < n)%nat.
Proof.
  unfold iterations. intros Hi.
  pose proof (Z.mul_div_le (Z.of_nat n + 99) 100 ltac:(lia)) as Hdiv.
  assert (Hpos : 0 <= (Z.of_nat n + 99) / 100)
    by (apply Z.div_pos; lia).
  lia.
Qed.

(** Every block is cut one scene short of a hundred: block [i] is the
    first 99 scenes from position [100 * i] on. *)
Lemma block_is_99 querylist i :
  (i < iterations (List.length querylist))%nat ->
  block querylist i = firstn 99 (skipn (100 * i) querylist).
Proof.
  intros Hi. apply iterations_reach in Hi.
  unfold block, block_bounds, slice, clamp. cbn [fst snd].
  set (n := List.length querylist) in *.
  replace (Z.of_nat i * 100 >? Z.of_nat n) with false
    by (symmetry; rewrite Z.gtb_ltb; apply Z.ltb_ge; lia).
  replace (Z.of_nat i * 100 <? 0) with false
    by (symmetry; apply Z.ltb_ge; lia).
  replace (Z.of_nat i * 100 + 99 <? 0) with false
    by (symmetry; apply Z.ltb_ge; lia).
  replace (Z.to_nat (Z.min (Z.of_nat i * 100) (Z.of_nat n)))
    with (100 * i)%nat by lia.
  destruct (Nat.le_gt_cases (100 * i + 99) n) as [Hfull|Hshort].
  - f_equal. lia.
  - replace (Z.to_nat (Z.min (Z.of_nat i * 100 + 99) (Z.of_nat n)
                       - Z.min (Z.of_nat i * 100) (Z.of_nat n)))
      with (n - 100 * i)%nat by lia.
    assert (Hlen : List.length (skipn (100 * i) querylist) = (n - 100 * i)%nat)
      by (rewrite length_skipn; reflexivity).
    rewrite <- Hlen at 1. rewrite firstn_all.
    symmetry. apply firstn_all2. lia.
Qed.

Lemma in_block querylist i x :
  (i < iterations (List.length querylist))%nat ->
  In x (block querylist i) ->
  exists j, (j < 99)%nat /\ nth_error querylist (100 * i + j) = Some x.
Proof.
  intros Hi Hin. rewrite (block_is_99 _ _ Hi) in Hin.
  apply In_nth_error in Hin. destruct Hin as [j Hj].
  rewrite nth_error_firstn in Hj.
  destruct (j <? 99)%nat eqn:E; [|discriminate].
  apply Nat.ltb_lt in E. rewrite nth_error_skipn in Hj. eauto.
Qed.

(** Whatever the list, the scene at position 99 is in no block when the
    scenes are pairwise different: positions 99, 199, 299, ... are passed
    over by the slice. *)
Lemma blocks_pass_over_hundredth querylist :
  NoDup querylist ->
  (100 <= List.length querylist)%nat ->
  ~ In (nth 99 querylist "") (List.concat (metadata_blocks querylist)).
Proof.
  intros Hnd Hlen Hin.
  apply in_concat in Hin. destruct Hin as [b [Hb Hx]].
  unfold metadata_blocks, range in Hb. apply in_map_iff in Hb.
  destruct Hb as [i [<- Hi]]. apply in_seq in Hi.
  destruct (in_block querylist i _ ltac:(lia) Hx) as [j [Hj Hnth]].
  assert (H99 : nth_error querylist 99 = Some (nth 99 querylist ""%string))
    by (apply nth_error_nth'; lia).
  rewrite NoDup_nth_error in Hnd.
  assert (99 = 100 * i + j)%nat.
  { apply Hnd; [lia|]. now rewrite H99, Hnth. }
  lia.
Qed.
End BlockFacts.

(** ** Sample runs of [scenesearch] *)

Section SearchRuns.
Import Landsat.

(** C1, at the failing input: a search returns a hundred scenes of the
    configured path and row, none of them in the catalogue.  All hundred
    qualify, and [scenesearch] posts a single metadata request with the
    first ninety-nine: the hundredth scene is in no request. *)
Theorem hundredth_scene_not_requested :
  let run := scenesearch hundred_found no_metadata always always spring_2013
               [] [] [] None in
  List.length hundred_scenes = 100%nat
  /\ forallb (wanted spring_2013 [] [] []) hundred_scenes = true
  /\ metadata_requests (trace (fst run)) = [firstn 99 hundred_scenes]
  /\ str_in (nth 99 hundred_scenes "")
       (List.concat (metadata_requests (trace (fst run)))) = false.
Proof.
  cbv zeta. repeat split; vm_compute; reflexivity.
Qed.

Lemma scenesearch_windows_bounded_witness :
  ("LANDSAT_TM_C1" = "LANDSAT_8_C1" /\ ymd2ord 2013 2 11 <= 734928)
  \/ ("LANDSAT_TM_C1" = "LANDSAT_ETM_C1" /\ ymd2ord 1999 4 15 <= 734928)
  \/ ("LANDSAT_TM_C1" = "LANDSAT_TM_C1" /\ ymd2ord 1982 7 16 <= 734928
      /\ 735024 <= ymd2ord 2013 6 5).
Proof.
  apply (scenesearch_windows_bounded hundred_found no_metadata always always
           spring_2013 [] [] [] None "LANDSAT_TM_C1" 734928 735024).
  vm_compute. right. right. right. left. reflexivity.
Defined.

End SearchRuns.

(** ** Errors of single items *)

Section ItemErrors.
Import Landsat.

Lemma for_each_gets_to {A} (l : list A) (body : A -> M unit) s x s1 s2 e :
  gets_to l body s x s1 ->
  body x s1 = (s2, Raise e) ->
  for_each l body s = (s2, Raise e).
Proof.
  intros [before [rest [-> Hbefore]]] Hx. revert s Hbefore.
  induction before as [|y before IH]; intros s Hbefore.
  - cbn in Hbefore. injection Hbefore as ->.
    cbn [app for_each]. unfold bindM. now rewrite Hx.
  - cbn [app for_each] in *. unfold bindM in *.
    destruct (body y s) as [s' [[]|e']]; [|discriminate].
    now apply IH.
Qed.

Lemma gets_to_nonempty {A} (l : list A) (body : A -> M unit) s x s1 :
  gets_to l body s x s1 -> l <> [].
Proof.
  intros [before [rest [-> _]]]. now destruct before.
Qed.

Lemma bind_all_returns (b : list string) s :
  snd (for_each b bind_sceneID s) = Ok tt.
Proof.
  revert s. induction b as [|x b IH]; intros s; [reflexivity|].
  cbn [for_each]. unfold bindM. cbn. apply IH.
Qed.

Section Exit.
Variable usgs_search : string -> Z -> Z -> result (list SearchResult).
Variable usgs_metadata : string -> list string -> result (list MetadataItem).
Variable float_parses : string -> bool.
Variable time_parses : string -> bool.
Variable g : Globals.
Variables scenelist updatemissing badgeom : list string.
Variable lastmodifiedDate : option string.

(** The body of the loop over the metadata fields, on a field that is
    let through to [int] with a value [int] rejects: [sys.exit()], and
    the state is left as it was. *)
Lemma record_field_exits sid name val s e err :
  dict_get sid (scenedict s) = Some e ->
  converted e (name, val) = true ->
  integer_field (field_name name) = true ->
  int val = Raise err ->
  record_field float_parses time_parses sid (name, val) s
  = (s, Raise SystemExit).
Proof.
  intros He Hconv Hint Herr.
  unfold converted in Hconv. cbn [fst snd] in Hconv.
  apply andb_true_iff in Hconv. destruct Hconv as [Hconv Hval].
  apply andb_true_iff in Hconv. destruct Hconv as [Hconv Hlsi].
  apply andb_true_iff in Hconv. destruct Hconv as [Hin Hnew].
  unfold record_field. cbn [fst snd]. fold (field_name name).
  rewrite Hin. unfold bindM at 1. unfold entry_of at 1. rewrite He.
  rewrite Hnew, Hlsi. cbn [andb].
  apply negb_true_iff in Hval. rewrite Hval.
  unfold integer_field in Hint.
  destruct (index (field_name name) queryfieldnames) as [i|];
    [|discriminate].
  unfold bindM, lift.
  destruct (nth_error fieldvaluelist i) as [row|]; [|discriminate].
  apply andb_true_iff in Hint. destruct Hint as [Htype Hdate].
  apply negb_true_iff in Hdate.
  unfold convert. rewrite Hdate.
  destruct (ftype row); try discriminate.
  cbn [ogr_type_eqb orb]. rewrite Herr. reflexivity.
Qed.

Lemma scenesearch_exits ds b w results querylist blk items item sid name val
    e err s0 s1 s2 s3 s4 s5 s6 :
  gets_to datasetNames
    (search_dataset usgs_search usgs_metadata float_parses time_parses g
       scenelist updatemissing badgeom lastmodifiedDate)
    scenesearch_start ds s0 ->
  window_bounds g (fst ds) (snd ds) lastmodifiedDate updatemissing badgeom
  = Ok b ->
  gets_to (fst (windows (fst b) (snd b)))
    (query_window usgs_search usgs_metadata float_parses time_parses g
       scenelist updatemissing badgeom (fst ds)) s0 w s1 ->
  usgs_search (fst ds) (fst w) (snd w) = Ok results ->
  scan_results g scenelist updatemissing badgeom (fst ds) results []
    (posted (SearchRequest (fst ds) (fst w) (snd w)) s1)
  = (s2, Ok querylist) ->
  gets_to (metadata_blocks querylist)
    (query_block usgs_metadata float_parses time_parses updatemissing
       badgeom (fst ds)) s2 blk s3 ->
  usgs_metadata (fst ds) blk = Ok items ->
  gets_to items
    (record_item float_parses time_parses updatemissing badgeom)
    (posted (MetadataRequest (fst ds) blk)
       (fst (for_each blk bind_sceneID s3))) item s4 ->
  find_sceneID (metadataFields item) s4 = (s5, Ok tt) ->
  sceneID_var s5 = Some sid ->
  gets_to (metadataFields item) (record_field float_parses time_parses sid)
    s5 (name, val) s6 ->
  dict_get sid (scenedict s6) = Some e ->
  converted e (name, val) = true ->
  integer_field (field_name name) = true ->
  ascii_only val = true ->
  int val = Raise err ->
  scenesearch usgs_search usgs_metadata float_parses time_parses g scenelist
    updatemissing badgeom lastmodifiedDate
  = (s6, Raise SystemExit).
Proof.
  intros Hds Hb Hw Hsearch Hscan Hblk Hmeta Hitem Hfind Hsid Hfield He Hconv
    Hint _ Herr.
  pose proof (record_field_exits sid name val s6 e err He Hconv Hint Herr)
    as Hstep.
  pose proof (for_each_gets_to _ _ _ _ _ _ _ Hfield Hstep) as Hfields.
  assert (Hrecord : record_item float_parses time_parses updatemissing
                      badgeom item s4 = (s6, Raise SystemExit)).
  { unfold record_item.
    pose proof (gets_to_nonempty _ _ _ _ _ Hfield) as Hne.
    destruct (metadataFields item) as [|f fs] eqn:Ef; [congruence|].
    unfold bindM at 1. rewrite Hfind.
    unfold bindM at 1. unfold read_sceneID at 1. rewrite Hsid.
    unfold bindM at 1. now rewrite Hfields. }
  pose proof (for_each_gets_to _ _ _ _ _ _ _ Hitem Hrecord) as Hitems.
  assert (Hblock : query_block usgs_metadata float_parses time_parses
                     updatemissing badgeom (fst ds) blk s3
                   = (s6, Raise SystemExit)).
  { unfold query_block.
    unfold bindM at 1.
    pose proof (bind_all_returns blk s3) as Hall.
    destruct (for_each blk bind_sceneID s3) as [s3' r]. cbn [snd] in Hall.
    subst r. cbn [fst] in Hitems.
    unfold bindM at 1. unfold posted in Hitems.
    destruct (emit (MetadataRequest (fst ds) blk) s3') as [s3'' r] eqn:Eemit.
    assert (r = Ok tt) by (unfold emit in Eemit; now inversion Eemit).
    subst r. cbn [fst] in Hitems.
    unfold bindM at 1, lift at 1. rewrite Hmeta.
    pose proof (gets_to_nonempty _ _ _ _ _ Hitem) as Hne.
    destruct items as [|i0 more]; [congruence|].
    unfold bindM at 1. now rewrite Hitems. }
  pose proof (for_each_gets_to _ _ _ _ _ _ _ Hblk Hblock) as Hblocks.
  assert (Hwindow : query_window usgs_search usgs_metadata float_parses
                      time_parses g scenelist updatemissing badgeom (fst ds)
                      w s1
                    = (s6, Raise SystemExit)).
  { unfold query_window. unfold bindM at 1. unfold posted in Hscan.
    destruct (emit (SearchRequest (fst ds) (fst w) (snd w)) s1)
      as [s1' r] eqn:Eemit.
    assert (r = Ok tt) by (unfold emit in Eemit; now inversion Eemit).
    subst r. cbn [fst] in Hscan.
    unfold bindM at 1, lift at 1. rewrite Hsearch.
    unfold bindM at 1. rewrite Hscan. exact Hblocks. }
  pose proof (for_each_gets_to _ _ _ _ _ _ _ Hw Hwindow) as Hwindows.
  assert (Hdataset : search_dataset usgs_search usgs_metadata float_parses
                       time_parses g scenelist updatemissing badgeom
                       lastmodifiedDate ds s0
                     = (s6, Raise SystemExit)).
  { unfold search_dataset. unfold bindM at 1, lift at 1. rewrite Hb.
    unfold bindM at 1. now rewrite Hwindows. }
  pose proof (for_each_gets_to _ _ _ _ _ _ _ Hds Hdataset) as Hall.
  unfold scenesearch. unfold bindM. now rewrite Hall.
Qed.
End Exit.

End ItemErrors.

(** ** The paths and rows of the run, and the bounding rectangle *)

Section SetupFacts.
Import Setup.

Lemma in_zrange x a b : In x (zrange a b) <-> a <= x < b.
Proof.
  unfold zrange. rewrite in_map_iff. split.
  - intros [n [<- Hn]]. apply in_seq in Hn. lia.
  - intros H. exists (Z.to_nat (x - a)). split; [lia|].
    apply in_seq. lia.
Qed.

Lemma in_add_new x y l : In x (add_new y l) <-> In x l \/ x = y.
Proof.
  unfold add_new. destruct (existsb (Z.eqb y) l) eqn:E.
  - split; [tauto|]. intros [H| ->]; [exact H|].
    apply existsb_exists in E. destruct E as [z [Hz Heq]].
    apply Z.eqb_eq in Heq. now subst.
  - rewrite in_app_iff. simpl. intuition.
Qed.

Lemma for_rows_spec j ks w :
  paths (for_rows j ks w) = paths w
  /\ feature (for_rows j ks w) = feature w
  /\ pathrowstrs (for_rows j ks w)
     = pathrowstrs w ++ map cell_string (cells_of_path j ks)
  /\ (forall k, In k (rows (for_rows j ks w)) <-> In k (rows w) \/ In k ks).
Proof.
  revert w. induction ks as [|k ks IH]; intros w; simpl.
  - rewrite app_nil_r. repeat split; tauto.
  - destruct (IH {| paths := paths w; rows := add_new k (rows w);
                    pathrowstrs := pathrowstrs w
                                   ++ [(format_03d j ++ format_03d k)%string];
                    feature := feature w |}) as [Hp [Hf [Hs Hr]]].
    cbn [paths rows pathrowstrs feature] in *.
    rewrite Hp, Hf, Hs, <- app_assoc. repeat split; try reflexivity.
    + intros Hin. apply Hr in Hin. rewrite in_add_new in Hin.
      intuition.
    + intros Hin. apply Hr. rewrite in_add_new. intuition.
Qed.

Lemma for_paths_spec vals i js w w' :
  for_paths vals i js w = Ok w' ->
  feature w' = feature w
  /\ (forall j, In j (paths w') <-> In j (paths w) \/ In j js)
  /\ exists ks,
       (js <> [] ->
        exists r0 r1, int_at vals (i * 4 + 2) = Ok r0
                      /\ int_at vals (i * 4 + 3) = Ok r1
                      /\ ks = zrange r0 (r1 + 1))
       /\ pathrowstrs w' = pathrowstrs w ++ map cell_string (cells js ks)
       /\ (forall k, In k (rows w') <-> In k (rows w) \/ (js <> [] /\ In k ks)).
Proof.
  revert w. induction js as [|j js IH]; intros w; simpl.
  - intros [= <-]. split; [reflexivity|]. split; [tauto|].
    exists []. rewrite app_nil_r. repeat split; try tauto.
  - destruct (int_at vals (i * 4 + 2)) as [r0|] eqn:E0; [|discriminate].
    destruct (int_at vals (i * 4 + 3)) as [r1|] eqn:E1; [|discriminate].
    cbn [bind]. intros Hrun. apply IH in Hrun.
    destruct Hrun as [Hf [Hp [ks [Hks [Hs Hr]]]]].
    match type of Hs with
    | context [for_rows j ?l ?w1] =>
        destruct (for_rows_spec j l w1) as [Hp1 [Hf1 [Hs1 Hr1]]]
    end.
    cbn [paths rows pathrowstrs feature] in *.
    rewrite Hf1 in Hf. split; [exact Hf|]. split.
    + intros x. rewrite Hp, Hp1, in_add_new. intuition.
    + exists (zrange r0 (r1 + 1)). split; [intros _; eauto|].
      assert (Hsame : js <> [] -> ks = zrange r0 (r1 + 1)).
      { intros Hne. destruct (Hks Hne) as [a [b [Ha [Hb ->]]]]. congruence. }
      split.
      * rewrite Hs, Hs1, <- app_assoc, map_app. do 2 f_equal.
        destruct js as [|j' js]; [reflexivity|].
        rewrite Hsame by discriminate. reflexivity.
      * intros k. rewrite Hr, Hr1. split.
        -- intros [[H|H]|[Hne H]]; auto.
           ++ right. split; [discriminate|exact H].
           ++ right. split; [discriminate|]. now rewrite <- Hsame.
        -- intros [H|[_ H]]; auto.
Qed.

Lemma rectangle_spec vals i w w' :
  rectangle vals i w = Ok w' ->
  feature w' = feature w
  /\ exists p0 p1 ks,
       int_at vals (i * 4) = Ok p0 /\ int_at vals (i * 4 + 1) = Ok p1
       /\ (p0 <= p1 ->
           exists r0 r1, int_at vals (i * 4 + 2) = Ok r0
                         /\ int_at vals (i * 4 + 3) = Ok r1
                         /\ ks = zrange r0 (r1 + 1))
       /\ (forall j, In j (paths w') <-> In j (paths w) \/ p0 <= j <= p1)
       /\ pathrowstrs w'
          = pathrowstrs w ++ map cell_string (cells (zrange p0 (p1 + 1)) ks)
       /\ (forall k, In k (rows w')
                     <-> In k (rows w) \/ (p0 <= p1 /\ In k ks)).
Proof.
  unfold rectangle.
  destruct (int_at vals (i * 4)) as [p0|] eqn:E0; [|discriminate].
  destruct (int_at vals (i * 4 + 1)) as [p1|] eqn:E1; [|discriminate].
  cbn [bind]. intros Hrun. apply for_paths_spec in Hrun.
  destruct Hrun as [Hf [Hp [ks [Hks [Hs Hr]]]]].
  split; [exact Hf|]. exists p0, p1, ks.
  assert (Hne : zrange p0 (p1 + 1) <> [] <-> p0 <= p1).
  { split.
    - intros H. destruct (zrange p0 (p1 + 1)) as [|x l] eqn:E; [congruence|].
      assert (Hx : In x (zrange p0 (p1 + 1))) by (rewrite E; now left).
      apply in_zrange in Hx. lia.
    - intros H E. assert (Hx : In p0 (zrange p0 (p1 + 1)))
        by (apply in_zrange; lia).
      rewrite E in Hx. destruct Hx. }
  repeat split; auto.
  - intros H. apply Hks. now apply Hne.
  - intros H. apply Hp in H. rewrite in_zrange in H. intuition lia.
  - intros H. apply Hp. rewrite in_zrange. intuition lia.
  - intros H. apply Hr in H. rewrite Hne in H. exact H.
  - intros H. apply Hr. rewrite Hne. exact H.
Qed.

Lemma in_cells c js ks : In c (cells js ks) <-> In (fst c) js /\ In (snd c) ks.
Proof.
  unfold cells, cells_of_path. rewrite in_flat_map. split.
  - intros [j [Hj Hc]]. apply in_map_iff in Hc.
    destruct Hc as [k [<- Hk]]. auto.
  - intros [Hj Hk]. exists (fst c). split; [exact Hj|].
    apply in_map_iff. exists (snd c). split; [now destruct c|exact Hk].
Qed.

Lemma for_rectangles_spec vals todo w w' :
  for_rectangles vals todo w = Ok w' ->
  feature w' = feature w
  /\ (forall s, In s (pathrowstrs w')
                <-> In s (pathrowstrs w)
                    \/ exists i c, In i todo /\ in_rectangle vals i c
                                   /\ s = cell_string c)
  /\ (forall j, In j (paths w')
                <-> In j (paths w)
                    \/ exists i p0 p1, In i todo
                         /\ int_at vals (i * 4) = Ok p0
                         /\ int_at vals (i * 4 + 1) = Ok p1
                         /\ p0 <= j <= p1)
  /\ (forall k, In k (rows w')
                <-> In k (rows w)
                    \/ exists i c, In i todo /\ in_rectangle vals i c
                                   /\ snd c = k).
Proof.
  revert w. induction todo as [|i todo IH]; intros w; simpl.
  - intros [= <-]. split; [reflexivity|].
    repeat split; try tauto.
    + intros [H|[i [c [[] _]]]]; exact H.
    + intros [H|[i [p0 [p1 [[] _]]]]]; exact H.
    + intros [H|[i [c [[] _]]]]; exact H.
  - destruct (rectangle vals i w) as [w1|] eqn:E1; [|discriminate].
    cbn [bind]. intros Hrun. apply IH in Hrun.
    destruct Hrun as [Hf [Hs [Hp Hr]]].
    apply rectangle_spec in E1.
    destruct E1 as [Hf1 [p0 [p1 [ks [Ep0 [Ep1 [Hks [Hp1 [Hs1 Hr1]]]]]]]]].
    split; [congruence|].
    assert (Hcell : forall c,
               In c (cells (zrange p0 (p1 + 1)) ks) <-> in_rectangle vals i c).
    { intros c. rewrite in_cells, in_zrange. split.
      - intros [Hj Hk]. destruct Hks as [r0 [r1 [Er0 [Er1 ->]]]]; [lia|].
        apply in_zrange in Hk. exists p0, p1, r0, r1. repeat split; auto; lia.
      - intros [q0 [q1 [r0 [r1 [Eq0 [Eq1 [Er0 [Er1 [Hj Hk]]]]]]]]].
        assert (q0 = p0) by congruence. assert (q1 = p1) by congruence.
        subst. split; [lia|].
        destruct Hks as [r0' [r1' [Er0' [Er1' ->]]]]; [lia|].
        assert (r0' = r0) by congruence. assert (r1' = r1) by congruence.
        subst. apply in_zrange. lia. }
    split; [|split].
    + intros s. rewrite Hs, Hs1, in_app_iff, in_map_iff. split.
      * intros [[H|[c [<- Hc]]]|[i' [c [Hi [Hc ->]]]]]; auto.
        -- right. exists i, c. split; [now left|]. split; [|reflexivity].
           now apply Hcell.
        -- right. exists i', c. auto.
      * intros [H|[i' [c [[<-|Hi] [Hc ->]]]]]; auto.
        -- left. right. exists c. split; [reflexivity|]. now apply Hcell.
        -- right. exists i', c. auto.
    + intros j. rewrite Hp, Hp1. split.
      * intros [[H|H]|[i' [q0 [q1 [Hi H]]]]]; auto.
        -- right. exists i, p0, p1. auto.
        -- right. exists i', q0, q1. auto.
      * intros [H|[i' [q0 [q1 [[<-|Hi] [Eq0 [Eq1 H]]]]]]]; auto.
        -- left. right. assert (q0 = p0) by congruence.
           assert (q1 = p1) by congruence. subst. exact H.
        -- right. exists i', q0, q1. auto.
    + intros k. rewrite Hr, Hr1. split.
      * intros [[H|[Hle Hk]]|[i' [c [Hi [Hc <-]]]]]; auto.
        -- right. exists i, (p0, k). split; [now left|].
           split; [|reflexivity]. apply Hcell. apply in_cells.
           split; [apply in_zrange; simpl; lia|exact Hk].
        -- right. exists i', c. auto.
      * intros [H|[i' [c [[<-|Hi] [Hc <-]]]]]; auto.
        -- left. right. apply Hcell in Hc. apply in_cells in Hc.
           destruct Hc as [Hj Hk]. apply in_zrange in Hj. split; [lia|exact Hk].
        -- right. exists i', c. auto.
Qed.

(** X1: the path/row strings that the configuration file gives are the
    cells of its rectangles. *)
Theorem ini_pathrows_are_the_rectangles pathrowvals w s :
  from_ini pathrowvals = Ok w ->
  (In s (pathrowstrs w)
   <-> exists i c,
         (i < List.length (split ","%char pathrowvals) / 4)%nat
         /\ in_rectangle (split ","%char pathrowvals) i c
         /\ s = cell_string c).
Proof.
  unfold from_ini, from_values. intros Hrun.
  apply for_rectangles_spec in Hrun. destruct Hrun as [_ [Hs _]].
  rewrite Hs. cbn [nothing pathrowstrs In]. unfold range. split.
  - intros [[]|[i [c [Hi H]]]]. exists i, c. apply in_seq in Hi.
    split; [lia|exact H].
  - intros [i [c [Hi H]]]. right. exists i, c.
    split; [apply in_seq; lia|exact H].
Qed.

Lemma ini_pathrows_are_the_rectangles_witness :
  In "208024"%string
    (pathrowstrs {| paths := [207; 208]; rows := [23; 24];
                    pathrowstrs := ["207023"; "207024"; "208023"; "208024"]%string;
                    feature := None |})
  <-> exists i c,
        (i < List.length (split ","%char "207,208,23,24") / 4)%nat
        /\ in_rectangle (split ","%char "207,208,23,24") i c
        /\ "208024"%string = cell_string c.
Proof.
  apply (ini_pathrows_are_the_rectangles "207,208,23,24").
  vm_compute. reflexivity.
Defined.

Lemma from_wrs2_listed features w w' :
  from_wrs2 features w = Ok w' ->
  listed w -> (rows w = [] -> pathrowstrs w = []) ->
  listed w' /\ (rows w' = [] -> pathrowstrs w' = []).
Proof.
  revert w. induction features as [|f rest IH]; intros w; simpl.
  - intros [= <-]. auto.
  - destruct (Landsat.GetField "PATH" f) as [path|]; [|discriminate].
    destruct (Landsat.GetField "ROW" f) as [row|]; [|discriminate].
    cbn [bind].
    destruct (field_int path) as [p|]; [|discriminate].
    destruct (field_int row) as [r|]; [|discriminate].
    cbn [bind]. intros Hrun Hl He. apply IH in Hrun; [exact Hrun| |].
    + intros s Hs. cbn [pathrowstrs paths rows] in *.
      apply in_app_or in Hs. destruct Hs as [Hs|[<-|[]]].
      * destruct (Hl s Hs) as [c [-> [Hp Hr]]]. exists c.
        rewrite !in_add_new. auto.
      * exists (p, r). rewrite !in_add_new. auto.
    + cbn [pathrowstrs rows]. intros H.
      assert (Hin : In r (add_new r (rows w))) by (apply in_add_new; auto).
      rewrite H in Hin. destruct Hin.
Qed.

Lemma setup_listed useWRS2 pathrowvals wrs2 w :
  pathrow_setup useWRS2 pathrowvals wrs2 = Ok w ->
  listed w /\ (rows w = [] -> pathrowstrs w = []).
Proof.
  unfold pathrow_setup.
  destruct (String.eqb (lower useWRS2) "yes").
  - intros Hrun. apply from_wrs2_listed in Hrun; [exact Hrun| |reflexivity].
    intros s [].
  - unfold from_ini, from_values. intros Hrun.
    apply for_rectangles_spec in Hrun. destruct Hrun as [_ [Hs [Hp Hr]]].
    cbn [nothing pathrowstrs paths rows In] in *. split.
    + intros s Hin. apply Hs in Hin.
      destruct Hin as [[]|[i [c [Hi [Hc ->]]]]]. exists c.
      split; [reflexivity|]. split.
      * apply Hp. right.
        destruct Hc as [p0 [p1 [r0 [r1 [E0 [E1 [_ [_ [Hj _]]]]]]]]].
        exists i, p0, p1. auto.
      * apply Hr. right. exists i, c. auto.
    + intros Hrows. destruct (pathrowstrs w) as [|s l] eqn:E; [reflexivity|].
      assert (Hin : In s (s :: l)) by now left.
      apply Hs in Hin. destruct Hin as [[]|[i [c [Hi [Hc _]]]]].
      assert (Hk : In (snd c) (rows w)) by (apply Hr; right; exists i, c; auto).
      rewrite Hrows in Hk. destruct Hk.
Qed.

Lemma fold_min_le l x : forall y, In y (x :: l) -> fold_left Z.min l x <= y.
Proof.
  revert x. induction l as [|z l IH]; intros x y; simpl.
  - intros [<-|[]]. lia.
  - intros [<-|[<-|H]].
    + specialize (IH (Z.min x z) (Z.min x z) (or_introl eq_refl)). lia.
    + specialize (IH (Z.min x z) (Z.min x z) (or_introl eq_refl)). lia.
    + apply IH. now right.
Qed.

Lemma fold_max_ge l x : forall y, In y (x :: l) -> y <= fold_left Z.max l x.
Proof.
  revert x. induction l as [|z l IH]; intros x y; simpl.
  - intros [<-|[]]. lia.
  - intros [<-|[<-|H]].
    + specialize (IH (Z.max x z) (Z.max x z) (or_introl eq_refl)). lia.
    + specialize (IH (Z.max x z) (Z.max x z) (or_introl eq_refl)). lia.
    + apply IH. now right.
Qed.

Lemma py_min_max l y :
  In y l -> exists lo hi, py_min l = Ok lo /\ py_max l = Ok hi /\ lo <= y <= hi.
Proof.
  destruct l as [|x l]; [intros []|]. intros Hy.
  exists (fold_left Z.min l x), (fold_left Z.max l x).
  split; [reflexivity|]. split; [reflexivity|].
  split; [now apply fold_min_le|now apply fold_max_ge].
Qed.

(** X2: every path/row string of the search filter names a cell inside
    the rectangle whose four corners [getMBR] asks the service for. *)
Theorem corners_enclose_cells useWRS2 pathrowvals wrs2 w s :
  pathrow_setup useWRS2 pathrowvals wrs2 = Ok w ->
  In s (pathrowstrs w) ->
  exists c p0 p1 r0 r1,
    s = cell_string c
    /\ corners w = Ok [(p0, r0); (p0, r1); (p1, r1); (p1, r0)]
    /\ p0 <= fst c <= p1 /\ r0 <= snd c <= r1.
Proof.
  intros Hrun Hs. apply setup_listed in Hrun. destruct Hrun as [Hl _].
  destruct (Hl s Hs) as [c [-> [Hp Hr]]].
  destruct (py_min_max _ _ Hp) as [p0 [p1 [Ep0 [Ep1 Hpb]]]].
  destruct (py_min_max _ _ Hr) as [r0 [r1 [Er0 [Er1 Hrb]]]].
  exists c, p0, p1, r0, r1. split; [reflexivity|].
  unfold corners. rewrite Ep0, Er0, Er1, Ep1. auto.
Qed.

Lemma corners_enclose_cells_witness :
  exists c p0 p1 r0 r1,
    "207024"%string = cell_string c
    /\ corners {| paths := [207; 208]; rows := [23; 24];
                  pathrowstrs := ["207023"; "207024"; "208023"; "208024"]%string;
                  feature := None |}
       = Ok [(p0, r0); (p0, r1); (p1, r1); (p1, r0)]
    /\ p0 <= fst c <= p1 /\ r0 <= snd c <= r1.
Proof.
  apply (corners_enclose_cells "no" "207,208,23,24" []).
  - vm_compute. reflexivity.
  - vm_compute. right. left. reflexivity.
Defined.

Lemma int_at_app vals extra n :
  (n < List.length vals)%nat -> int_at (vals ++ extra) n = int_at vals n.
Proof. intros H. unfold int_at. now rewrite nth_error_app1. Qed.

Lemma for_paths_app vals extra i js w :
  (i * 4 + 3 < List.length vals)%nat ->
  for_paths (vals ++ extra) i js w = for_paths vals i js w.
Proof.
  intros Hi. revert w. induction js as [|j js IH]; intros w; simpl.
  - reflexivity.
  - rewrite !int_at_app by lia.
    destruct (int_at vals (i * 4 + 2)); [|reflexivity].
    destruct (int_at vals (i * 4 + 3)); [|reflexivity].
    cbn [bind]. apply IH.
Qed.

Lemma for_rectangles_app vals extra todo w :
  (forall i, In i todo -> (i * 4 + 3 < List.length vals)%nat) ->
  for_rectangles (vals ++ extra) todo w = for_rectangles vals todo w.
Proof.
  revert w. induction todo as [|i todo IH]; intros w Hall; simpl.
  - reflexivity.
  - assert (Hi : (i * 4 + 3 < List.length vals)%nat) by (apply Hall; now left).
    unfold rectangle. rewrite !int_at_app by lia.
    destruct (int_at vals (i * 4)); [|reflexivity].
    destruct (int_at vals (i * 4 + 1)); [|reflexivity].
    cbn [bind]. rewrite for_paths_app by exact Hi.
    destruct (for_paths vals i _ w); [|reflexivity].
    cbn [bind]. apply IH. intros k Hk. apply Hall. now right.
Qed.

(** X3: values of the configuration that do not fill a group of four are
    not read: the lists are those of the complete groups, whatever the
    values left over are. *)
Theorem incomplete_group_is_ignored vals extra :
  (List.length vals mod 4 = 0)%nat ->
  (List.length extra < 4)%nat ->
  from_values (vals ++ extra) = from_values vals.
Proof.
  intros Hfull Hshort. unfold from_values. rewrite length_app.
  assert (Hn : List.length vals
               = (4 * (List.length vals / 4))%nat).
  { pose proof (Nat.div_mod_eq (List.length vals) 4). lia. }
  assert (Hdiv : ((List.length vals + List.length extra) / 4
                  = List.length vals / 4)%nat).
  { set (q := (List.length vals / 4)%nat) in *.
    rewrite Hn. rewrite Nat.mul_comm, Nat.div_add_l by lia.
    rewrite (Nat.div_small (List.length extra) 4) by lia. lia. }
  rewrite Hdiv. apply for_rectangles_app.
  intros i Hi. apply in_seq in Hi. lia.
Qed.

Lemma incomplete_group_is_ignored_witness :
  from_values (["207"; "208"; "23"; "24"] ++ ["209"; "x"])
  = from_values ["207"; "208"; "23"; "24"].
Proof.
  apply (incomplete_group_is_ignored ["207"; "208"; "23"; "24"]
           ["209"; "x"]).
  - reflexivity.
  - simpl. lia.
Defined.

(** X4: when the configuration names no cell, [getMBR] raises
    [ValueError] for the minimum of an empty list, and posts nothing. *)
Theorem getMBR_needs_a_cell {F : Type} (flt : F -> F -> bool) grid2ll
    useWRS2 pathrowvals wrs2 w :
  pathrow_setup useWRS2 pathrowvals wrs2 = Ok w ->
  pathrowstrs w = [] ->
  getMBR flt grid2ll w
  = ([], Raise (ValueError "min() arg is an empty sequence")).
Proof.
  intros Hrun Hnone. apply setup_listed in Hrun as Hl.
  assert (Hrows : rows w = []).
  { unfold pathrow_setup in Hrun.
    destruct (String.eqb (lower useWRS2) "yes").
    - clear Hl. revert Hrun Hnone.
      assert (Hgen : forall features w0,
                 from_wrs2 features w0 = Ok w -> pathrowstrs w = [] ->
                 (pathrowstrs w0 = [] -> rows w0 = []) -> rows w = []).
      { induction features as [|f rest IH]; intros w0; simpl.
        - intros [= <-]. auto.
        - destruct (Landsat.GetField "PATH" f) as [path|]; [|discriminate].
          destruct (Landsat.GetField "ROW" f) as [row|]; [|discriminate].
          cbn [bind].
          destruct (field_int path) as [p|]; [|discriminate].
          destruct (field_int row) as [r|]; [|discriminate].
          cbn [bind]. intros Hrun Hnone _. eapply IH; eauto.
          cbn [pathrowstrs]. intros H. destruct (pathrowstrs w0); discriminate. }
      intros Hrun Hnone. eapply Hgen; eauto.
    - unfold from_ini, from_values in Hrun.
      apply for_rectangles_spec in Hrun. destruct Hrun as [_ [Hs [_ Hr]]].
      destruct (rows w) as [|k l] eqn:E; [reflexivity|].
      assert (Hk : In k (k :: l)) by now left.
      apply Hr in Hk. destruct Hk as [[]|[i [c [Hi [Hc _]]]]].
      assert (Hin : In (cell_string c) (pathrowstrs w)).
      { apply Hs. right. exists i, c. auto. }
      rewrite Hnone in Hin. destruct Hin. }
  unfold getMBR, corners, py_min. rewrite Hrows.
  destruct (paths w); reflexivity.
Qed.

Lemma getMBR_needs_a_cell_witness :
  getMBR Z.ltb (fun _ _ => Ok (0, 0))
    {| paths := [207; 208]; rows := []; pathrowstrs := []; feature := None |}
  = ([], Raise (ValueError "min() arg is an empty sequence")).
Proof.
  apply (getMBR_needs_a_cell Z.ltb (fun _ _ => Ok (0, 0))
           "no" "207,208,24,23,209" []).
  - vm_compute. reflexivity.
  - reflexivity.
Defined.

Section Rectangle.
Context {F : Type}.
Variable flt : F -> F -> bool.
Variable grid2ll : Z -> Z -> result (F * F).
Hypothesis flt_irrefl : forall a, flt a a = false.
Hypothesis flt_trans :
  forall a b c, flt a b = true -> flt b c = true -> flt a c = true.

Lemma least_below seen l x z :
  (forall u, In u seen -> flt u x = false) ->
  In z seen \/ z = x \/ In z l ->
  flt z (least flt x l) = false.
Proof.
  revert seen x. induction l as [|y l IH]; intros seen x Hseen Hz.
  - simpl. destruct Hz as [Hz|[->|[]]]; auto.
  - change (least flt x (y :: l))
      with (least flt (if flt y x then y else x) l).
    apply (IH (y :: x :: seen)).
    + intros u [Hu|[Hu|Hu]].
      * subst u. destruct (flt y x) eqn:E; [apply flt_irrefl|exact E].
      * subst u. destruct (flt y x) eqn:E; [|apply flt_irrefl].
        destruct (flt x y) eqn:E'; [|reflexivity].
        rewrite <- (flt_irrefl x). symmetry. eauto.
      * destruct (flt y x) eqn:E; [|now apply Hseen].
        destruct (flt u y) eqn:E'; [|reflexivity].
        rewrite <- (Hseen u Hu). symmetry. eauto.
    + destruct Hz as [Hz|[Hz|[Hz|Hz]]].
      * left. right. right. exact Hz.
      * left. right. left. now symmetry.
      * left. left. exact Hz.
      * right. right. exact Hz.
Qed.

Lemma greatest_above seen l x z :
  (forall u, In u seen -> flt x u = false) ->
  In z seen \/ z = x \/ In z l ->
  flt (greatest flt x l) z = false.
Proof.
  revert seen x. induction l as [|y l IH]; intros seen x Hseen Hz.
  - simpl. destruct Hz as [Hz|[->|[]]]; auto.
  - change (greatest flt x (y :: l))
      with (greatest flt (if flt x y then y else x) l).
    apply (IH (y :: x :: seen)).
    + intros u [Hu|[Hu|Hu]].
      * subst u. destruct (flt x y) eqn:E; [apply flt_irrefl|exact E].
      * subst u. destruct (flt x y) eqn:E; [|apply flt_irrefl].
        destruct (flt y x) eqn:E'; [|reflexivity].
        rewrite <- (flt_irrefl x). symmetry. eauto.
      * destruct (flt x y) eqn:E; [|now apply Hseen].
        destruct (flt y u) eqn:E'; [|reflexivity].
        rewrite <- (Hseen u Hu). symmetry. eauto.
    + destruct Hz as [Hz|[Hz|[Hz|Hz]]].
      * left. right. right. exact Hz.
      * left. right. left. now symmetry.
      * left. left. exact Hz.
      * right. right. exact Hz.
Qed.

Lemma ask_keeps prs posted Xcoords Ycoords posted' Xcoords' Ycoords' :
  ask grid2ll prs posted Xcoords Ycoords = (posted', Ok (Xcoords', Ycoords')) ->
  (forall x, In x Xcoords -> In x Xcoords')
  /\ (forall y, In y Ycoords -> In y Ycoords').
Proof.
  revert posted Xcoords Ycoords.
  induction prs as [|pr rest IH]; intros posted Xcoords Ycoords; simpl.
  - intros [= _ <- <-]. auto.
  - destruct (grid2ll (fst pr) (snd pr)) as [[x0 y0]|]; [|discriminate].
    intros Hrun. apply IH in Hrun. destruct Hrun as [Hx Hy].
    split; intros u Hu; [apply Hx|apply Hy]; apply in_or_app; now left.
Qed.

Lemma ask_answers prs posted Xcoords Ycoords posted' Xcoords' Ycoords' :
  ask grid2ll prs posted Xcoords Ycoords = (posted', Ok (Xcoords', Ycoords')) ->
  posted' = posted ++ prs
  /\ forall pr x y, In pr prs -> grid2ll (fst pr) (snd pr) = Ok (x, y) ->
       (In x Xcoords' /\ In y Ycoords').
Proof.
  revert posted Xcoords Ycoords.
  induction prs as [|pr rest IH]; intros posted Xcoords Ycoords; simpl.
  - intros [= <- <- <-]. rewrite app_nil_r. split; [reflexivity|].
    intros pr x y [].
  - destruct (grid2ll (fst pr) (snd pr)) as [[x0 y0]|] eqn:E; [|discriminate].
    intros Hrun. assert (Hkeep := Hrun). apply IH in Hrun.
    destruct Hrun as [-> Hin]. rewrite <- app_assoc. split; [reflexivity|].
    intros pr' x y [<-|Hpr] Hans.
    + rewrite E in Hans. injection Hans as <- <-.
      apply ask_keeps in Hkeep. destruct Hkeep as [Hx Hy].
      split; [apply Hx|apply Hy]; apply in_or_app; right; now left.
    + eauto.
Qed.

(** X5: the rectangle [getMBR] returns leaves none of the four answers
    of the service outside, and the four requests are for the corners of
    the path/row rectangle. *)
Theorem getMBR_encloses_answers w posted south west north east :
  getMBR flt grid2ll w = (posted, Ok [south; west; north; east]) ->
  corners w = Ok posted
  /\ forall pr x y,
       In pr posted -> grid2ll (fst pr) (snd pr) = Ok (x, y) ->
       flt y south = false /\ flt x west = false
       /\ flt north y = false /\ flt east x = false.
Proof.
  unfold getMBR. destruct (corners w) as [prs|]; [|discriminate].
  destruct (ask grid2ll prs [] [] []) as [posted' [[Xs Ys]|]] eqn:Eask;
    [|discriminate].
  apply ask_answers in Eask. destruct Eask as [-> Hans]. cbn [app] in *.
  destruct Xs as [|x0 xs]; [discriminate|].
  destruct Ys as [|y0 ys]; [discriminate|].
  intros [= <- <- <- <- <-]. split; [reflexivity|].
  intros pr x y Hpr Hxy. destruct (Hans pr x y Hpr Hxy) as [Hx Hy].
  repeat split.
  - apply (least_below []); [intros u []|]. right. simpl in Hy. intuition.
  - apply (least_below []); [intros u []|]. right. simpl in Hx. intuition.
  - apply (greatest_above []); [intros u []|]. right. simpl in Hy. intuition.
  - apply (greatest_above []); [intros u []|]. right. simpl in Hx. intuition.
Qed.
End Rectangle.

Lemma getMBR_encloses_answers_witness :
  corners {| paths := [207; 208]; rows := [23; 24];
             pathrowstrs := ["207023"; "207024"; "208023"; "208024"];
             feature := None |}
  = Ok [(207, 23); (207, 24); (208, 24); (208, 23)]
  /\ forall pr x y,
       In pr [(207, 23); (207, 24); (208, 24); (208, 23)] ->
       Ok (- fst pr, 90 - snd pr) = Ok (x, y) ->
       (y <? 66) = false /\ (x <? -208) = false
       /\ (67 <? y) = false /\ (-207 <? x) = false.
Proof.
  apply (getMBR_encloses_answers Z.ltb
           (fun path row => Ok (- path, 90 - row))).
  - intros a. apply Z.ltb_irrefl.
  - intros a b c. rewrite !Z.ltb_lt. lia.
  - vm_compute. reflexivity.
Defined.

Lemma split_from_length sep s cur :
  List.length (split_from sep s cur) = S (count_char sep s).
Proof.
  revert cur. induction s as [|x s IH]; intros cur; simpl.
  - reflexivity.
  - destruct (Ascii.eqb x sep); simpl; now rewrite IH.
Qed.

(** X6: [--MBR] is taken as typed exactly when it holds three commas,
    whatever stands between them; any other non-empty value is logged and
    ends the script with [SystemExit]; in neither case is the service
    asked. *)
Theorem MBR_argument_needs_three_commas {F : Type} (flt : F -> F -> bool)
    grid2ll arg w :
  arg <> ""%string ->
  set_MBR flt grid2ll (Some arg) w
  = if (count_char ","%char arg =? 3)%nat
    then ([], [], Ok (Typed (split ","%char arg)))
    else ([("--MBR"%string,
            "Total number of coordinates does not equal four."%string)],
          [], Raise SystemExit).
Proof.
  intros Hne. destruct arg as [|c s]; [congruence|].
  unfold set_MBR, split. rewrite split_from_length.
  change (S (count_char "," (String c s)) =? 4)%nat
    with (count_char "," (String c s) =? 3)%nat.
  destruct (count_char "," (String c s) =? 3)%nat; reflexivity.
Qed.

Lemma MBR_argument_needs_three_commas_witness :
  set_MBR Z.ltb (fun _ _ => Ok (0, 0)) (Some "51.4,-10.7,,east"%string) nothing
  = if (count_char ","%char "51.4,-10.7,,east" =? 3)%nat
    then ([], [], Ok (Typed (split ","%char "51.4,-10.7,,east")))
    else ([("--MBR"%string,
            "Total number of coordinates does not equal four."%string)],
          [], Raise SystemExit).
Proof.
  apply (MBR_argument_needs_three_commas Z.ltb (fun _ _ => Ok (0, 0))
           "51.4,-10.7,,east"%string nothing).
  discriminate.
Defined.

End SetupFacts.

(** ** The windows of a search *)

Section WindowTiling.

(** X7: the windows of one collection tile the period of the search.
    Each window is at most 365 days long and ends no later than the end
    date; each starts the day after the one before it ends; the first
    starts at the start date; there is none when the end date is not
    after the start date; and unless a date leaves the calendar, every
    day from the start date to the day before the end date lies in a
    window. *)
Theorem search_windows_tile_the_period d e :
  Forall (fun w => fst w <= snd w <= fst w + 365 /\ snd w <= e)
    (fst (windows d e))
  /\ chained (fst (windows d e))
  /\ (forall w, hd_error (fst (windows d e)) = Some w -> fst w = d)
  /\ (e <= d -> fst (windows d e) = [])
  /\ (snd (windows d e) = None ->
      forall t, d <= t < e ->
                exists w, In w (fst (windows d e)) /\ fst w <= t <= snd w).
Proof.
  funelim (windows d e); cbn [fst snd];
    repeat match goal with
           | H : @eq (sigma _) _ _ |- _ => clear H
           end;
    try clear Heqcall.
  - (* datetuple >= enddatetuple *)
    apply Z.ltb_ge in e. repeat split; auto; try discriminate; try lia.
  - (* the first step leaves the calendar *)
    repeat split; auto; try discriminate.
  - (* a window, and more to come *)
    pose proof (add_days_ok _ _ _ H365) as E365.
    pose proof (add_days_ok _ _ _ Hnext) as Enext.
    apply Z.ltb_lt in Hlt.
    match goal with
    | IH : Forall _ _ /\ _ |- _ =>
        destruct IH as [Hall [Hchain [Hhd [Hnil Hcover]]]]
    end.
    set (stop := if e0 >? enddatetuple then enddatetuple else e0) in *.
    assert (Hstop : datetuple <= stop <= datetuple + 365 /\ stop <= enddatetuple).
    { unfold stop. destruct (e0 >? enddatetuple) eqn:E; lia. }
    assert (Hx : 1 <= datetuple + 365 <= MAXORDINAL).
    { unfold add_days in H365.
      destruct ((1 <=? datetuple + 365) && (datetuple + 365 <=? MAXORDINAL))
        eqn:E; [|discriminate]. apply andb_prop in E. lia. }
    split; [|split; [|split; [|split]]].
    + constructor; [simpl; lia|exact Hall].
    + simpl. split; [|exact Hchain].
      destruct (fst (windows next enddatetuple)) as [|w' ws] eqn:Ews; [exact I|].
      rewrite (Hhd w' eq_refl). simpl. lia.
    + simpl. intros w [= <-]. reflexivity.
    + intros Hle. lia.
    + intros Hok t Ht. destruct (Z_le_gt_dec t stop) as [Hin|Hout].
      * exists (datetuple, stop). split; [now left|simpl; lia].
      * destruct (Hcover Hok t) as [w [Hw Hb]]; [lia|].
        exists w. split; [now right|exact Hb].
  - (* the last window, the next date leaves the calendar *)
    pose proof (add_days_ok _ _ _ H365) as E365.
    apply Z.ltb_lt in Hlt.
    set (stop := if e0 >? enddatetuple then enddatetuple else e0) in *.
    assert (Hstop : datetuple <= stop <= datetuple + 365 /\ stop <= enddatetuple).
    { unfold stop. destruct (e0 >? enddatetuple) eqn:E; lia. }
    assert (Hx : 1 <= datetuple + 365 <= MAXORDINAL).
    { unfold add_days in H365.
      destruct ((1 <=? datetuple + 365) && (datetuple + 365 <=? MAXORDINAL))
        eqn:E; [|discriminate]. apply andb_prop in E. lia. }
    split; [|split; [|split; [|split]]].
    + constructor; [simpl; lia|constructor].
    + simpl. auto.
    + simpl. intros w [= <-]. reflexivity.
    + intros Hle. lia.
    + discriminate.
Qed.
End WindowTiling.


(** ** What [scenesearch] asks metadata for, and what it never records *)

Section SearchFacts.
Variable usgs_search : string -> Z -> Z -> result (list SearchResult).
Variable usgs_metadata : string -> list string -> result (list MetadataItem).
Variable float_parses : string -> bool.
Variable time_parses : string -> bool.
Variable g : Globals.
Variables scenelist updatemissing badgeom : list string.
Variable lastmodifiedDate : option string.

Lemma keeps_bind_result P A B (m : M A) (k : A -> M B) (Q : A -> Prop) :
  keeps P m ->
  (forall s s' a, m s = (s', Ok a) -> Q a) ->
  (forall a, Q a -> keeps P (k a)) ->
  keeps P (bindM m k).
Proof.
  intros Hm HQ Hk s H. unfold bindM.
  specialize (Hm s H). specialize (HQ s).
  destruct (m s) as [s' [a|e]]; simpl in *.
  - apply Hk; eauto.
  - exact Hm.
Qed.

Lemma block_incl querylist i x :
  In i (range (iterations (List.length querylist))) ->
  In x (block querylist i) -> In x querylist.
Proof.
  intros Hi Hx. unfold range in Hi. apply in_seq in Hi.
  destruct (in_block querylist i x ltac:(lia) Hx) as [j [_ Hj]].
  eapply nth_error_In; eauto.
Qed.

Lemma keeps_wanted_window ds w :
  keeps (asks_for_wanted g scenelist updatemissing badgeom)
    (query_window usgs_search usgs_metadata float_parses time_parses g
       scenelist updatemissing badgeom ds w).
Proof.
  unfold query_window.
  apply keeps_bind; [apply keeps_emit; exact I|intros _].
  apply keeps_bind; [apply keeps_lift|intros results].
  apply keeps_bind_result
    with (Q := fun ql => Forall (fun id => wanted g scenelist updatemissing
                                             badgeom id = true) ql).
  - apply keeps_scan_results.
  - intros s s' ql Hrun. apply scan_results_selects in Hrun. subst ql.
    cbn [app]. apply Forall_forall. intros id Hid.
    apply filter_In in Hid. tauto.
  - intros ql Hql. apply keeps_for_each. intros b Hb.
    apply keeps_query_block. simpl.
    unfold metadata_blocks in Hb. apply in_map_iff in Hb.
    destruct Hb as [i [<- Hi]].
    rewrite Forall_forall in *. intros id Hid.
    apply Hql. eapply block_incl; eauto.
Qed.

(** X8: [scenesearch] asks for the metadata of a scene only when the
    scene is of a configured path and row and is either missing from the
    catalogue or flagged for a missing date or a bad geometry. *)
Theorem metadata_only_for_wanted_scenes ds ids id :
  In (MetadataRequest ds ids)
    (trace (fst (scenesearch usgs_search usgs_metadata float_parses
                   time_parses g scenelist updatemissing badgeom
                   lastmodifiedDate))) ->
  In id ids ->
  str_in (str_slice id 3 9) (pathrowstrs g) = true
  /\ (str_in id scenelist = false
      \/ str_in id updatemissing = true
      \/ str_in id badgeom = true).
Proof.
  intros Hreq Hid.
  assert (Hall : Forall (asks_for_wanted g scenelist updatemissing badgeom)
                   (trace (fst (scenesearch usgs_search usgs_metadata
                                  float_parses time_parses g scenelist
                                  updatemissing badgeom lastmodifiedDate)))).
  { unfold scenesearch.
    match goal with
    | |- Forall _ (trace (fst (?m scenesearch_start))) =>
        assert (Hk : keeps (asks_for_wanted g scenelist updatemissing badgeom) m)
    end.
    { apply keeps_bind.
      - apply keeps_for_each. intros d _. unfold search_dataset.
        apply keeps_bind; [apply keeps_lift|intros b].
        apply keeps_bind.
        + apply keeps_for_each. intros w _. apply keeps_wanted_window.
        + intros _. destruct (snd (windows (fst b) (snd b)));
            [apply keeps_raise|apply keeps_ret].
      - intros _ s H. exact H. }
    apply Hk. constructor. }
  rewrite Forall_forall in Hall. specialize (Hall _ Hreq). simpl in Hall.
  rewrite Forall_forall in Hall. specialize (Hall _ Hid).
  unfold wanted in Hall. apply andb_prop in Hall. destruct Hall as [Hpr Hw].
  split; [exact Hpr|].
  apply orb_prop in Hw. destruct Hw as [Hw|Hw]; [|auto].
  apply orb_prop in Hw. destruct Hw as [Hw|Hw]; [|auto].
  left. now apply negb_true_iff.
Qed.

(** *** The state of the dictionaries *)

Lemma preserves_ret I A (a : A) : preserves I (ret a).
Proof. intros s H. exact H. Qed.

Lemma preserves_raise I A e : preserves I (@raise A e).
Proof. intros s H. exact H. Qed.

Lemma preserves_lift I A (r : result A) : preserves I (lift r).
Proof. intros s H. exact H. Qed.

Lemma preserves_bind I A B (m : M A) (k : A -> M B) :
  preserves I m -> (forall a, preserves I (k a)) -> preserves I (bindM m k).
Proof.
  intros Hm Hk s H. unfold bindM.
  specialize (Hm s H). destruct (m s) as [s' [a|e]]; simpl in *.
  - now apply Hk.
  - exact Hm.
Qed.

Lemma preserves_for_each I A (l : list A) (body : A -> M unit) :
  (forall x, preserves I (body x)) -> preserves I (for_each l body).
Proof.
  intros Hbody. induction l as [|x l IH]; simpl.
  - apply preserves_ret.
  - apply preserves_bind; [apply Hbody|intros _; exact IH].
Qed.

Lemma never_has_emit k r : preserves (never_has k) (emit r).
Proof. intros s H. exact H. Qed.

Lemma never_has_bind_sceneID k sid : preserves (never_has k) (bind_sceneID sid).
Proof. intros s H. exact H. Qed.

Lemma never_has_read_sceneID k : preserves (never_has k) read_sceneID.
Proof. intros s H. unfold read_sceneID. now destruct (sceneID_var s). Qed.

Lemma never_has_entry_of k sid : preserves (never_has k) (entry_of sid).
Proof.
  intros s H. unfold entry_of. now destruct (dict_get sid (scenedict s)).
Qed.

Lemma dict_has_set_other {V} k k' (v : V) d :
  String.eqb k k' = false -> dict_has k' (dict_set k v d) = dict_has k' d.
Proof. intros H. unfold dict_has. now rewrite dict_get_set_other. Qed.

Lemma never_has_set_entry k sid e :
  dict_has k e = false -> preserves (never_has k) (set_entry sid e).
Proof.
  intros He s H sid' e'. cbn [set_entry fst scenedict].
  destruct (String.eqb sid sid') eqn:E.
  - apply String.eqb_eq in E. subst. rewrite dict_get_set_same.
    intros [= <-]. exact He.
  - rewrite dict_get_set_other by exact E. apply H.
Qed.

Lemma never_has_set_field k sid k' v :
  String.eqb k' k = false -> preserves (never_has k) (set_field sid k' v).
Proof.
  intros Hne s H. unfold set_field, bindM, entry_of.
  destruct (dict_get sid (scenedict s)) as [e|] eqn:E; [|exact H].
  apply never_has_set_entry; [|exact H].
  rewrite dict_has_set_other by exact Hne. eapply H; eauto.
Qed.

Lemma unlike_a_name_with_L1 k k' :
  contains "L-1" k = true -> contains "L-1" k' = false ->
  String.eqb k' k = false.
Proof. intros Hk Hk'. apply String.eqb_neq. congruence. Qed.

(** Takes a goal [preserves I m] apart along the binds and case
    distinctions of [m]. *)
Ltac preserves_step :=
  match goal with
  | |- preserves _ (bindM _ _) => apply preserves_bind; [|intros ?]
  | |- preserves _ (ret _) => apply preserves_ret
  | |- preserves _ (raise _) => apply preserves_raise
  | |- preserves _ (lift _) => apply preserves_lift
  | |- preserves _ (emit _) => apply never_has_emit
  | |- preserves _ (bind_sceneID _) => apply never_has_bind_sceneID
  | |- preserves _ read_sceneID => apply never_has_read_sceneID
  | |- preserves _ (entry_of _) => apply never_has_entry_of
  | |- preserves _ (set_field _ _ _) =>
      apply never_has_set_field; apply unlike_a_name_with_L1;
      [assumption|reflexivity]
  | |- preserves _ (if ?c then _ else _) => destruct c
  | |- preserves _ (match ?x with _ => _ end) => destruct x
  end.

(** After the replacement of ["L-1"] by ["L1"] no ["L-1"] is left. *)
Lemma replace_L1_starts s :
  prefix "-1" (replace_aux "L-1" "L1" s 0) = true -> prefix "-1" s = true.
Proof.
  destruct s as [|c s]; [discriminate|].
  cbn [replace_aux]. destruct (prefix "L-1" (String c s)) eqn:E.
  - discriminate.
  - cbn [prefix]. destruct (ascii_dec "-" c) as [<-|]; [|discriminate].
    destruct s as [|c2 s]; [discriminate|].
    cbn [replace_aux]. destruct (prefix "L-1" (String c2 s)) eqn:E2.
    + discriminate.
    + cbn [prefix]. destruct (ascii_dec "1" c2) as [<-|]; [|discriminate].
      intros _. now destruct s.
Qed.

Lemma replace_L1_clean s skip :
  contains "L-1" (replace_aux "L-1" "L1" s skip) = false.
Proof.
  revert skip. induction s as [|c s IH]; intros skip; [reflexivity|].
  cbn [replace_aux]. destruct skip as [|k]; [|apply IH].
  destruct (prefix "L-1" (String c s)) eqn:E.
  - change (String.length "L-1" - 1)%nat with 2%nat.
    change ("L1" ++ replace_aux "L-1" "L1" s 2)%string
      with (String "L" (String "1" (replace_aux "L-1" "L1" s 2))).
    cbn [contains prefix]. simpl. apply IH.
  - cbn [contains]. rewrite IH, orb_false_r.
    destruct (prefix "L-1" (String c (replace_aux "L-1" "L1" s 0))) eqn:E';
      [|reflexivity].
    cbn [prefix] in E'. destruct (ascii_dec "L" c) as [<-|]; [|discriminate].
    apply replace_L1_starts in E'.
    cbn [prefix] in E. destruct (ascii_dec "L" "L"); [|congruence].
    congruence.
Qed.

Lemma normalised_name_differs name k :
  contains "L-1" k = true ->
  String.eqb (replace "L-1" "L1" name) k = false.
Proof.
  intros Hk. apply String.eqb_neq. intros <-.
  unfold replace in Hk. now rewrite replace_L1_clean in Hk.
Qed.

Lemma never_has_record_field k sid subitem :
  contains "L-1" k = true ->
  preserves (never_has k) (record_field float_parses time_parses sid subitem).
Proof.
  intros Hk. unfold record_field.
  set (fieldname := replace "L-1" "L1" (lstrip (rstrip (fst subitem)))).
  assert (Hne : String.eqb fieldname k = false)
    by now apply normalised_name_differs.
  repeat preserves_step.
  - unfold convert. repeat preserves_step.
  - now apply never_has_set_field.
Qed.

Lemma preserves_bind_lift I A B (r : result A) (k : A -> M B) :
  (forall a, r = Ok a -> preserves I (k a)) -> preserves I (bindM (lift r) k).
Proof.
  intros Hk s H. unfold bindM, lift. destruct r as [a|e]; simpl.
  - now apply Hk.
  - exact H.
Qed.

Lemma dict_has_none_such {V} k (d : dict V) :
  contains "L-1" k = true ->
  Forall (fun kv => contains "L-1" (fst kv) = false) d ->
  dict_has k d = false.
Proof.
  intros Hk Hd. unfold dict_has.
  induction Hd as [|[k0 v0] d Hk0 _ IH]; [reflexivity|]. simpl in *.
  destruct (String.eqb k0 k) eqn:E; [|exact IH].
  apply String.eqb_eq in E. congruence.
Qed.

Lemma never_has_scan_results k ds results ql :
  contains "L-1" k = true ->
  preserves (never_has k)
    (scan_results g scenelist updatemissing badgeom ds results ql).
Proof.
  intros Hk. revert ql. induction results as [|r rest IH]; intros ql; simpl.
  - apply preserves_ret.
  - apply preserves_bind; [apply never_has_bind_sceneID|intros _].
    destruct (wanted g scenelist updatemissing badgeom (entityId r));
      [|apply IH].
    apply preserves_bind_lift. intros e He.
    apply preserves_bind; [|intros _; apply IH].
    apply never_has_set_entry. unfold first_entry in He.
    destruct (strptime_ymd "-" (modifiedDate r)); [|discriminate].
    injection He as <-. apply dict_has_none_such; [exact Hk|].
    repeat constructor.
Qed.

Lemma scenesearch_never_has k :
  contains "L-1" k = true ->
  never_has k
    (fst (scenesearch usgs_search usgs_metadata float_parses time_parses g
            scenelist updatemissing badgeom lastmodifiedDate)).
Proof.
  intros Hk. unfold scenesearch.
  match goal with
  | |- never_has _ (fst (?m scenesearch_start)) =>
      assert (Hm : preserves (never_has k) m)
  end.
  { apply preserves_bind; [|intros _ s H; exact H].
    apply preserves_for_each. intros d. unfold search_dataset.
    apply preserves_bind; [apply preserves_lift|intros b].
    apply preserves_bind.
    - apply preserves_for_each. intros w. unfold query_window.
      apply preserves_bind; [apply never_has_emit|intros _].
      apply preserves_bind; [apply preserves_lift|intros results].
      apply preserves_bind;
        [now apply never_has_scan_results|intros ql].
      apply preserves_for_each. intros blk. unfold query_block.
      apply preserves_bind.
      { apply preserves_for_each. intros x. apply never_has_bind_sceneID. }
      intros _.
      apply preserves_bind; [apply never_has_emit|intros _].
      apply preserves_bind; [apply preserves_lift|intros items].
      destruct items as [|item items]; [apply preserves_ret|].
      apply preserves_bind.
      { apply preserves_for_each. intros it. unfold record_item.
        destruct (metadataFields it) as [|f fs]; [apply preserves_ret|].
        apply preserves_bind.
        { unfold find_sceneID. repeat preserves_step. }
        intros _.
        apply preserves_bind; [apply never_has_read_sceneID|intros sid0].
        apply preserves_bind.
        { apply preserves_for_each. intros x.
          now apply never_has_record_field. }
        intros _. unfold flag_item. repeat preserves_step. }
      intros _. repeat preserves_step.
    - intros _. destruct (snd (windows (fst b) (snd b)));
        [apply preserves_raise|apply preserves_ret]. }
  apply Hm. intros sid0 e0 H0. discriminate H0.
Qed.

(** X9: whatever the inventory answers, [scenesearch] records no value
    under the name ["Date L-1 Generated"], which is the name a row of
    [fieldvaluelist] goes by: the name of a metadata field is looked up
    with ["L-1"] replaced by ["L1"]. *)
Theorem date_L1_generated_never_recorded sid e :
  dict_get sid
    (scenedict (fst (scenesearch usgs_search usgs_metadata float_parses
                       time_parses g scenelist updatemissing badgeom
                       lastmodifiedDate))) = Some e ->
  In "Date L-1 Generated" queryfieldnames
  /\ dict_get "Date L-1 Generated" e = None.
Proof.
  intros He. split; [vm_compute; tauto|].
  pose proof (scenesearch_never_has "Date L-1 Generated" eq_refl _ _ He)
    as Hinv.
  unfold dict_has in Hinv.
  now destruct (dict_get "Date L-1 Generated" e).
Qed.

End SearchFacts.

Lemma metadata_only_for_wanted_scenes_witness :
  str_in (str_slice (scene_of_day 60) 3 9) (pathrowstrs spring_2013) = true
  /\ (str_in (scene_of_day 60) [] = false
      \/ str_in (scene_of_day 60) [] = true
      \/ str_in (scene_of_day 60) [] = true).
Proof.
  apply (metadata_only_for_wanted_scenes hundred_found no_metadata always
           always spring_2013 [] [] [] None "LANDSAT_8_C1"
           (firstn 99 hundred_scenes) (scene_of_day 60)).
  - vm_compute. right. left. reflexivity.
  - vm_compute. left. reflexivity.
Defined.

Lemma date_L1_generated_never_recorded_witness :
  In "Date L-1 Generated" queryfieldnames
  /\ dict_get "Date L-1 Generated" dated_entry = None.
Proof.
  apply (date_L1_generated_never_recorded one_found dated_metadata always
           always spring_2013 [] [] [] None (scene_of_day 101) dated_entry).
  vm_compute. reflexivity.
Defined.

(** ** The download loops, pass by pass *)

Section DownloadBounds.

(** X10: given five passes for each file, [dlxmls] (once [pathrows] is
    bound) does not stay in a loop, makes at most five attempts for each
    file, and whenever it returns it returns ['Success!'], also when
    downloads failed. *)
Theorem dlxmls_five_attempts_then_success net file_exists today fuel
    startdate enddate ingestdir items s :
  (5 <= fuel)%nat ->
  (exists s',
      dlxmls_items net file_exists today fuel startdate enddate ingestdir
        items s
      = Returned (Some "Success!"%string) s'
      /\ (List.length (attempts s')
          <= List.length (attempts s) + 5 * List.length items)%nat)
  \/ (exists e s',
      dlxmls_items net file_exists today fuel startdate enddate ingestdir
        items s
      = Raised e s'
      /\ (List.length (attempts s')
          <= List.length (attempts s) + 5 * List.length items)%nat).
Proof.
  intros Hfuel. revert s.
  induction items as [|[x p] rest IH]; intros s; cbn [dlxmls_items].
  - left. exists s. split; [reflexivity|lia].
  - destruct (file_exists (path_join ingestdir x)
              && match today with
                 | Some _ => false
                 | None => true
                 end).
    { right. eexists. eexists. split; [reflexivity|lia]. }
    destruct (xml_url p startdate enddate) as [urlname|e].
    2:{ right. eexists. eexists. split; [reflexivity|lia]. }
    destruct (dlxmls_loop_bounded net urlname fuel 1 s)
      as [[t [d [s1 [Hrun [Hlen _]]]]]|[e [s1 [Hrun Hlen]]]]; try lia;
      rewrite Hrun.
    + match goal with
      | |- context [dlxmls_items _ _ _ _ _ _ _ rest ?s2] =>
          destruct (IH s2) as [[s' [Hrest Hl]]|[e [s' [Hrest Hl]]]];
          [left|right; exists e]; exists s'; (split; [exact Hrest|]);
          assert (Hs2 : List.length (attempts s2) = List.length (attempts s1))
            by (destruct (t =? 6); reflexivity)
      end.
      * rewrite Hs2 in Hl. cbn [List.length]. change (Z.to_nat (6 - 1)) with 5%nat in Hlen. lia.
      * rewrite Hs2 in Hl. cbn [List.length]. change (Z.to_nat (6 - 1)) with 5%nat in Hlen. lia.
    + right. exists e, s1. split; [reflexivity|].
      cbn [List.length]. change (Z.to_nat (6 - 1)) with 5%nat in Hlen. lia.
Qed.

(** The loop of [dlthumb] on a network that refuses no attempt: from
    [tries], [6 - tries] passes are enough for it to end, it makes no more
    attempts than that, and it ends with the file or with [tries] at 6. *)
Lemma dlthumb_loop_bounded net u fuel tries s :
  (forall n x reason, net n x <> Refused reason) ->
  1 <= tries <= 6 ->
  (Z.to_nat (6 - tries) <= fuel)%nat ->
  (exists tries' downloaded' s',
      dlthumb_loop net fuel (Some u) tries false s
      = Returned (tries', downloaded') s'
      /\ (List.length (attempts s')
          <= List.length (attempts s) + Z.to_nat (6 - tries))%nat
      /\ errors s' = errors s
      /\ (if downloaded' then tries' < 6 else tries' = 6))
  \/ (exists e s',
      dlthumb_loop net fuel (Some u) tries false s = Raised e s'
      /\ (List.length (attempts s')
          <= List.length (attempts s) + Z.to_nat (6 - tries))%nat).
Proof.
  intros Hnet. revert tries s.
  induction fuel as [|fuel IH]; intros tries s Htries Hfuel.
  - assert (tries = 6) by lia. subst. simpl.
    left. exists 6, false, s. repeat split; lia.
  - cbn [dlthumb_loop negb andb]. destruct (tries <? 6) eqn:Elt.
    + apply Z.ltb_lt in Elt.
      destruct (net (List.length (attempts s)) u) as [| |reason|e] eqn:En.
      * left. exists tries, true, (attempt u s).
        split; [destruct fuel; reflexivity|].
        cbn [attempt attempts errors]. rewrite length_app. cbn [List.length].
        repeat split; lia.
      * destruct (IH (tries + 1) (attempt u s))
          as [[t' [d' [s' [Hrun [Hlen [Herr Hend]]]]]]|[e [s' [Hrun Hlen]]]];
          try lia.
        -- left. exists t', d', s'. split; [exact Hrun|].
           cbn [attempt attempts errors] in *.
           rewrite length_app in Hlen. cbn [List.length] in Hlen.
           repeat split; auto; lia.
        -- right. exists e, s'. split; [exact Hrun|].
           cbn [attempt attempts] in Hlen.
           rewrite length_app in Hlen. cbn [List.length] in Hlen. lia.
      * exfalso. eapply Hnet; eauto.
      * right. exists e, (attempt u s). split; [reflexivity|].
        cbn [attempt attempts]. rewrite length_app. cbn [List.length]. lia.
    + apply Z.ltb_ge in Elt. left. exists tries, false, s.
      repeat split; lia.
Qed.

(** X11: when no attempt ends in [URLError], [dlthumb] makes at most five
    attempts and ends: with ['Success!'] and nothing logged, or after a
    file came short five times with [None] and one entry
    ['Download error.'] for the thumbnail, or with the exception an
    attempt raised. *)
Theorem dlthumb_ends_when_nothing_is_refused net fuel u url jpgdir s :
  (forall n x reason, net n x <> Refused reason) ->
  (5 <= fuel)%nat ->
  exists s',
    (List.length (attempts s') <= List.length (attempts s) + 5)%nat
    /\ (dlthumb net fuel (Some u) url jpgdir s
        = Returned (Some "Success!"%string) s'
        /\ errors s' = errors s
        \/ dlthumb net fuel (Some u) url jpgdir s = Returned None s'
           /\ errors s'
              = errors s
                ++ [(path_join jpgdir (basename url), "Download error."%string)]
        \/ exists e, dlthumb net fuel (Some u) url jpgdir s = Raised e s').
Proof.
  intros Hnet Hfuel. unfold dlthumb.
  destruct (dlthumb_loop_bounded net u fuel 1 s Hnet)
    as [[t [d [s1 [Hrun [Hlen [Herr Hend]]]]]]|[e [s1 [Hrun Hlen]]]];
    try lia; rewrite Hrun;
    change (Z.to_nat (6 - 1)) with 5%nat in Hlen.
  - destruct d.
    + exists s1. split; [exact Hlen|]. left.
      replace (t =? 6) with false by (symmetry; apply Z.eqb_neq; lia). auto.
    + subst t. cbn [Z.eqb Pos.eqb].
      eexists. split; [|right; left; split; [reflexivity|]].
      * cbn [logerror attempts]. exact Hlen.
      * cbn [logerror errors]. now rewrite Herr.
  - exists s1. split; [exact Hlen|]. right. right. exists e. reflexivity.
Qed.
End DownloadBounds.

Lemma dlxmls_five_attempts_then_success_witness :
  (exists s',
      dlxmls_items (unreachable "timed out") (fun _ => false) None 5
        "2013-03-01" "2013-06-30" "/ingest/Metadata"
        [("a.xml", ["207"; "208"; "23"; "24"])] no_downloads
      = Returned (Some "Success!"%string) s'
      /\ (List.length (attempts s')
          <= List.length (attempts no_downloads) + 5 * 1)%nat)
  \/ (exists e s',
      dlxmls_items (unreachable "timed out") (fun _ => false) None 5
        "2013-03-01" "2013-06-30" "/ingest/Metadata"
        [("a.xml", ["207"; "208"; "23"; "24"])] no_downloads
      = Raised e s'
      /\ (List.length (attempts s')
          <= List.length (attempts no_downloads) + 5 * 1)%nat).
Proof.
  apply (dlxmls_five_attempts_then_success (unreachable "timed out")
           (fun _ => false) None 5 "2013-03-01" "2013-06-30"
           "/ingest/Metadata" [("a.xml", ["207"; "208"; "23"; "24"])]
           no_downloads).
  lia.
Defined.

Lemma dlthumb_ends_when_nothing_is_refused_witness :
  exists s',
    (List.length (attempts s') <= List.length (attempts no_downloads) + 5)%nat
    /\ (dlthumb short_files 5 (Some "http://usgs/x.jpg") "http://usgs/x.jpg"
          "/cat/Thumbnails" no_downloads
        = Returned (Some "Success!"%string) s'
        /\ errors s' = errors no_downloads
        \/ dlthumb short_files 5 (Some "http://usgs/x.jpg") "http://usgs/x.jpg"
             "/cat/Thumbnails" no_downloads
           = Returned None s'
           /\ errors s'
              = errors no_downloads
                ++ [(path_join "/cat/Thumbnails" (basename "http://usgs/x.jpg"),
                     "Download error."%string)]
        \/ exists e,
             dlthumb short_files 5 (Some "http://usgs/x.jpg")
               "http://usgs/x.jpg" "/cat/Thumbnails" no_downloads
             = Raised e s').
Proof.
  apply (dlthumb_ends_when_nothing_is_refused short_files 5
           "http://usgs/x.jpg" "http://usgs/x.jpg" "/cat/Thumbnails"
           no_downloads).
  - intros n x reason. discriminate.
  - lia.
Defined.

(** ** The validation pass: counters and dates *)

Section PassFacts.
Import Handover.

Lemma validate_feature_counted verbose catalog f s :
  counted s -> counted (fst (validate_feature verbose catalog f s)).
Proof.
  unfold counted, validate_feature, drop_for_reimport, check_geometry,
    check_date.
  intros [Ht [Hm [Hd Hg]]].
  repeat match goal with
         | |- context [match ?x with _ => _ end] => destruct x
         end;
    cbn; rewrite ?length_app; cbn; lia.
Qed.

Lemma validate_feature_dated verbose catalog f s :
  dated s -> dated (fst (validate_feature verbose catalog f s)).
Proof.
  unfold validate_feature, drop_for_reimport, check_geometry.
  intros Hs.
  assert (Hdate : forall sceneID s0, dated s0 -> dated (check_date f sceneID s0)).
  { intros sceneID s0 H0. unfold check_date.
    destruct (GetField "dateUpdated" f) as [[[| d | | | | |]|]|]; cbn [bind];
      try exact H0.
    destruct (strptime_ymd "/" d) as [t|] eqn:Ed; cbn [bind]; [|exact H0].
    destruct (match v_lastupdate s0 with
              | Some lastupdate => t >? lastupdate
              | None => true
              end); [|exact H0].
    unfold dated. cbn. eauto. }
  destruct (GetField "sceneID" f) as [sceneID|]; [|exact Hs].
  destruct (GetField "SensorID" f) as [sensor|]; [|exact Hs].
  destruct (negb (value_in sensor sensors)).
  - destruct sceneID as [[| sid | | | | |]|]; try exact Hs.
    destruct (strptime_Yj (str_slice sid 9 16)); exact Hs.
  - specialize (Hdate sceneID (append_scenelist sceneID s) Hs).
    destruct (geometry f) as [ring|].
    + destruct (degenerate (GetEnvelope ring)); exact Hdate.
    + destruct verbose; exact Hdate.
Qed.

Lemma validation_loop_keeps (I : vstate -> Prop) verbose catalog f s :
  (forall f s, I s -> I (fst (validate_feature verbose catalog f s))) ->
  (forall l s, I s -> I (with_layer l s)) ->
  I s -> I (fst (validation_loop verbose catalog f s)).
Proof.
  intros Hkeeps Hlayer.
  funelim (validation_loop verbose catalog f s);
    repeat match goal with
           | H : @eq (sigma _) _ _ |- _ => clear H
           end;
    try clear Heqcall; intros Hs.
  all: pose proof (Hkeeps f s Hs) as Hstep;
    match goal with
    | H : validate_feature _ _ _ _ = _ |- _ => rewrite H in Hstep
    end; cbn [fst] in *; auto.
  match goal with
  | IH : forall I : vstate -> Prop, _ |- _ => apply IH; auto
  end.
Qed.

(** X12: whatever the layer holds and however the pass ends, its error
    counters add up: the total is the sum of the three kinds, the
    scenes on [reimport] and on [updatemissing] are as many as the
    metadata and date errors counted, and no more geometry errors are
    counted than scenes are on [badgeom]. *)
Theorem validation_counters_add_up verbose catalog feature layer :
  let s := fst (validation_pass verbose catalog feature layer) in
  v_errors_total s
  = v_errors_metadata s + v_errors_date s + v_errors_geometry s
  /\ v_errors_metadata s = Z.of_nat (List.length (v_reimport s))
  /\ v_errors_date s = Z.of_nat (List.length (v_updatemissing s))
  /\ 0 <= v_errors_geometry s <= Z.of_nat (List.length (v_badgeom s)).
Proof.
  cbv zeta. change (counted (fst (validation_pass verbose catalog feature layer))).
  unfold validation_pass.
  assert (H0 : forall l, counted (vstart l)) by (intros l; cbv; repeat split; discriminate).
  destruct (0 <? GetFeatureCount layer); [|apply H0].
  destruct feature as [f|]; [|apply H0].
  apply validation_loop_keeps.
  - intros; now apply validate_feature_counted.
  - intros l s Hs. exact Hs.
  - apply H0.
Qed.

Lemma validation_pass_dated verbose catalog feature layer :
  dated (fst (validation_pass verbose catalog feature layer)).
Proof.
  unfold validation_pass.
  assert (H0 : forall l, dated (vstart l)) by (intros l; reflexivity).
  destruct (0 <? GetFeatureCount layer); [|apply H0].
  destruct feature as [f|]; [|apply H0].
  apply validation_loop_keeps.
  - intros; now apply validate_feature_dated.
  - intros l s Hs. exact Hs.
  - apply H0.
Qed.

Lemma replace_char_unslashed s :
  list_ascii_of_string (replace_char "/" "-" s)
  = map unslashed (list_ascii_of_string s).
Proof. induction s as [|c s IH]; simpl; [reflexivity|now rewrite IH]. Qed.

Lemma digit_unslashed c v :
  digit_val c = Some v ->
  unslashed c = c /\ Ascii.eqb c "-" = false /\ Ascii.eqb c "/" = false.
Proof.
  intros H. unfold unslashed.
  destruct (Ascii.eqb c "/") eqn:E1.
  - apply Ascii.eqb_eq in E1. subst c. discriminate H.
  - destruct (Ascii.eqb c "-") eqn:E2; [|auto].
    apply Ascii.eqb_eq in E2. subst c. discriminate H.
Qed.

Lemma digits2_unslashed c1 c2 v :
  digits2 c1 c2 = Some v ->
  digits2 (unslashed c1) (unslashed c2) = Some v
  /\ Ascii.eqb c2 "-" = false /\ Ascii.eqb c2 "/" = false
  /\ unslashed c1 = c1 /\ unslashed c2 = c2.
Proof.
  unfold digits2.
  destruct (digit_val c1) as [a|] eqn:E1; [|discriminate].
  destruct (digit_val c2) as [b|] eqn:E2; [|discriminate].
  destruct (digit_unslashed _ _ E1) as [-> _].
  destruct (digit_unslashed _ _ E2) as [-> [? ?]].
  rewrite E1, E2. auto.
Qed.

Lemma parse_Y_unslashed cs y rest :
  parse_Y cs = Some (y, rest) ->
  parse_Y (map unslashed cs) = Some (y, map unslashed rest).
Proof.
  unfold parse_Y.
  destruct cs as [|c1 [|c2 [|c3 [|c4 cs]]]]; try discriminate.
  cbn [map].
  destruct (digits2 c1 c2) as [hi|] eqn:E1; [|discriminate].
  destruct (digits2 c3 c4) as [lo|] eqn:E2; [|discriminate].
  destruct (digits2_unslashed _ _ _ E1) as [-> _].
  destruct (digits2_unslashed _ _ _ E2) as [-> _].
  now intros [= <- <-].
Qed.

Lemma parse_m_unslashed cs m rest :
  parse_m "/" cs = Some (m, rest) ->
  parse_m "-" (map unslashed cs) = Some (m, map unslashed rest).
Proof.
  unfold parse_m. destruct cs as [|c1 [|c2 cs]]; try discriminate.
  cbn [map]. destruct (Ascii.eqb c2 "/") eqn:E2.
  - apply Ascii.eqb_eq in E2. subst c2.
    change (unslashed "/") with "-"%char. cbn [Ascii.eqb Bool.eqb andb].
    destruct (digit_val c1) as [v|] eqn:E1; [|discriminate].
    destruct (digit_unslashed _ _ E1) as [-> _]. rewrite E1.
    destruct (1 <=? v); [|discriminate]. now intros [= <- <-].
  - destruct (digits2 c1 c2) as [v|] eqn:E; [|discriminate].
    destruct (digits2_unslashed _ _ _ E) as [E' [Hd [_ [Hc1 Hc2]]]].
    rewrite Hc2, Hd. rewrite Hc2, Hc1 in E'. rewrite Hc1, E'.
    destruct cs as [|c3 cs]; [discriminate|]. cbn [map].
    destruct (Ascii.eqb c3 "/") eqn:E3; [|discriminate].
    apply Ascii.eqb_eq in E3. subst c3.
    change (unslashed "/") with "-"%char. cbn [Ascii.eqb Bool.eqb andb].
    cbn [andb] in *.
    destruct ((1 <=? v) && (v <=? 12)); [|discriminate].
    now intros [= <- <-].
Qed.

Lemma parse_d_unslashed cs d :
  parse_d cs = Some d -> parse_d (map unslashed cs) = Some d.
Proof.
  unfold parse_d. destruct cs as [|c1 [|c2 [|c3 cs]]]; try discriminate.
  - cbn [map]. destruct (digit_val c1) as [v|] eqn:E1; [|discriminate].
    destruct (digit_unslashed _ _ E1) as [-> _]. now rewrite E1.
  - cbn [map]. destruct (Ascii.eqb c1 " ") eqn:Es.
    + apply Ascii.eqb_eq in Es. subst c1.
      change (unslashed " ") with " "%char. cbn [Ascii.eqb Bool.eqb andb].
      destruct (digit_val c2) as [v|] eqn:E2; [|discriminate].
      destruct (digit_unslashed _ _ E2) as [-> _]. now rewrite E2.
    + destruct (digits2 c1 c2) as [v|] eqn:E; [|discriminate].
      destruct (digits2_unslashed _ _ _ E) as [E' [_ [_ [Hc1 Hc2]]]].
      rewrite Hc1, Hc2 in *. now rewrite Es, E.
Qed.

Lemma strptime_unslashed d t :
  strptime_ymd "/" d = Ok t ->
  contains_char "/" d = true
  /\ strptime_ymd "-" (replace_char "/" "-" d) = Ok t.
Proof.
  unfold strptime_ymd. rewrite replace_char_unslashed.
  destruct (parse_Y (list_ascii_of_string d)) as [[y rest]|] eqn:EY;
    [|discriminate].
  rewrite (parse_Y_unslashed _ _ _ EY).
  destruct rest as [|c rest]; [discriminate|].
  destruct (Ascii.eqb c "/") eqn:Ec; [|discriminate].
  apply Ascii.eqb_eq in Ec. subst c. cbn [map].
  change (unslashed "/") with "-"%char. cbn [Ascii.eqb Bool.eqb andb].
  destruct (parse_m "/" rest) as [[m rest']|] eqn:EM; [|discriminate].
  rewrite (parse_m_unslashed _ _ _ EM).
  destruct (parse_d rest') as [dd|] eqn:ED; [|discriminate].
  rewrite (parse_d_unslashed _ _ ED). intros H. split; [|exact H].
  unfold parse_Y in EY.
  destruct d as [|c1 [|c2 [|c3 [|c4 [|c5 d]]]]]; cbn in EY; try discriminate.
  - destruct (digits2 c1 c2), (digits2 c3 c4); discriminate.
  - destruct (digits2 c1 c2), (digits2 c3 c4); try discriminate.
    inversion EY; subst. cbn. now rewrite !orb_true_r.
Qed.

(** X13: the date the validation pass hands to the search is one the
    search can read: it is the text of the latest update found, and after
    the replacement of its slashes [strptime] with ['%Y-%m-%d'] gives
    that date back. *)
Theorem search_reads_the_date_of_the_pass verbose catalog feature layer g d :
  let s := fst (validation_pass verbose catalog feature layer) in
  v_lastmodifiedDate s = Some (VStr d) ->
  exists t,
    v_lastupdate s = Some t
    /\ strptime_ymd "/"%char d = Ok t
    /\ let startdate := choose_startdate g (Some d) [] [] in
       strptime_ymd "-"%char
         (if contains_char "/"%char startdate
          then replace_char "/"%char "-"%char startdate else startdate)
       = Ok t.
Proof.
  cbv zeta. intros Hd.
  pose proof (validation_pass_dated verbose catalog feature layer) as H.
  unfold dated in H.
  destruct (v_lastupdate (fst (validation_pass verbose catalog feature layer)))
    as [t|]; [|congruence].
  destruct H as [d' [Hd' Ht]]. assert (d' = d) by congruence. subst d'.
  exists t. split; [reflexivity|]. split; [exact Ht|].
  destruct (strptime_unslashed _ _ Ht) as [Hslash Hparse].
  unfold choose_startdate. cbn [List.length Nat.ltb Nat.leb orb negb andb].
  destruct (String.eqb d "") eqn:E.
  - apply String.eqb_eq in E. subst d. discriminate Hslash.
  - cbn [negb andb]. now rewrite Hslash.
Qed.

Lemma earliest_le l t : In t l -> exists m, earliest l = Ok m /\ m <= t.
Proof.
  destruct l as [|x l]; [intros []|]. intros Ht.
  exists (fold_left Z.min l x). split; [reflexivity|].
  now apply fold_min_le.
Qed.

(** X14: the start of the search is never moved back to a deleted scene.
    When a scene put on [reimport] is older than the latest update, the
    script stops with [TypeError]; whenever it goes on,
    [lastmodifiedDate] is what the pass left. *)
Theorem start_date_is_never_moved_back s :
  (forall t u, In t (v_reimport s) -> v_lastupdate s = Some u -> t < u ->
     move_back s
     = Raise (TypeError
         "descriptor 'strftime' for 'datetime.date' objects doesn't apply to a 'str' object"))
  /\ (forall v, move_back s = Ok v -> v = v_lastmodifiedDate s).
Proof.
  unfold move_back. split.
  - intros t u Ht Hu Hlt. rewrite Hu.
    destruct (v_reimport s) as [|x l] eqn:E; [destruct Ht|].
    cbn [List.length Nat.ltb Nat.leb].
    destruct (earliest_le (x :: l) t Ht) as [m [-> Hm]]. cbn [bind].
    replace (m <? u) with true by (symmetry; apply Z.ltb_lt; lia).
    reflexivity.
  - intros v. destruct (0 <? List.length (v_reimport s))%nat; [|congruence].
    destruct (v_lastupdate s) as [u|]; [|congruence].
    destruct (earliest (v_reimport s)) as [m|]; cbn [bind]; [|discriminate].
    destruct (m <? u); [discriminate|congruence].
Qed.

Lemma in_strings sid l :
  In (Some (VStr sid)) l <-> str_in sid (strings l) = true.
Proof.
  unfold str_in, strings. split.
  - intros Hin. apply existsb_exists. exists sid.
    split; [|apply String.eqb_refl].
    apply in_flat_map. exists (Some (VStr sid)). split; [exact Hin|now left].
  - intros H. apply existsb_exists in H. destruct H as [x [Hx Heq]].
    apply String.eqb_eq in Heq. subst x.
    apply in_flat_map in Hx. destruct Hx as [v [Hv Hx]].
    destruct v as [[| y | | | | |]|]; cbn in Hx; try tauto.
    destruct Hx as [->|[]]. exact Hv.
Qed.

(** What a feature adds to [updatemissing] or to [badgeom] is its scene
    identifier, and its sensor is then a known one. *)
Lemma flagged_is_known (fs : list Feature) v :
  In v (flat_map on_updatemissing fs) \/ In v (flat_map on_badgeom fs) ->
  exists h, In h fs /\ GetField "sceneID" h = Ok v /\ known_sensor h = true.
Proof.
  intros [H|H]; apply in_flat_map in H; destruct H as [h [Hh Hv]];
    exists h; (split; [exact Hh|]);
    unfold on_updatemissing, on_badgeom in Hv;
    destruct (GetField "sceneID" h) as [sceneID|]; try (now destruct Hv);
    destruct (known_sensor h); cbn [andb] in Hv; try (now destruct Hv).
  - destruct (negb (dated_feature h)); [|now destruct Hv].
    destruct Hv as [->|[]]. auto.
  - destruct (bad_geometry h); [|now destruct Hv].
    destruct Hv as [->|[]]. auto.
Qed.


Lemma search_reads_the_date_of_the_pass_witness :
  exists t,
    v_lastupdate (fst (validation_pass false "catalog" (Some good_feature)
                         (catalog_layer [good_feature; good_feature])))
    = Some t
    /\ strptime_ymd "/" "2013/05/02" = Ok t
    /\ let startdate := choose_startdate spring_2013 (Some "2013/05/02") [] []
       in strptime_ymd "-"
            (if contains_char "/" startdate
             then replace_char "/" "-" startdate else startdate)
          = Ok t.
Proof.
  apply (search_reads_the_date_of_the_pass false "catalog" (Some good_feature)
           (catalog_layer [good_feature; good_feature]) spring_2013
           "2013/05/02").
  vm_compute. reflexivity.
Defined.


End PassFacts.

(** ** The loop over the scenes found *)

Section ScenesProperties.
Import Scenes.

(** *** The tile lists of [findlocalfiles] *)

Section TileLists.
Variable glob : string -> list string.
Variable parent_rasters_hold : string -> string -> result bool.
Variable fielddict : dict (dict string).

Lemma keys_dict_set {V} k (v : V) d :
  keys (dict_set k v d) = if dict_has k d then keys d else keys d ++ [k].
Proof.
  unfold keys, dict_has. induction d as [|[k0 v0] d IH]; simpl.
  - reflexivity.
  - destruct (String.eqb k0 k) eqn:E; simpl.
    + apply String.eqb_eq in E. now subst.
    + rewrite IH. now destruct (dict_get k d).
Qed.

Lemma grown_refl {V} (d : dict V) : grown d d.
Proof. exists []. now rewrite app_nil_r. Qed.

Lemma grown_trans {V} (a b c : dict V) : grown a b -> grown b c -> grown a c.
Proof.
  intros [m1 H1] [m2 H2]. exists (m1 ++ m2). now rewrite H2, H1, app_assoc.
Qed.

Lemma grown_set {V} k (v : V) d : grown d (dict_set k v d).
Proof.
  unfold grown. rewrite keys_dict_set. destruct (dict_has k d).
  - exists []. now rewrite app_nil_r.
  - now exists [k].
Qed.

Lemma no_new_scene_set_tiles k t d : no_new_scene d (dict_set k (Tiles t) d).
Proof.
  intros k' e. destruct (String.eqb k k') eqn:E.
  - apply String.eqb_eq in E. subst. now rewrite dict_get_set_same.
  - now rewrite dict_get_set_other.
Qed.

Lemma record_tiles_spec sceneID tilebase field d d' :
  record_tiles glob parent_rasters_hold sceneID tilebase field d = Ok d' ->
  grown d d' /\ no_new_scene d d'
  /\ forall k, k <> fst field -> k <> "MaskType"%string ->
               dict_get k d' = dict_get k d.
Proof.
  unfold record_tiles.
  destruct (dict_get "dirname" (snd field)) as [dirname|]; [|discriminate].
  destruct (matching_tiles _ _ _ _) as [tiles|]; [|discriminate]. cbn [bind].
  destruct tiles as [|t tiles].
  - intros [= <-]. split; [apply grown_refl|]. split; [intros k e H; exact H|].
    reflexivity.
  - set (d1 := dict_set (fst field) (Tiles (join "," (t :: tiles))) d).
    assert (H1 : grown d d1 /\ no_new_scene d d1) by
      (split; [apply grown_set|apply no_new_scene_set_tiles]).
    assert (Hother : forall k, k <> fst field -> dict_get k d1 = dict_get k d).
    { intros k Hk. unfold d1. apply dict_get_set_other.
      apply String.eqb_neq. congruence. }
    assert (Hmask : forall t0,
               grown d (dict_set "MaskType" (Tiles t0) d1)
               /\ no_new_scene d (dict_set "MaskType" (Tiles t0) d1)
               /\ forall k, k <> fst field -> k <> "MaskType"%string ->
                            dict_get k (dict_set "MaskType" (Tiles t0) d1)
                            = dict_get k d).
    { intros t0. split; [|split].
      - eapply grown_trans; [apply H1|apply grown_set].
      - intros k e H. apply no_new_scene_set_tiles in H. now apply H1.
      - intros k Hk Hm. rewrite dict_get_set_other; [now apply Hother|].
        apply String.eqb_neq. congruence. }
    destruct (String.eqb (fst field) "Pixel_QA_tiles");
      [intros [= <-]; apply Hmask|].
    destruct (String.eqb (fst field) "Fmask_tiles");
      [intros [= <-]; apply Hmask|].
    intros [= <-]. split; [apply H1|]. split; [apply H1|].
    intros k Hk _. now apply Hother.
Qed.

Lemma record_all_spec sceneID tilebase fields d d' :
  record_all glob parent_rasters_hold sceneID tilebase fields d = Ok d' ->
  grown d d' /\ no_new_scene d d'
  /\ forall k, ~ In k (keys fields) -> k <> "MaskType"%string ->
               dict_get k d' = dict_get k d.
Proof.
  revert d. induction fields as [|field rest IH]; intros d; simpl.
  - intros [= <-]. split; [apply grown_refl|]. split; [intros k e H; exact H|].
    reflexivity.
  - destruct (record_tiles glob parent_rasters_hold sceneID tilebase field d)
      as [d1|] eqn:E1; [|discriminate].
    cbn [bind]. intros Hrest. apply IH in Hrest. apply record_tiles_spec in E1.
    destruct E1 as [Hg1 [Hn1 Ho1]]. destruct Hrest as [Hg [Hn Ho]].
    split; [eapply grown_trans; eauto|]. split.
    + intros k e H. apply Hn1. now apply Hn.
    + intros k Hk Hm. rewrite Ho by tauto. apply Ho1; [|exact Hm].
      intros ->. apply Hk. now left.
Qed.

(** X16: [findlocalfiles] writes into no scene's dictionary.  It stores
    the tile lists it finds in [scenedict] itself, under the names of the
    fields and under ['MaskType']: every other key keeps its value, the
    keys keep their order, and a key that holds a scene's dictionary
    afterwards held the same one before. *)
Theorem findlocalfiles_leaves_the_scenes sceneID scenedict scenedict' :
  findlocalfiles glob parent_rasters_hold fielddict sceneID scenedict
  = Ok scenedict' ->
  (exists more, keys scenedict' = keys scenedict ++ more)
  /\ (forall k e, dict_get k scenedict' = Some (Scene e) ->
                  dict_get k scenedict = Some (Scene e))
  /\ (forall k, ~ In k (keys fielddict) -> k <> "MaskType"%string ->
                dict_get k scenedict' = dict_get k scenedict).
Proof. unfold findlocalfiles. apply record_all_spec. Qed.

End TileLists.

Lemma findlocalfiles_leaves_the_scenes_witness :
  let scenedict := m_scenedict (before_loop "https://x/x.jpg") in
  (exists more, keys with_tile = keys scenedict ++ more)
  /\ (forall k e, dict_get k with_tile = Some (Scene e) ->
                  dict_get k scenedict = Some (Scene e))
  /\ (forall k, ~ In k (keys script_fielddict) -> k <> "MaskType"%string ->
                dict_get k with_tile = dict_get k scenedict).
Proof.
  apply (findlocalfiles_leaves_the_scenes one_tile all_hold script_fielddict
           "LC82080232013101LGN00").
  vm_compute. reflexivity.
Defined.

Section ScenesFacts.
Variable glob : string -> list string.
Variable parent_rasters_hold : string -> string -> result bool.
Variable float_nonzero : string -> bool.
Variable transform : point -> point.
Variable net : nat -> string -> fetch.
Variable access : nat -> string -> bool.
Variable makeworldfile : string -> list point -> option exn.
Variable next_fid : Layer -> Z.
Variable fielddict : dict (dict string).
Variable jpgdir : string.
Variable args_thumbnails : bool.
Variable fuel : nat.

(** *** The loop and the size of the dictionary *)

Lemma name_thumbnail_scenedict jpg feature s :
  m_scenedict (fst (name_thumbnail access jpg feature s)) = m_scenedict s
  /\ m_layer (fst (name_thumbnail access jpg feature s)) = m_layer s
  /\ m_dlurl (fst (name_thumbnail access jpg feature s)) = m_dlurl s.
Proof.
  unfold name_thumbnail.
  destruct (access _ jpg); [|auto].
  destruct (SetField _ _ feature); auto.
Qed.

Lemma thumbnail_scenedict sceneID dlurl poly feature s :
  let r := thumbnail net access makeworldfile jpgdir args_thumbnails fuel
             sceneID dlurl poly feature s in
  m_scenedict (fst (fst r)) = m_scenedict s
  /\ m_layer (fst (fst r)) = m_layer s
  /\ m_dlurl (fst (fst r)) = m_dlurl s.
Proof.
  cbv zeta. unfold thumbnail.
  destruct (negb (access _ _) && args_thumbnails); [|auto].
  destruct (dlthumb net fuel (Some dlurl) dlurl jpgdir (m_downloads s))
    as [r d|e d|t d].
  - destruct (succeeded r).
    + destruct (makeworldfile _ poly) as [e|].
      * destruct (is_Exception e); auto.
      * cbn [fst snd].
        match goal with
        | |- context [name_thumbnail _ ?j ?f ?s0] =>
            destruct (name_thumbnail_scenedict j f s0) as [H1 [H2 H3]];
            rewrite H1, H2, H3; auto
        end.
    + cbn [fst snd].
      match goal with
      | |- context [name_thumbnail _ ?j ?f ?s0] =>
          destruct (name_thumbnail_scenedict j f s0) as [H1 [H2 H3]];
          rewrite H1, H2, H3; auto
      end.
  - destruct (is_Exception e); auto.
  - auto.
Qed.

Lemma create_scene_grown sceneID s :
  grown (m_scenedict s)
    (m_scenedict (fst (create_scene glob parent_rasters_hold float_nonzero
                         transform net access makeworldfile next_fid
                         fielddict jpgdir args_thumbnails fuel sceneID s))).
Proof.
  unfold create_scene.
  destruct (findlocalfiles glob parent_rasters_hold fielddict sceneID
              (m_scenedict s)) as [d1|] eqn:Efind; [|apply grown_refl].
  apply record_all_spec in Efind. destruct Efind as [Hg _].
  destruct (scene_entry sceneID d1) as [entry|]; [|exact Hg].
  destruct (dict_get "browseUrl" entry) as [[| u | | | | |]|]; try exact Hg.
  set (s2 := add_scene sceneID
               (if endswith u ".jpg" then take_thumbnail u (with_scenedict d1 s)
                else with_scenedict d1 s)).
  assert (Hs2 : m_scenedict s2 = d1)
    by (unfold s2; destruct (endswith u ".jpg"); reflexivity).
  clearbody s2.
  destruct (SetField "sceneID" _ _) as [feature|];
    [|cbn [fst]; now rewrite Hs2].
  cbv zeta.
  set (filled := fill float_nonzero (keys entry) entry feature (m_log s2)).
  clearbody filled.
  assert (Hg3 : grown (m_scenedict s)
                  (dict_set sceneID (Scene (fst (fst (fst filled)))) d1)).
  { eapply grown_trans; [exact Hg|apply grown_set]. }
  destruct (snd filled); [exact Hg3|].
  destruct (footprint_polygon _ _ _) as [[poly coord]|]; [|exact Hg3].
  cbn [with_coord m_dlurl].
  destruct (m_dlurl s2) as [dlurl|]; [|exact Hg3].
  match goal with
  | |- context [thumbnail _ _ _ _ _ _ ?a ?b ?c ?d ?e] =>
      pose proof (thumbnail_scenedict a b c d e) as Ht; cbv zeta in Ht;
      destruct (thumbnail net access makeworldfile jpgdir args_thumbnails
                  fuel a b c d e) as [[s5 f3] r]
  end.
  cbn [fst snd] in Ht. destruct Ht as [Ht _].
  destruct r; cbn [fst with_m_layer m_scenedict]; rewrite Ht; exact Hg3.
Qed.

Lemma process_scene_grown sceneID s :
  grown (m_scenedict s)
    (m_scenedict (fst (process_scene glob parent_rasters_hold float_nonzero
                         transform net access makeworldfile next_fid
                         fielddict jpgdir args_thumbnails fuel sceneID s))).
Proof.
  unfold process_scene.
  destruct (scene_entry sceneID (m_scenedict s)) as [entry|];
    [|apply grown_refl].
  destruct (creates_feature entry) as [[|]|]; [| |apply grown_refl].
  - apply create_scene_grown.
  - destruct (update_scene _ _ _ _ _) as [[l c] [e|]]; apply grown_refl.
Qed.

Lemma grown_same_size {V} (d d' : dict V) :
  grown d d' -> List.length d' = List.length d -> keys d' = keys d.
Proof.
  intros [more H] Hlen. rewrite H.
  assert (Hk : List.length (keys d') = List.length (keys d))
    by (unfold keys; now rewrite !length_map).
  rewrite H, length_app in Hk.
  destruct more; [now rewrite app_nil_r|simpl in Hk; lia].
Qed.

Lemma scenes_loop_keys (d0 : dict slot) todo s s' :
  grown d0 (m_scenedict s) ->
  scenes_loop glob parent_rasters_hold float_nonzero transform net access
    makeworldfile next_fid fielddict jpgdir args_thumbnails fuel
    todo (List.length d0) s = (s', Finished) ->
  keys (m_scenedict s') = keys d0.
Proof.
  revert s. induction todo as [|sceneID rest IH]; intros s Hg;
    cbn [scenes_loop].
  - destruct (List.length (m_scenedict s) =? List.length d0)%nat eqn:E;
      [|discriminate].
    cbn [negb]. intros [= <-]. apply grown_same_size; [exact Hg|].
    now apply Nat.eqb_eq.
  - destruct (List.length (m_scenedict s) =? List.length d0)%nat;
      [|discriminate].
    cbn [negb].
    pose proof (process_scene_grown sceneID s) as Hstep.
    destruct (process_scene _ _ _ _ _ _ _ _ _ _ _ _ sceneID s) as [s1 r].
    cbn [fst] in Hstep. destruct r; try discriminate.
    apply IH. eapply grown_trans; eauto.
Qed.

(** X17: whenever the loop over the scenes runs to its end, [scenedict]
    has the keys it began with.  A run in which [findlocalfiles] stores a
    tile list under a new key does not get there: the next step of the
    iteration finds the dictionary grown and raises [RuntimeError]. *)
Theorem scenes_loop_ends_with_its_keys s :
  snd (main_loop glob parent_rasters_hold float_nonzero transform net access
         makeworldfile next_fid fielddict jpgdir args_thumbnails fuel s)
  = Finished ->
  keys (m_scenedict
          (fst (main_loop glob parent_rasters_hold float_nonzero transform
                  net access makeworldfile next_fid fielddict jpgdir
                  args_thumbnails fuel s)))
  = keys (m_scenedict s).
Proof.
  unfold main_loop. destruct (m_scenedict s) as [|kv d] eqn:Ed.
  - intros _. cbn [fst]. now rewrite Ed.
  - rewrite <- Ed.
    destruct (scenes_loop _ _ _ _ _ _ _ _ _ _ _ _ _ _ s) as [s' r] eqn:Eloop.
    cbn [fst snd]. intros ->.
    eapply scenes_loop_keys; [apply grown_refl|exact Eloop].
Qed.

(** *** The fields of a new feature *)

Lemma SetField_spec name v f f' :
  SetField name v f = Ok f' ->
  fid f' = fid f /\ geometry f' = geometry f
  /\ keys (attrs f') = keys (attrs f)
  /\ forall n, n <> name -> dict_get n (attrs f') = dict_get n (attrs f).
Proof.
  unfold SetField. destruct (dict_has name (attrs f)) eqn:E; [|discriminate].
  intros [= <-]. cbn [fid geometry attrs]. repeat split.
  - rewrite keys_dict_set. now rewrite E.
  - intros n Hn. apply dict_get_set_other. apply String.eqb_neq. congruence.
Qed.

Lemma same_but_refl P f : same_but P f f.
Proof. repeat split. Qed.

Lemma same_but_trans (P : string -> Prop) f g h :
  same_but P f g -> same_but P g h -> same_but P f h.
Proof.
  intros [F1 [G1 [K1 A1]]] [F2 [G2 [K2 A2]]]. repeat split; try congruence.
  intros n Hn. rewrite A2, A1; auto.
Qed.

Lemma same_but_weaken (P Q : string -> Prop) f g :
  (forall n, P n -> Q n) -> same_but P f g -> same_but Q f g.
Proof.
  intros HPQ [F1 [G1 [K1 A1]]]. repeat split; auto.
Qed.

Lemma SetField_same_but name v f f' :
  SetField name v f = Ok f' -> same_but (eq name) f f'.
Proof.
  intros H. apply SetField_spec in H. destruct H as [F [G [K A]]].
  repeat split; auto.
Qed.

Lemma write_field_spec key v entry f :
  dict_has key entry = true ->
  let r := write_field key v entry f in
  keys (fst (fst r)) = keys entry
  /\ (forall k, k <> key -> dict_get k (fst (fst r)) = dict_get k entry)
  /\ same_but (field_of key) f (snd (fst r))
  /\ (forall e, snd r = Some e -> is_caught e = true).
Proof.
  intros Hkey. cbv zeta. unfold write_field.
  assert (Hset : forall w, keys (dict_set key w entry) = keys entry
                           /\ forall k, k <> key ->
                                dict_get k (dict_set key w entry)
                                = dict_get k entry).
  { intros w. rewrite keys_dict_set, Hkey. split; [reflexivity|].
    intros k Hk. apply dict_get_set_other. apply String.eqb_neq. congruence. }
  assert (Hhas : forall w, dict_has key (dict_set key w entry) = true).
  { intros w. unfold dict_has. now rewrite dict_get_set_same. }
  assert (Hset2 : forall w w',
             keys (dict_set key w' (dict_set key w entry)) = keys entry
             /\ forall k, k <> key ->
                  dict_get k (dict_set key w' (dict_set key w entry))
                  = dict_get k entry).
  { intros w w'. rewrite keys_dict_set, Hhas.
    destruct (Hset w) as [Hk Ho]. split; [exact Hk|].
    intros k Hne. rewrite dict_get_set_other by (apply String.eqb_neq; congruence).
    now apply Ho. }
  destruct (index key queryfieldnames) as [i|e] eqn:Ei.
  2:{ cbn [fst snd]. repeat split; try apply same_but_refl.
      intros e0 [= <-]. cbn. destruct e; reflexivity || idtac.
      all: revert Ei; clear; induction queryfieldnames as [|y l IH]; simpl;
        [intros [= <-]; reflexivity|];
        destruct (String.eqb y key); [discriminate|];
        destruct (index key l); [discriminate|]; cbn; auto. }
  destruct (nth_error fieldvaluelist i) as [row|];
    [|cbn [fst snd]; repeat split; try apply same_but_refl;
      intros e0 [= <-]; reflexivity].
  destruct (nth_error fnames i) as [fname|] eqn:Ef;
    [|cbn [fst snd]; repeat split; try apply same_but_refl;
      intros e0 [= <-]; reflexivity].
  assert (Hfield : forall w g, SetField fname w f = Ok g ->
                               same_but (field_of key) f g).
  { intros w g Hg. eapply same_but_weaken; [|eapply SetField_same_but; eauto].
    intros n <-. exists i. auto. }
  assert (Hexn : forall w e (e0 : stop),
             SetField fname w f = Raise e -> Some (Exn e) = Some e0 ->
             is_caught e0 = true).
  { intros w e e0 Hr [= <-]. unfold SetField in Hr.
    destruct (dict_has fname (attrs f)); [discriminate|].
    now injection Hr as <-. }
  destruct (ogr_type_eqb (ftype row) OFTDate).
  - destruct v as [b|s0|z|lit|d|lit|ring]; cbn [fst snd];
      try (repeat split; try apply same_but_refl; intros e0 [= <-]; reflexivity).
    + set (s1 := if contains_char "/" s0 then replace_char "/" "-" s0 else s0).
      assert (H1 : keys (if contains_char "/" s0
                         then dict_set key (VStr s1) entry else entry)
                   = keys entry
                   /\ forall k, k <> key ->
                        dict_get k (if contains_char "/" s0
                                    then dict_set key (VStr s1) entry else entry)
                        = dict_get k entry).
      { destruct (contains_char "/" s0); [apply Hset|auto]. }
      destruct (strptime_ymd "-" s1) as [d|e] eqn:Ed.
      * assert (H2 : keys (dict_set key (VDate d)
                             (if contains_char "/" s0
                              then dict_set key (VStr s1) entry else entry))
                     = keys entry
                     /\ forall k, k <> key ->
                          dict_get k (dict_set key (VDate d)
                                        (if contains_char "/" s0
                                         then dict_set key (VStr s1) entry
                                         else entry))
                          = dict_get k entry).
        { destruct (contains_char "/" s0); [apply Hset2|apply Hset]. }
        destruct (SetField fname (Some (VDate d)) f) as [g|e] eqn:Eg;
          cbn [fst snd]; repeat split; try apply H2; eauto using same_but_refl;
          try discriminate.
        -- eapply Hfield; eauto.
        -- eapply Hfield; eauto.
        -- eapply Hfield; eauto.
        -- eapply Hfield; eauto.
      * cbn [fst snd]. repeat split; try apply H1; try apply same_but_refl.
        intros e0 [= <-]. cbn. unfold strptime_ymd, make in Ed.
        repeat match type of Ed with
               | context [match ?x with _ => _ end] => destruct x
               end; try discriminate; now injection Ed as <-.
    + destruct (SetField fname (Some (VDate d)) f) as [g|e] eqn:Eg;
        cbn [fst snd]; repeat split; eauto using same_but_refl;
        try discriminate; eapply Hfield; eauto.
    + destruct (SetField fname (Some (VTime lit)) f) as [g|e] eqn:Eg;
        cbn [fst snd]; repeat split; eauto using same_but_refl;
        try discriminate; eapply Hfield; eauto.
  - destruct v as [b|s0|z|lit|d|lit|ring]; cbn [fst snd];
      try (repeat split; try apply same_but_refl; intros e0 [= <-]; reflexivity).
    all: match goal with
         | |- context [SetField ?fn ?w ?f0] =>
             destruct (SetField fn w f0) as [g|e] eqn:Eg
         end;
      cbn [fst snd]; repeat split; eauto using same_but_refl;
      try discriminate; eapply Hfield; eauto.
Qed.

Lemma dict_has_keys {V} k (d : dict V) : dict_has k d = true <-> In k (keys d).
Proof.
  unfold dict_has, keys. induction d as [|[k0 v0] d IH]; simpl.
  - split; [discriminate|tauto].
  - destruct (String.eqb k0 k) eqn:E.
    + apply String.eqb_eq in E. subst. tauto.
    + apply String.eqb_neq in E. rewrite IH. split; [tauto|].
      intros [H|H]; [contradiction|exact H].
Qed.

Lemma index_names x l i : index x l = Ok i -> In x l.
Proof.
  revert i. induction l as [|y l IH]; simpl; intros i; [discriminate|].
  destruct (String.eqb y x) eqn:E.
  - apply String.eqb_eq in E. now left.
  - destruct (index x l); [|discriminate]. right. eapply IH. reflexivity.
Qed.

Lemma fill_fields todo : forall entry f errors,
  same_but (fun n => exists key, field_of key n) f
    (filled_feature float_nonzero todo entry f errors).
Proof.
  unfold filled_feature.
  induction todo as [|key rest IH]; intros entry f errors; cbn [fill].
  - apply same_but_refl.
  - destruct (dict_get key entry) as [v|] eqn:Ev; [|apply same_but_refl].
    destruct (is_true float_nonzero v && str_in key queryfieldnames);
      [|apply IH].
    assert (Hhas : dict_has key entry = true)
      by (unfold dict_has; now rewrite Ev).
    pose proof (write_field_spec key v entry f Hhas) as Hw. cbv zeta in Hw.
    destruct (write_field key v entry f) as [[e' f'] r].
    cbn [fst snd] in Hw. destruct Hw as [_ [_ [Hf _]]].
    assert (Hf' : same_but (fun n => exists key, field_of key n) f f')
      by (eapply same_but_weaken; [|exact Hf]; intros n H; now exists key).
    destruct r as [e|].
    + destruct (is_caught e); [|exact Hf'].
      eapply same_but_trans; [exact Hf'|apply IH].
    + eapply same_but_trans; [exact Hf'|apply IH].
Qed.

Lemma fill_true_values todo : forall entry f errors,
  same_but (fun n => exists key v,
              dict_get key entry = Some v
              /\ is_true float_nonzero v = true /\ field_of key n)
    f (filled_feature float_nonzero todo entry f errors).
Proof.
  unfold filled_feature.
  induction todo as [|key rest IH]; intros entry f errors; cbn [fill].
  - apply same_but_refl.
  - destruct (dict_get key entry) as [v|] eqn:Ev; [|apply same_but_refl].
    destruct (is_true float_nonzero v) eqn:Etrue; cbn [andb]; [|now apply IH].
    destruct (str_in key queryfieldnames); [|now apply IH].
    assert (Hhas : dict_has key entry = true)
      by (unfold dict_has; now rewrite Ev).
    pose proof (write_field_spec key v entry f Hhas) as Hw. cbv zeta in Hw.
    destruct (write_field key v entry f) as [[e' f'] r].
    cbn [fst snd] in Hw. destruct Hw as [_ [Hother [Hf _]]].
    set (P := fun n => exists key v,
                dict_get key entry = Some v
                /\ is_true float_nonzero v = true /\ field_of key n).
    assert (Hf' : same_but P f f').
    { eapply same_but_weaken; [|exact Hf]. intros n H. now exists key, v. }
    assert (Hrec : forall errors', same_but P f'
                     (snd (fst (fst (fill float_nonzero rest e' f' errors'))))).
    { intros errors'. eapply same_but_weaken; [|apply (IH e' f' errors')].
      intros n [k [w [Hk [Hw Hn]]]].
      destruct (string_dec k key) as [->|Hne].
      - (* the value under the key just written was a true one *)
        now exists key, v.
      - exists k, w. split; [|auto]. now rewrite <- Hother. }
    destruct r as [e|].
    + destruct (is_caught e); [|exact Hf'].
      eapply same_but_trans; [exact Hf'|apply Hrec].
    + eapply same_but_trans; [exact Hf'|apply Hrec].
Qed.

Lemma fill_ok todo : forall entry f errors,
  (forall k, In k todo -> dict_has k entry = true) ->
  let r := fill float_nonzero todo entry f errors in
  snd r = None
  /\ keys (fst (fst (fst r))) = keys entry
  /\ forall k, str_in k queryfieldnames = false ->
               dict_get k (fst (fst (fst r))) = dict_get k entry.
Proof.
  induction todo as [|key rest IH]; intros entry f errors Hin; cbn [fill].
  - cbn. auto.
  - assert (Hhas : dict_has key entry = true) by (apply Hin; now left).
    assert (Hrest : forall k, In k rest -> dict_has k entry = true)
      by (intros k Hk; apply Hin; now right).
    destruct (dict_get key entry) as [v|] eqn:Ev;
      [|unfold dict_has in Hhas; rewrite Ev in Hhas; discriminate].
    destruct (is_true float_nonzero v); cbn [andb]; [|now apply IH].
    destruct (str_in key queryfieldnames) eqn:Equery; [|now apply IH].
    pose proof (write_field_spec key v entry f Hhas) as Hw. cbv zeta in Hw.
    destruct (write_field key v entry f) as [[e' f'] r].
    cbn [fst snd] in Hw. destruct Hw as [Hkeys [Hother [_ Hcaught]]].
    assert (Hrest' : forall k, In k rest -> dict_has k e' = true).
    { intros k Hk. apply dict_has_keys. rewrite Hkeys.
      apply dict_has_keys. now apply Hrest. }
    assert (Hrec : forall errors',
               let r := fill float_nonzero rest e' f' errors' in
               snd r = None
               /\ keys (fst (fst (fst r))) = keys entry
               /\ forall k, str_in k queryfieldnames = false ->
                            dict_get k (fst (fst (fst r))) = dict_get k entry).
    { intros errors'. destruct (IH e' f' errors' Hrest') as [H1 [H2 H3]].
      split; [exact H1|]. split; [congruence|].
      intros k Hk. rewrite H3 by exact Hk. apply Hother.
      intros ->. congruence. }
    destruct r as [e|]; [|apply Hrec].
    rewrite (Hcaught e eq_refl). apply Hrec.
Qed.

(** *** The branch that adds a scene *)

Lemma name_thumbnail_feature jpg f s :
  same_but (eq "Thumbnail_filename"%string) f
    (snd (name_thumbnail access jpg f s)).
Proof.
  unfold name_thumbnail. destruct (access _ jpg); [|apply same_but_refl].
  destruct (SetField _ _ f) as [g|] eqn:E; [|apply same_but_refl].
  now apply SetField_same_but in E.
Qed.

Lemma thumbnail_feature sceneID dlurl poly f s :
  same_but (eq "Thumbnail_filename"%string) f
    (snd (fst (thumbnail net access makeworldfile jpgdir args_thumbnails fuel
                 sceneID dlurl poly f s))).
Proof.
  unfold thumbnail.
  destruct (negb (access _ _) && args_thumbnails); [|apply same_but_refl].
  destruct (dlthumb net fuel (Some dlurl) dlurl jpgdir (m_downloads s))
    as [r d|e d|t d].
  - destruct (succeeded r).
    + destruct (makeworldfile _ poly) as [e|].
      * destruct (is_Exception e); apply same_but_refl.
      * apply name_thumbnail_feature.
    + apply name_thumbnail_feature.
  - destruct (is_Exception e); apply same_but_refl.
  - apply same_but_refl.
Qed.

Lemma all_features_CreateFeature f l :
  all_features (CreateFeature next_fid f l)
  = all_features l ++ [{| fid := Some (next_fid l); attrs := attrs f;
                          geometry := geometry f |}].
Proof. unfold all_features, CreateFeature. cbn. now rewrite app_assoc. Qed.

(** The feature the branch adds, when it adds one: [sceneID] set on a
    blank feature, the fields filled from the scene's dictionary, the
    geometry set, and the thumbnail named. *)
Lemma create_scene_adds sceneID s :
  let r := create_scene glob parent_rasters_hold float_nonzero transform net
             access makeworldfile next_fid fielddict jpgdir args_thumbnails
             fuel sceneID s in
  m_layer (fst r) = m_layer s
  \/ exists entry feature errors poly f3,
       dict_get sceneID (m_scenedict s) = Some (Scene entry)
       /\ SetField "sceneID" (Some (VStr sceneID)) (blank_feature (m_layer s))
          = Ok feature
       /\ same_but (eq "Thumbnail_filename"%string)
            (SetGeometry (Some poly)
               (filled_feature float_nonzero (keys entry) entry feature errors)) f3
       /\ all_features (m_layer (fst r))
          = all_features (m_layer s)
            ++ [{| fid := Some (next_fid (m_layer s)); attrs := attrs f3;
                   geometry := geometry f3 |}].
Proof.
  cbv zeta. unfold create_scene.
  destruct (findlocalfiles glob parent_rasters_hold fielddict sceneID
              (m_scenedict s)) as [d1|] eqn:Efind; [|now left].
  apply record_all_spec in Efind. destruct Efind as [_ [Hn _]].
  destruct (scene_entry sceneID d1) as [entry|] eqn:Ee; [|now left].
  assert (Hentry : dict_get sceneID (m_scenedict s) = Some (Scene entry)).
  { unfold scene_entry in Ee.
    destruct (dict_get sceneID d1) as [[e|t]|] eqn:E1; try discriminate.
    injection Ee as <-. now apply Hn. }
  destruct (dict_get "browseUrl" entry) as [[| u | | | | |]|]; try now left.
  set (s2 := add_scene sceneID
               (if endswith u ".jpg" then take_thumbnail u (with_scenedict d1 s)
                else with_scenedict d1 s)).
  assert (Hs2 : m_layer s2 = m_layer s)
    by (unfold s2; destruct (endswith u ".jpg"); reflexivity).
  clearbody s2. rewrite Hs2.
  destruct (SetField "sceneID" _ _) as [feature|] eqn:Eset;
    [|left; exact Hs2].
  cbv zeta.
  pose proof (eq_refl : filled_feature float_nonzero (keys entry) entry feature (m_log s2)
                        = snd (fst (fst (fill float_nonzero (keys entry) entry
                                           feature (m_log s2))))) as Hfilled.
  set (filled := fill float_nonzero (keys entry) entry feature (m_log s2))
    in *.
  clearbody filled.
  destruct (snd filled); [left; reflexivity|].
  destruct (footprint_polygon _ _ _) as [[poly coord]|]; [|left; reflexivity].
  cbn [with_coord m_dlurl].
  destruct (m_dlurl s2) as [dlurl|]; [|left; reflexivity].
  match goal with
  | |- context [thumbnail _ _ _ _ _ _ ?a ?b ?c ?d ?e] =>
      pose proof (thumbnail_scenedict a b c d e) as Ht; cbv zeta in Ht;
      pose proof (thumbnail_feature a b c d e) as Hf;
      destruct (thumbnail net access makeworldfile jpgdir args_thumbnails
                  fuel a b c d e) as [[s5 f3] r]
  end.
  cbn [fst snd m_layer] in Ht, Hf. destruct Ht as [_ [Ht _]].
  destruct r; cbn [fst with_m_layer m_layer];
    try (left; rewrite Ht; reflexivity).
  right. exists entry, feature, (m_log s2), poly, f3.
  rewrite Hfilled. split; [exact Hentry|]. split; [reflexivity|].
  split; [exact Hf|].
  rewrite all_features_CreateFeature, Ht. reflexivity.
Qed.

Lemma field_of_for key n :
  field_of key n -> field_for key = Some n /\ In key queryfieldnames.
Proof.
  intros [i [Hi Hn]]. unfold field_for. rewrite Hi. split; [exact Hn|].
  eapply index_names; eauto.
Qed.

Lemma field_of_written key n : field_of key n -> In n written_fields.
Proof.
  intros H. apply field_of_for in H. destruct H as [Hf Hin].
  unfold written_fields. apply in_flat_map. exists key. split; [exact Hin|].
  rewrite Hf. now left.
Qed.

Lemma str_in_false x l : str_in x l = false -> ~ In x l.
Proof.
  unfold str_in. intros H Hin.
  assert (Ht : existsb (String.eqb x) l = true)
    by (apply existsb_exists; exists x; split; [exact Hin|apply String.eqb_refl]).
  congruence.
Qed.

Lemma has_true_value_of entry n key v :
  dict_get key entry = Some v -> is_true float_nonzero v = true ->
  field_of key n -> has_true_value float_nonzero entry n = true.
Proof.
  intros Hv Ht Hf. apply field_of_for in Hf. destruct Hf as [Hf Hin].
  unfold has_true_value. apply existsb_exists. exists key.
  split; [exact Hin|]. rewrite Hv, Hf, Ht. cbn. apply String.eqb_refl.
Qed.

Lemma blank_feature_empty l n v :
  dict_get n (attrs (blank_feature l)) <> Some (Some v).
Proof.
  unfold blank_feature. cbn [attrs]. induction (defn l) as [|m ms IH]; simpl.
  - discriminate.
  - destruct (String.eqb m n); [discriminate|exact IH].
Qed.

(** A field of the feature that the branch adds is empty when the loop
    over the keys leaves it alone. *)
Lemma added_field_empty (P : string -> Prop) l sceneID feature poly todo entry
    errors f3 n v :
  SetField "sceneID" (Some (VStr sceneID)) (blank_feature l) = Ok feature ->
  same_but (eq "Thumbnail_filename"%string)
    (SetGeometry (Some poly) (filled_feature float_nonzero todo entry feature errors)) f3 ->
  same_but P feature (filled_feature float_nonzero todo entry feature errors) ->
  n <> "sceneID"%string -> n <> "Thumbnail_filename"%string -> ~ P n ->
  dict_get n (attrs f3) <> Some (Some v).
Proof.
  intros Hset [_ [_ [_ H3]]] [_ [_ [_ Hfill]]] Hs Ht HP.
  rewrite H3 by congruence. cbn [SetGeometry attrs].
  rewrite Hfill by exact HP.
  apply SetField_spec in Hset. destruct Hset as [_ [_ [_ Hset]]].
  rewrite Hset by exact Hs. apply blank_feature_empty.
Qed.

(** X18: a field of an added feature holds a value only where the scene's
    dictionary holds a true one.  Apart from [sceneID] and
    [Thumbnail_filename], a field stays empty unless the dictionary has,
    under a query name whose first row in [fieldvaluelist] names the
    field, a value that [if value:] lets through: a cloud cover of 0 is
    not written. *)
Theorem field_needs_a_true_value sceneID s entry n f :
  dict_get sceneID (m_scenedict s) = Some (Scene entry) ->
  str_in n ["sceneID"; "Thumbnail_filename"]%string = false ->
  has_true_value float_nonzero entry n = false ->
  In f (all_features
          (m_layer (fst (create_scene glob parent_rasters_hold float_nonzero
                           transform net access makeworldfile next_fid
                           fielddict jpgdir args_thumbnails fuel
                           sceneID s)))) ->
  In f (all_features (m_layer s))
  \/ forall v, dict_get n (attrs f) <> Some (Some v).
Proof.
  intros Hentry Hn Hnone Hin.
  apply str_in_false in Hn.
  destruct (create_scene_adds sceneID s)
    as [Hsame|[entry' [feature [errors [poly [f3 [He [Hset [Hf3 Hall]]]]]]]]].
  - left. now rewrite <- Hsame.
  - rewrite Hall in Hin. apply in_app_or in Hin.
    destruct Hin as [Hold|[<-|[]]]; [now left|right].
    assert (entry' = entry) by congruence. subst entry'.
    intros v. cbn [attrs].
    eapply added_field_empty;
      [exact Hset|exact Hf3|apply fill_true_values| | |].
    + intros ->. apply Hn. now left.
    + intros ->. apply Hn. right. now left.
    + intros [key [w [Hw [Ht Hfield]]]].
      rewrite (has_true_value_of _ _ _ _ Hw Ht Hfield) in Hnone. discriminate.
Qed.

(** X19: only the first row of a query name is ever used.  A field that no
    query name leads to through [queryfieldnames.index] stays empty in
    every added feature, whatever the scene holds:
    [GROUND_CONTROL_POINTS_VERSION] is such a field, its query name
    being that of [GROUND_CONTROL_POINTS_VERIFY], a row earlier in the
    table. *)
Theorem field_of_a_repeated_name_stays_empty sceneID s n f :
  str_in n ("sceneID" :: "Thumbnail_filename" :: written_fields)%string
  = false ->
  In f (all_features
          (m_layer (fst (create_scene glob parent_rasters_hold float_nonzero
                           transform net access makeworldfile next_fid
                           fielddict jpgdir args_thumbnails fuel
                           sceneID s)))) ->
  In f (all_features (m_layer s))
  \/ forall v, dict_get n (attrs f) <> Some (Some v).
Proof.
  intros Hn Hin. apply str_in_false in Hn.
  destruct (create_scene_adds sceneID s)
    as [Hsame|[entry [feature [errors [poly [f3 [He [Hset [Hf3 Hall]]]]]]]]].
  - left. now rewrite <- Hsame.
  - rewrite Hall in Hin. apply in_app_or in Hin.
    destruct Hin as [Hold|[<-|[]]]; [now left|right].
    intros v. cbn [attrs].
    eapply added_field_empty;
      [exact Hset|exact Hf3|apply fill_fields| | |].
    + intros ->. apply Hn. now left.
    + intros ->. apply Hn. right. now left.
    + intros [key Hfield]. apply Hn. right. right.
      eapply field_of_written; eauto.
Qed.

(** X20: the first scene to be added needs a thumbnail address ending in
    [.jpg].  [dlurl] is bound only under that test and read for every
    scene: while it is unbound, a scene whose [browseUrl] ends otherwise
    stops the run with an exception, and the layer gets no feature. *)
Theorem first_scene_needs_a_jpg_address sceneID s entry u :
  m_dlurl s = None ->
  scene_entry sceneID (m_scenedict s) = Ok entry ->
  creates_feature entry = Ok true ->
  dict_get "browseUrl" entry = Some (VStr u) ->
  endswith u ".jpg" = false ->
  let r := process_scene glob parent_rasters_hold float_nonzero transform net
             access makeworldfile next_fid fielddict jpgdir args_thumbnails
             fuel sceneID s in
  (exists e, snd r = Stops e) /\ m_layer (fst r) = m_layer s.
Proof.
  intros Hdl Hentry Hcreate Hurl Hjpg. cbv zeta.
  unfold process_scene. rewrite Hentry, Hcreate. unfold create_scene.
  destruct (findlocalfiles glob parent_rasters_hold fielddict sceneID
              (m_scenedict s)) as [d1|] eqn:Efind; [|cbn; eauto].
  apply record_all_spec in Efind. destruct Efind as [_ [Hn _]].
  destruct (scene_entry sceneID d1) as [entry1|] eqn:Ee; [|cbn; eauto].
  assert (entry1 = entry).
  { unfold scene_entry in Ee, Hentry.
    destruct (dict_get sceneID d1) as [[e|t]|] eqn:E1; try discriminate.
    injection Ee as <-. apply Hn in E1. rewrite E1 in Hentry. congruence. }
  subst entry1. rewrite Hurl, Hjpg.
  destruct (SetField "sceneID" _ _) as [feature|]; [|cbn; eauto].
  cbv zeta.
  set (filled := fill float_nonzero (keys entry) entry feature _).
  clearbody filled.
  destruct (snd filled); [cbn; eauto|].
  destruct (footprint_polygon _ _ _) as [[poly coord]|]; [|cbn; eauto].
  cbn [with_coord m_dlurl add_scene with_scenedict]. rewrite Hdl.
  cbn. eauto.
Qed.

Lemma thumbnail_skips sceneID dlurl poly f s :
  access (List.length (attempts (m_downloads s)))
    (path_join jpgdir (basename dlurl)) = true
  \/ args_thumbnails = false ->
  thumbnail net access makeworldfile jpgdir args_thumbnails fuel sceneID
    dlurl poly f s = (s, f, Finished).
Proof.
  unfold thumbnail. intros [H|H]; rewrite H; [reflexivity|].
  now rewrite andb_false_r.
Qed.

(** X21: a new scene becomes one feature.  When the scene is sent to the
    adding branch, its key is no field name of [findlocalfiles], a
    thumbnail address is at hand, the layer has the field [sceneID], the
    footprint makes a ring, and the thumbnail is on disk already or
    thumbnails are not asked for, the step ends normally with one feature
    appended to the layer: it has the next identifier and the transformed
    footprint, the scene is appended to [scenelist], and
    [Thumbnail_filename] stays empty, being set only after a download. *)
Theorem new_scene_becomes_one_feature sceneID s entry u dlurl poly coord d1 :
  scene_entry sceneID (m_scenedict s) = Ok entry ->
  creates_feature entry = Ok true ->
  findlocalfiles glob parent_rasters_hold fielddict sceneID (m_scenedict s)
  = Ok d1 ->
  ~ In sceneID ("MaskType"%string :: keys fielddict) ->
  dict_get "browseUrl" entry = Some (VStr u) ->
  (if endswith u ".jpg" then Some u else m_dlurl s) = Some dlurl ->
  In "sceneID"%string (defn (m_layer s)) ->
  footprint_polygon transform (m_coord s) entry = Ok (poly, coord) ->
  access (List.length (attempts (m_downloads s)))
    (path_join jpgdir (basename dlurl)) = true
  \/ args_thumbnails = false ->
  let r := process_scene glob parent_rasters_hold float_nonzero transform net
             access makeworldfile next_fid fielddict jpgdir args_thumbnails
             fuel sceneID s in
  snd r = Finished
  /\ m_scenelist (fst r) = m_scenelist s ++ [Some (VStr sceneID)]
  /\ exists f,
       all_features (m_layer (fst r)) = all_features (m_layer s) ++ [f]
       /\ fid f = Some (next_fid (m_layer s))
       /\ geometry f = Some poly
       /\ forall v, dict_get "Thumbnail_filename" (attrs f) <> Some (Some v).
Proof.
  intros Hentry Hcreate Hfind Hkey Hurl Hdl Hfield Hfoot Hskip. cbv zeta.
  unfold process_scene. rewrite Hentry, Hcreate. unfold create_scene.
  rewrite Hfind. apply record_all_spec in Hfind.
  destruct Hfind as [_ [_ Hother]].
  assert (Ee : scene_entry sceneID d1 = Ok entry).
  { unfold scene_entry in *. rewrite Hother; [exact Hentry| |].
    - intros H. apply Hkey. now right.
    - intros ->. apply Hkey. now left. }
  rewrite Ee, Hurl.
  set (s2 := add_scene sceneID
               (if endswith u ".jpg" then take_thumbnail u (with_scenedict d1 s)
                else with_scenedict d1 s)).
  assert (Hs2 : m_layer s2 = m_layer s /\ m_dlurl s2 = Some dlurl
                /\ m_coord s2 = m_coord s
                /\ m_downloads s2 = m_downloads s
                /\ m_scenelist s2 = m_scenelist s ++ [Some (VStr sceneID)]).
  { unfold s2. destruct (endswith u ".jpg"); cbn; auto. }
  clearbody s2. destruct Hs2 as [Hl [Hd [Hc [Hdown Hlist]]]]. rewrite Hl.
  destruct (SetField "sceneID" (Some (VStr sceneID))
              (blank_feature (m_layer s))) as [feature|] eqn:Eset.
  2:{ unfold SetField in Eset.
      replace (dict_has "sceneID" (attrs (blank_feature (m_layer s))))
        with true in Eset; [discriminate|].
      symmetry. apply dict_has_keys. unfold blank_feature, keys. cbn [attrs].
      rewrite map_map. cbn. now rewrite map_id. }
  cbv zeta.
  pose proof (fill_ok (keys entry) entry feature (m_log s2)
                (fun k Hk => proj2 (dict_has_keys k entry) Hk)) as Hfill.
  cbv zeta in Hfill. destruct Hfill as [Hnone [_ Hsame]].
  pose proof (fill_fields (keys entry) entry feature (m_log s2)) as Hfields.
  unfold filled_feature in Hfields.
  set (filled := fill float_nonzero (keys entry) entry feature (m_log s2))
    in *.
  clearbody filled. rewrite Hnone. cbn [m_coord]. rewrite Hc.
  assert (Hfoot' : footprint_polygon transform (m_coord s)
                     (fst (fst (fst filled))) = Ok (poly, coord)).
  { unfold footprint_polygon in *. now rewrite Hsame. }
  rewrite Hfoot'. cbn [with_coord m_dlurl]. rewrite Hd.
  rewrite thumbnail_skips by (cbn [m_downloads]; now rewrite Hdown).
  cbn [fst snd with_m_layer m_scenelist m_layer].
  split; [reflexivity|]. split; [exact Hlist|].
  eexists. split; [apply all_features_CreateFeature|].
  cbn [fid geometry attrs SetGeometry]. split; [reflexivity|].
  split; [reflexivity|].
  intros v. destruct Hfields as [_ [_ [_ Hfields]]]. rewrite Hfields.
  - apply SetField_spec in Eset. destruct Eset as [_ [_ [_ Eset]]].
    rewrite Eset by discriminate. apply blank_feature_empty.
  - intros [key Hf]. apply field_of_written in Hf. revert Hf.
    apply str_in_false. reflexivity.
Qed.

End ScenesFacts.

Lemma scenes_loop_ends_with_its_keys_witness :
  keys (m_scenedict
          (fst (main_loop no_tiles all_hold always to_local complete
                  after_download world_file_made count_fid script_fielddict
                  "/cat/Thumbnails" true 5
                  (before_loop "https://x/x.jpg"))))
  = ["LC82080232013101LGN00"].
Proof.
  apply (scenes_loop_ends_with_its_keys no_tiles all_hold always to_local
           complete after_download world_file_made count_fid script_fielddict
           "/cat/Thumbnails" true 5 (before_loop "https://x/x.jpg")).
  vm_compute. reflexivity.
Defined.

Lemma field_needs_a_true_value_witness :
  In added_feature (all_features gpkg_layer)
  \/ forall v, dict_get "cloudCover" (attrs added_feature) <> Some (Some v).
Proof.
  apply (field_needs_a_true_value no_tiles all_hold always to_local complete
           after_download world_file_made count_fid script_fielddict
           "/cat/Thumbnails" true 5 "LC82080232013101LGN00"
           (before_loop "https://earthexplorer.usgs.gov/browse/x.jpg")
           (clear_scene "https://earthexplorer.usgs.gov/browse/x.jpg")
           "cloudCover" added_feature).
  - reflexivity.
  - reflexivity.
  - vm_compute. reflexivity.
  - vm_compute. left. reflexivity.
Defined.

Lemma field_of_a_repeated_name_stays_empty_witness :
  In added_feature (all_features gpkg_layer)
  \/ forall v, dict_get "GROUND_CONTROL_POINTS_VERSION" (attrs added_feature)
               <> Some (Some v).
Proof.
  apply (field_of_a_repeated_name_stays_empty no_tiles all_hold always
           to_local complete after_download world_file_made count_fid
           script_fielddict "/cat/Thumbnails" true 5 "LC82080232013101LGN00"
           (before_loop "https://earthexplorer.usgs.gov/browse/x.jpg")
           "GROUND_CONTROL_POINTS_VERSION" added_feature).
  - vm_compute. reflexivity.
  - vm_compute. left. reflexivity.
Defined.

Lemma first_scene_needs_a_jpg_address_witness :
  let r := process_scene no_tiles all_hold always to_local complete
             after_download world_file_made count_fid script_fielddict
             "/cat/Thumbnails" true 5 "LC82080232013101LGN00"
             (before_loop "https://earthexplorer.usgs.gov/browse/x.png") in
  (exists e, snd r = Stops e) /\ m_layer (fst r) = gpkg_layer.
Proof.
  apply (first_scene_needs_a_jpg_address no_tiles all_hold always to_local
           complete after_download world_file_made count_fid script_fielddict
           "/cat/Thumbnails" true 5 "LC82080232013101LGN00"
           (before_loop "https://earthexplorer.usgs.gov/browse/x.png")
           (clear_scene "https://earthexplorer.usgs.gov/browse/x.png")
           "https://earthexplorer.usgs.gov/browse/x.png");
    reflexivity.
Defined.

Lemma new_scene_becomes_one_feature_witness :
  let s := before_loop "https://earthexplorer.usgs.gov/browse/x.jpg" in
  let r := process_scene no_tiles all_hold always to_local complete on_disk
             world_file_made count_fid script_fielddict "/cat/Thumbnails"
             true 5 "LC82080232013101LGN00" s in
  snd r = Finished
  /\ m_scenelist (fst r) = [] ++ [Some (VStr "LC82080232013101LGN00")]
  /\ exists f,
       all_features (m_layer (fst r)) = [] ++ [f]
       /\ fid f = Some 1
       /\ geometry f = Some (map to_local square)
       /\ forall v, dict_get "Thumbnail_filename" (attrs f) <> Some (Some v).
Proof.
  apply (new_scene_becomes_one_feature no_tiles all_hold always to_local
           complete on_disk world_file_made count_fid script_fielddict
           "/cat/Thumbnails" true 5 "LC82080232013101LGN00"
           (before_loop "https://earthexplorer.usgs.gov/browse/x.jpg")
           (clear_scene "https://earthexplorer.usgs.gov/browse/x.jpg")
           "https://earthexplorer.usgs.gov/browse/x.jpg"
           "https://earthexplorer.usgs.gov/browse/x.jpg"
           (map to_local square) (Some (0, 0))
           (m_scenedict
              (before_loop "https://earthexplorer.usgs.gov/browse/x.jpg")));
    try reflexivity.
  - vm_compute. intuition discriminate.
  - vm_compute. tauto.
  - left. reflexivity.
Defined.

End ScenesProperties.

(** ** The updating branch and the other scenes *)

Section OtherScenes.
Variable transform : point -> point.
Variable sceneID : string.
Variable entry : dict value.

Lemma SetField_fid name v f f' : SetField name v f = Ok f' -> fid f' = fid f.
Proof.
  unfold SetField. destruct (dict_has name (attrs f)); [|discriminate].
  now intros [= <-].
Qed.

Lemma update_feature_shape f coord l l2 coord2 :
  update_feature transform sceneID entry f coord l = Ok (l2, coord2) ->
  (has_scene sceneID f = false /\ l2 = l)
  \/ (has_scene sceneID f = true
      /\ exists f', fid f' = fid f /\ l2 = SetFeature f' l).
Proof.
  unfold update_feature, has_scene.
  destruct (GetField "sceneID" f) as [v|]; [|discriminate]. cbn [bind].
  destruct (value_is v sceneID); [|intros [= <- <-]; now left].
  destruct (flag "updategeom" entry) as [ug|]; [|discriminate]. cbn [bind].
  match goal with
  | |- bind ?x _ = _ -> _ => destruct x as [[f1 c1]|] eqn:E1; [|discriminate]
  end.
  cbn [bind].
  destruct (flag "updatemodifiedDate" entry) as [um|]; [|discriminate].
  cbn [bind fst snd].
  match goal with
  | |- bind ?x _ = _ -> _ => destruct x as [f2|] eqn:E2; [|discriminate]
  end.
  cbn [bind]. intros [= <- <-]. right. split; [reflexivity|].
  exists f2. split; [|reflexivity].
  assert (H1 : fid f1 = fid f).
  { destruct ug.
    - destruct (footprint_polygon transform coord entry) as [r|];
        [|discriminate]. cbn [bind] in E1. now injection E1 as <- _.
    - now injection E1 as <- _. }
  rewrite <- H1. destruct um.
  - destruct (dict_get "modifiedDate" entry); [|discriminate].
    eapply SetField_fid; eauto.
  - now injection E2 as <-.
Qed.

Lemma SetFeature_fids f l :
  map fid (all_features (SetFeature f l)) = map fid (all_features l).
Proof.
  unfold all_features, SetFeature. cbn [done ahead].
  rewrite <- !map_app, !map_map. apply map_ext_in. intros g _.
  destruct (fid_eqb (fid g) (fid f)) eqn:E; [|reflexivity].
  unfold fid_eqb in E. destruct (fid g), (fid f); try discriminate.
  apply Z.eqb_eq in E. now subst.
Qed.

Lemma NoDup_fid_apart (fs : list Feature) f g :
  NoDup (map fid fs) -> In f fs -> In g fs -> f <> g -> fid f <> fid g.
Proof.
  induction fs as [|h fs IH]; [intros _ []|].
  cbn [map]. intros Hnd Hf Hg Hne. inversion Hnd as [|? ? Hh Hnd']; subst.
  destruct Hf as [<-|Hf], Hg as [<-|Hg].
  - congruence.
  - intros Heq. apply Hh. rewrite Heq. now apply in_map.
  - intros Heq. apply Hh. rewrite <- Heq. now apply in_map.
  - now apply IH.
Qed.

Lemma SetFeature_keeps f' f0 l g :
  NoDup (map fid (all_features l)) ->
  fid f' = fid f0 -> In f0 (all_features l) ->
  In g (all_features l) -> g <> f0 ->
  In g (all_features (SetFeature f' l)).
Proof.
  intros Hnd Hfid Hf0 Hg Hne.
  pose proof (NoDup_fid_apart _ g f0 Hnd Hg Hf0 Hne) as Hapart.
  unfold all_features, SetFeature in *. cbn [done ahead] in *.
  rewrite <- map_app. apply in_map_iff. exists g. split; [|exact Hg].
  destruct (fid_eqb (fid g) (fid f')) eqn:E; [|reflexivity].
  exfalso. apply Hapart. rewrite <- Hfid.
  unfold fid_eqb in E. destruct (fid g), (fid f'); try discriminate.
  apply Z.eqb_eq in E. now subst.
Qed.

Lemma update_loop_others l coord l' coord' :
  NoDup (map fid (all_features l)) ->
  update_loop transform sceneID entry l coord = ((l', coord'), None) ->
  map fid (all_features l') = map fid (all_features l)
  /\ forall g, In g (all_features l) -> has_scene sceneID g = false ->
               In g (all_features l').
Proof.
  funelim (update_loop transform sceneID entry l coord); intros Hnd Hrun;
    repeat match goal with
           | H : @eq (sigma _) _ _ |- _ => clear H
           end;
    try clear Heqcall.
  - injection Hrun as <- <-. auto.
  - unfold GetNextFeature in Hnext.
    destruct (ahead l) as [|f0 rest] eqn:Eahead; [discriminate|].
    injection Hnext as <- <-.
    assert (Hall : all_features {| defn := defn l; done := done l ++ [f0];
                                   ahead := rest |}
                   = all_features l).
    { unfold all_features. cbn [done ahead]. rewrite Eahead.
      now rewrite <- app_assoc. }
    assert (Hf0 : In f0 (all_features l)).
    { unfold all_features. rewrite Eahead. apply in_or_app. right. now left. }
    apply update_feature_shape in Hbody.
    destruct Hbody as [[Hscene ->]|[Hscene [f' [Hfid ->]]]].
    + match goal with
      | IH : forall l' coord', NoDup _ -> _ |- _ =>
          destruct (IH _ _ ltac:(now rewrite Hall) Hrun) as [Hfids Hkeep]
      end.
      rewrite Hall in *. auto.
    + match goal with
      | IH : forall l' coord', NoDup _ -> _ |- _ =>
          destruct (IH _ _ ltac:(now rewrite SetFeature_fids, Hall) Hrun)
            as [Hfids Hkeep]
      end.
      rewrite SetFeature_fids, Hall in Hfids. split; [exact Hfids|].
      intros g Hg Hgs. apply Hkeep; [|exact Hgs].
      apply SetFeature_keeps with (f0 := f0); rewrite ?Hall; auto.
      congruence.
  - discriminate.
Qed.

(** X22: updating the features of one scene changes no feature of
    another scene and no identifier. *)
Theorem update_leaves_other_scenes l coord l' coord' :
  NoDup (map fid (all_features l)) ->
  update_scene transform sceneID entry l coord = ((l', coord'), None) ->
  map fid (all_features l') = map fid (all_features l)
  /\ forall g, In g (all_features l) -> has_scene sceneID g = false ->
               In g (all_features l').
Proof.
  unfold update_scene. intros Hnd Hrun.
  apply update_loop_others in Hrun; [exact Hrun|exact Hnd].
Qed.
End OtherScenes.

Lemma update_leaves_other_scenes_witness :
  map fid (all_features (fst flat_updated)) = [Some 2; Some 4]
  /\ forall g, In g [good_feature; flat_feature] ->
               has_scene "LC82080232013149LGN00" g = false ->
               In g (all_features (fst flat_updated)).
Proof.
  apply (update_leaves_other_scenes to_local "LC82080232013149LGN00"
           geometry_update (catalog_layer [good_feature; flat_feature]) None
           (fst flat_updated) (snd flat_updated)).
  - vm_compute. repeat constructor; simpl; intuition discriminate.
  - vm_compute. reflexivity.
Defined.

(** ** The tile conversion: options and ends *)

Section TilesRuns.
Variable glob : string -> list string.
Variable converttotiles : call -> outcome.
Variable isdir : state -> string -> bool.
Variable mkdir : state -> string -> option exn.
Variable logerror : state -> string -> exn -> option exn.

(** Making an output directory is no conversion and no log entry. *)
Lemma ensure_dir_calls p st :
  calls (fst (ensure_dir isdir mkdir p st)) = calls st
  /\ errorlog (fst (ensure_dir isdir mkdir p st)) = errorlog st.
Proof.
  unfold ensure_dir. destruct (isdir st p); auto.
Qed.

Lemma ensure_outdir_calls a p st :
  calls (fst (ensure_outdir isdir mkdir a p st)) = calls st
  /\ errorlog (fst (ensure_outdir isdir mkdir a p st)) = errorlog st.
Proof.
  unfold ensure_outdir. destruct (outdir_given a); [|auto].
  apply ensure_dir_calls.
Qed.

(** What holds of every call made is kept by the loops when it holds of
    the calls they make. *)
Lemma convert_files_calls (P : call -> Prop) a dn out flist st :
  (forall rastertype f,
      nth_error rastertypes dn = Some rastertype ->
      P (made_call a dn out rastertype f)) ->
  Forall P (calls st) ->
  Forall P (calls (fst (convert_files converttotiles logerror a dn out flist
                          st))).
Proof.
  intros Hnew. revert st.
  induction flist as [|f rest IH]; intros st Hst; cbn [convert_files].
  - exact Hst.
  - destruct (nth_error rastertypes dn) as [rastertype|] eqn:Ert; [|exact Hst].
    fold (made_call a dn out rastertype f).
    assert (Hst1 : Forall P (calls st ++ [made_call a dn out rastertype f])).
    { apply Forall_app. split; [exact Hst|]. constructor; [|constructor].
      now apply Hnew. }
    destruct (converttotiles (made_call a dn out rastertype f)) as [|e].
    + apply IH. exact Hst1.
    + destruct (is_Exception e); [|exact Hst1].
      destruct (logerror _ f e); [exact Hst1|].
      apply IH. exact Hst1.
Qed.

Lemma visit_calls (P : call -> Prop) a todo st :
  (forall d dn rastertype f,
      In d todo -> index d (dirs a) = Ok dn ->
      (skipqa a && str_in d (qa_dirs a)) = false ->
      nth_error rastertypes dn = Some rastertype ->
      P (made_call a dn (outdir_of a d) rastertype f)) ->
  Forall P (calls st) ->
  Forall P (calls (fst (visit glob converttotiles isdir mkdir logerror a todo
                          st))).
Proof.
  revert st. induction todo as [|d rest IH]; intros st Hnew Hst;
    cbn [visit].
  - exact Hst.
  - destruct (index d (dirs a)) as [dn|] eqn:Edn; [|exact Hst].
    destruct (skipqa a && str_in d (qa_dirs a)) eqn:Eskip.
    + apply IH; [|exact Hst]. intros; eapply Hnew; eauto. now right.
    + destruct (ensure_outdir_calls a (outdir_of a d) st) as [Hsame _].
      destruct (ensure_outdir isdir mkdir a (outdir_of a d) st)
        as [st0 [e|]]; cbn [fst] in Hsame.
      * cbn [fst]. now rewrite Hsame.
      * assert (Hst0 : Forall P (calls st0)) by now rewrite Hsame.
        pose proof (convert_files_calls P a dn (outdir_of a d)
                      (flist_of glob a d) st0) as Hcf.
        destruct (convert_files converttotiles logerror a dn (outdir_of a d)
                    (flist_of glob a d) st0) as [st' [e|]].
        -- apply Hcf; [|exact Hst0]. intros; eapply Hnew; eauto. now left.
        -- apply IH.
           ++ intros; eapply Hnew; eauto. now right.
           ++ apply Hcf; [|exact Hst0]. intros; eapply Hnew; eauto. now left.
Qed.

Lemma main_calls (P : call -> Prop) a :
  (forall d dn rastertype f,
      In d (dirs a) -> index d (dirs a) = Ok dn ->
      (skipqa a && str_in d (qa_dirs a)) = false ->
      nth_error rastertypes dn = Some rastertype ->
      P (made_call a dn (outdir_of a d) rastertype f)) ->
  Forall P (calls (fst (main glob converttotiles isdir mkdir logerror a))).
Proof.
  intros Hnew. unfold main.
  destruct (outdir_given a) as [o|];
    [|apply visit_calls; [exact Hnew|constructor]].
  destruct (ensure_dir_calls o start) as [Hsame _].
  destruct (ensure_dir isdir mkdir o start) as [st0 [e|]];
    cbn [fst] in *.
  - rewrite Hsame. constructor.
  - apply visit_calls; [exact Hnew|]. rewrite Hsame. constructor.
Qed.

Lemma index_past_qa a d dn :
  index d (dirs a) = Ok dn -> str_in d (qa_dirs a) = false -> (2 <= dn)%nat.
Proof.
  unfold dirs, qa_dirs, str_in. cbn [existsb index].
  rewrite orb_false_r. intros Hdn Hqa. apply orb_false_iff in Hqa.
  destruct Hqa as [Hp Hf].
  rewrite String.eqb_sym in Hp. rewrite String.eqb_sym in Hf.
  rewrite Hp, Hf in Hdn. cbn [bind] in Hdn.
  destruct (String.eqb (srdir a) d); [injection Hdn as <-; lia|].
  destruct (String.eqb (btdir a) d); [injection Hdn as <-; lia|].
  destruct (String.eqb (ndvidir a) d); [injection Hdn as <-; lia|].
  destruct (String.eqb (evidir a) d); [injection Hdn as <-; lia|].
  discriminate.
Qed.

(** X23: under [--skipqa] no file is converted as a pixel QA or Fmask
    layer, whatever the directories, the files, the conversions and the
    file system are: every call has [pixelqa] true and one of the other
    four raster types. *)
Theorem skipqa_converts_no_qa_layer a :
  skipqa a = true ->
  Forall (fun c => c_pixelqa c = true
                   /\ In (c_rastertype c) ["ref"; "BT"; "NDVI"; "EVI"]%string)
    (calls (fst (main glob converttotiles isdir mkdir logerror a))).
Proof.
  intros Hskip. apply main_calls.
  intros d dn rastertype f _ Hdn Hq Hrt. rewrite Hskip in Hq. cbn [andb] in Hq.
  pose proof (index_past_qa a d dn Hdn Hq) as H2.
  pose proof (index_bound _ _ _ Hdn) as H6. cbn in H6.
  unfold made_call. cbn [c_pixelqa c_rastertype].
  destruct dn as [|[|[|[|[|[|dn]]]]]]; try lia;
    injection Hrt as <-; cbn; auto 8.
Qed.

Lemma contains_no_char_after_last c s acc :
  contains_char c acc = false ->
  contains_char c (after_last_aux c s acc) = false.
Proof.
  revert acc. induction s as [|x s IH]; intros acc Hacc; cbn [after_last_aux].
  - exact Hacc.
  - destruct (Ascii.eqb x c) eqn:E; apply IH; [reflexivity|].
    clear IH. induction acc as [|y acc IHacc]; cbn in *.
    + now rewrite E.
    + apply orb_false_iff in Hacc. destruct Hacc as [Hy Hacc].
      rewrite Hy. cbn. now apply IHacc.
Qed.

Lemma prefix_app a b : prefix a (a ++ b) = true.
Proof. induction a as [|c a IH]; [now destruct b|]. cbn. destruct (ascii_dec c c); [exact IH|congruence]. Qed.

Lemma path_join_under a p : prefix a (path_join a (basename p)) = true.
Proof.
  unfold path_join, basename, after_last.
  pose proof (contains_no_char_after_last "/" p "" eq_refl) as Hb.
  destruct (after_last_aux "/" p "") as [|c b] eqn:E.
  - cbn [startswith prefix].
    destruct (String.eqb a "" || endswith a "/"); apply prefix_app.
  - cbn in Hb. apply orb_false_iff in Hb. destruct Hb as [Hc _].
    unfold startswith. cbn [prefix].
    destruct (ascii_dec "/" c) as [<-|]; [discriminate Hc|].
    destruct (String.eqb a "" || endswith a "/"); apply prefix_app.
Qed.

(** X24: with [--outdir] every conversion writes below that directory:
    the output directory of every call starts with it. *)
Theorem outdir_holds_every_output a o :
  outdir_given a = Some o ->
  Forall (fun c => prefix o (c_outdir c) = true)
    (calls (fst (main glob converttotiles isdir mkdir logerror a))).
Proof.
  intros Ho. apply main_calls.
  intros d dn rastertype f _ _ _ _. unfold made_call. cbn [c_outdir].
  unfold outdir_of. rewrite Ho. apply path_join_under.
Qed.

(** The three ways in which the loops end early. *)
Lemma ensure_dir_stops p st st' e :
  ensure_dir isdir mkdir p st = (st', Some e) ->
  stopped_by_mkdir isdir mkdir e st'.
Proof.
  unfold ensure_dir. destruct (isdir st p) eqn:Edir; [discriminate|].
  intros [= <- Hmk]. exists st, p. cbn [made]. auto.
Qed.

Lemma convert_files_stops a dn out flist st st' e :
  (dn < 6)%nat ->
  convert_files converttotiles logerror a dn out flist st = (st', Some e) ->
  stopped_by converttotiles e st' /\ is_Exception e = false
  \/ stopped_by_logerror converttotiles logerror e st'.
Proof.
  intros Hdn. revert st. induction flist as [|f rest IH]; intros st;
    cbn [convert_files].
  - discriminate.
  - rewrite (rastertype_at dn Hdn).
    match goal with
    | |- context [converttotiles ?c] =>
        destruct (converttotiles c) as [|e'] eqn:Ec; [apply IH|]
    end.
    destruct (is_Exception e') eqn:Ee.
    + match goal with
      | |- context [logerror ?st1 f e'] =>
          destruct (logerror st1 f e') as [e2|] eqn:El; [|apply IH]
      end.
      intros [= <- <-]. right.
      eexists. eexists. eexists. eexists.
      split; [|split; [|split; [exact Ec|split; [exact Ee|exact El]]]];
        reflexivity.
    + intros [= <- <-]. left. split; [|exact Ee].
      eexists. eexists. split; [reflexivity|exact Ec].
Qed.

Lemma visit_stops a todo st st' e :
  incl todo (dirs a) ->
  visit glob converttotiles isdir mkdir logerror a todo st = (st', Some e) ->
  stopped_by converttotiles e st' /\ is_Exception e = false
  \/ stopped_by_mkdir isdir mkdir e st'
  \/ stopped_by_logerror converttotiles logerror e st'.
Proof.
  revert st. induction todo as [|d rest IH]; intros st Hincl; cbn [visit].
  - discriminate.
  - assert (Hd : In d (dirs a)) by (apply Hincl; now left).
    assert (Hrest : incl rest (dirs a))
      by (intros x Hx; apply Hincl; now right).
    destruct (index_in _ _ Hd) as [dn Hdn]. rewrite Hdn.
    pose proof (index_bound _ _ _ Hdn) as Hlt. cbn in Hlt.
    destruct (skipqa a && str_in d (qa_dirs a)); [now apply IH|].
    destruct (ensure_outdir isdir mkdir a (outdir_of a d) st)
      as [st0 [e0|]] eqn:Eout.
    + intros [= <- <-]. right. left.
      unfold ensure_outdir in Eout. destruct (outdir_given a);
        [|discriminate].
      eapply ensure_dir_stops; eauto.
    + destruct (convert_files converttotiles logerror a dn (outdir_of a d)
                  (flist_of glob a d) st0) as [st1 [e1|]] eqn:Ecf.
      * intros [= <- <-].
        destruct (convert_files_stops _ _ _ _ _ _ _ Hlt Ecf) as [H|H];
          [left|right; right]; exact H.
      * now apply IH.
Qed.

End TilesRuns.

Lemma skipqa_converts_no_qa_layer_witness :
  Forall (fun c => c_pixelqa c = true
                   /\ In (c_rastertype c) ["ref"; "BT"; "NDVI"; "EVI"]%string)
    (calls (fst (main sample_glob sample_convert none_there mkdir_returns
                   logerror_returns skipqa_args))).
Proof.
  apply (skipqa_converts_no_qa_layer sample_glob sample_convert none_there
           mkdir_returns logerror_returns skipqa_args).
  reflexivity.
Defined.

Lemma outdir_holds_every_output_witness :
  Forall (fun c => prefix "/tiles" (c_outdir c) = true)
    (calls (fst (main sample_glob sample_convert none_there mkdir_returns
                   logerror_returns skipqa_args))).
Proof.
  apply (outdir_holds_every_output sample_glob sample_convert none_there
           mkdir_returns logerror_returns skipqa_args "/tiles").
  reflexivity.
Defined.

